(** * StudyBuddy backend: catalog, content store and ingestion pipeline

    A shallow embedding of [cloud_storage.py], [database.py] and the
    [/process-pdf] and [/generate-quiz] routes of [app.py], with the
    properties of the design document stated over it.

    Conventions.
    - A Python [str] is the list of its code points, [bytes] the list of
      its byte values; both are [list N].
    - A call that may raise returns an [outcome]: [Returns v] or
      [Raises e].  Side effects made before an exception is raised are
      kept, as in Python.
    - Everything outside the repository (the object store client, the
      PDF rasteriser, the generative model, the speech service, the
      [json] and [hashlib] modules, the clock) is a field of a record of
      answers; every theorem quantifies over that record. *)

From Stdlib Require Import ZArith List Lia Bool Ascii String Floats Uint63.
From stdpp Require Import base tactics option list numbers strings pretty.

Local Open Scope Z_scope.

(** ** Text and bytes *)

Definition str : Type := list N.
Definition bytes : Type := list N.

(** The code points of an ASCII literal. *)
Definition u (s : string) : str :=
  map (fun a => N_of_ascii a) (list_ascii_of_string s).

(** Python's [str(n)] for a non-negative integer. *)
Definition str_of_Z (z : Z) : str := u (pretty z).

(** ** Exceptions *)

Inductive exn_class : Type :=
| JSONDecodeError
| ValueError
| IntegrityError
| UnboundLocalError
| OtherException.

#[global] Instance exn_class_eq_dec : EqDecision exn_class.
Proof. solve_decision. Defined.

Record exn : Type := mk_exn { exn_cls : exn_class; exn_msg : str }.

Inductive outcome (A : Type) : Type :=
| Returns (a : A)
| Raises (e : exn).
Arguments Returns {A} a.
Arguments Raises {A} e.

(** [try: body / except Exception: handler] on a call without state. *)
Definition try_except {A} (body : outcome A) (handler : exn -> outcome A)
  : outcome A :=
  match body with
  | Returns a => Returns a
  | Raises e => handler e
  end.

Definition raised {A} (o : outcome A) : Prop := exists e, o = Raises e.
Definition returned {A} (o : outcome A) : Prop := exists a, o = Returns a.

(** ** Stateful calls

    A call that reads or writes shared state [S] (the catalog, the log of
    calls made to an outside service, the events a generator has yielded).
    The state reached when an exception is raised is the one the handler
    or the caller goes on with. *)

Definition prog (S A : Type) : Type := S -> outcome A * S.

Definition ret {S A} (a : A) : prog S A := fun s => (Returns a, s).

Definition bind {S A B} (m : prog S A) (k : A -> prog S B) : prog S B :=
  fun s =>
    match m s with
    | (Returns a, s') => k a s'
    | (Raises e, s') => (Raises e, s')
    end.

Definition raise {S A} (e : exn) : prog S A := fun s => (Raises e, s).

Definition lift {S A} (o : outcome A) : prog S A := fun s => (o, s).

Definition gets {S A} (f : S -> A) : prog S A := fun s => (Returns (f s), s).

Definition modify {S} (f : S -> S) : prog S unit := fun s => (Returns tt, f s).

(** [try: body / except Exception as e: handler e]. *)
Definition try_catch {S A} (body : prog S A) (handler : exn -> prog S A)
  : prog S A :=
  fun s =>
    match body s with
    | (Returns a, s') => (Returns a, s')
    | (Raises e, s') => handler e s'
    end.

(** [try: body / except cls as e: handler e]: an exception of another
    class passes through. *)
Definition try_catch_class {S A} (cls : exn_class) (body : prog S A)
    (handler : exn -> prog S A) : prog S A :=
  fun s =>
    match body s with
    | (Returns a, s') => (Returns a, s')
    | (Raises e, s') =>
        if decide (exn_cls e = cls) then handler e s' else (Raises e, s')
    end.

Notation "'let!' x ':=' m 'in' k" := (bind m (fun x => k))
  (at level 10, x name, m at level 100, k at level 200).
Notation "m ';;;' k" := (bind m (fun _ => k))
  (at level 100, k at level 200, right associativity).

(** * Python built-ins used by the repository *)

Module Py.

(** [str.isspace] on one character; also the class [\s] of [re]. *)
Definition isspace (c : N) : bool :=
  (((9 <=? c) && (c <=? 13)) || ((28 <=? c) && (c <=? 32))
   || (c =? 133) || (c =? 160) || (c =? 5760)
   || ((8192 <=? c) && (c <=? 8202))
   || (c =? 8232) || (c =? 8233) || (c =? 8239) || (c =? 8287)
   || (c =? 12288))%N.

Definition startswith (s p : str) : bool := bool_decide (take (length p) s = p).

Definition endswith (s p : str) : bool :=
  bool_decide (drop (length s - length p) s = p).

(** [sub in s]. *)
Fixpoint contains (sub s : str) : bool :=
  startswith s sub || match s with [] => false | _ :: s' => contains sub s' end.

(** [s.split(sep)] for a non-empty [sep]: the pieces between the
    occurrences of [sep], found from the left and not overlapping.
    [skip] counts the characters of a separator still to be passed,
    [piece] holds the current piece backwards. *)
Fixpoint split_from (sep : str) (skip : nat) (piece : str) (s : str) : list str :=
  match s with
  | [] => [rev piece]
  | c :: s' =>
      match skip with
      | S k => split_from sep k piece s'
      | O =>
          if startswith s sep
          then rev piece :: split_from sep (length sep - 1) [] s'
          else split_from sep 0 (c :: piece) s'
      end
  end.

Definition split (sep s : str) : list str := split_from sep 0 [] s.

(** [l[i]] on a list known to be long enough (every use is guarded). *)
Definition item (i : nat) (l : list str) : str := nth i l [].

Fixpoint takewhile (f : N -> bool) (s : str) : str :=
  match s with
  | c :: s' => if f c then c :: takewhile f s' else []
  | [] => []
  end.

Fixpoint dropwhile (f : N -> bool) (s : str) : str :=
  match s with
  | c :: s' => if f c then dropwhile f s' else s
  | [] => []
  end.

Definition lstrip (s : str) : str := dropwhile isspace s.
Definition strip (s : str) : str := rev (lstrip (rev (lstrip s))).

(** [sep.join(l)]. *)
Fixpoint join (sep : str) (l : list str) : str :=
  match l with
  | [] => []
  | [x] => x
  | x :: rest => x ++ sep ++ join sep rest
  end.

(** [s.replace(c, '')] for a one-character [c]. *)
Definition remove_char (c : N) (s : str) : str :=
  filter (fun d => d <> c) s.

Definition slash : N := 47%N.
Definition dot : N := 46%N.
Definition comma : N := 44%N.
Definition star : N := 42%N.
Definition newline : N := 10%N.

(** [os.path.join(a, b)] on POSIX paths. *)
Definition os_path_join (a b : str) : str :=
  if startswith b [slash] then b
  else if bool_decide (a = []) || endswith a [slash] then a ++ b
  else a ++ [slash] ++ b.

(** [os.path.basename]: what follows the last [/]. *)
Definition os_path_basename (p : str) : str :=
  rev (takewhile (fun c => negb (c =? slash)%N) (rev p)).

(** [os.path.splitext(p)[0]] of a name without [/]: the name up to its
    last dot, unless only dots precede that dot. *)
Definition splitext_root (p : str) : str :=
  let r := rev p in
  let ext := takewhile (fun c => negb (c =? dot)%N) r in
  if bool_decide (length ext = length r) then p
  else
    let root := rev (drop (S (length ext)) r) in
    if forallb (fun c => (c =? dot)%N) root then p else root.

(** [re.sub(r',\s*X', 'X', s)] for the closing bracket [X]: a comma
    followed by optional white space and [X] loses the comma and the
    white space.  [after_space X s] is the number of white-space
    characters in front of [X] when [s] begins so. *)
Fixpoint after_space (close : N) (s : str) : option nat :=
  match s with
  | [] => None
  | c :: s' =>
      if (c =? close)%N then Some O
      else if isspace c then option_map S (after_space close s')
      else None
  end.

Fixpoint sub_trailing_comma (close : N) (skip : nat) (s : str) : str :=
  match s with
  | [] => []
  | c :: s' =>
      match skip with
      | S k => sub_trailing_comma close k s'
      | O =>
          if (c =? comma)%N then
            match after_space close s' with
            | Some n => close :: sub_trailing_comma close (S n) s'
            | None => c :: sub_trailing_comma close 0 s'
            end
          else c :: sub_trailing_comma close 0 s'
      end
  end.

(** [re.sub(r'\*\*(.*?)\*\*', r'\1', s)]: a pair of [**] on one line
    loses its stars.  [closing s] is the length of the shortest text
    before a [**] in [s], when no line break comes first. *)
Fixpoint closing (s : str) : option nat :=
  match s with
  | a :: (b :: _) as s' =>
      if ((a =? star) && (b =? star))%N then Some O
      else if (a =? newline)%N then None
      else option_map S (closing s')
  | _ => None
  end.

(** The scan is in one of four phases: passing the second opening star
    ([open] characters to drop), copying the text between the pairs
    ([keep] characters), passing the closing pair ([shut] characters to
    drop), or looking for the next opening pair. *)
Fixpoint sub_bold (open keep shut : nat) (s : str) : str :=
  match s with
  | [] => []
  | c :: s' =>
      match open, keep, shut with
      | S k, _, _ => sub_bold k keep shut s'
      | O, S k, _ => c :: sub_bold 0 k shut s'
      | O, O, S k => sub_bold 0 0 k s'
      | O, O, O =>
          match s' with
          | b :: rest =>
              if ((c =? star) && (b =? star))%N then
                match closing rest with
                | Some n => sub_bold 1 n 2 s'
                | None => c :: sub_bold 0 0 0 s'
                end
              else c :: sub_bold 0 0 0 s'
          | [] => [c]
          end
      end
  end.

End Py.

(** * cloud_storage.py *)

Module CloudStorage.

(** What is uploaded: [upload_file] accepts a [str] or [bytes]. *)
Inductive content : Type :=
| Text (s : str)
| Binary (b : bytes).

(** The remote tier as one request sees it: the environment the client
    is built from and the answer of every blob operation of
    [google.cloud.storage], each of which may raise. *)
Record gcs : Type := {
  GOOGLE_APPLICATION_CREDENTIALS : option str;
  credentials_file_exists : bool;
  from_service_account_json : outcome unit;
  DEFAULT_BUCKET_NAME : str;
  blob_upload_from_string : str -> str -> content -> option str -> outcome unit;
  blob_upload_from_file : str -> str -> bytes -> option str -> outcome unit;
  blob_upload_from_filename : str -> str -> str -> outcome unit;
  blob_exists : str -> str -> outcome bool;
  blob_generate_signed_url : str -> str -> Z -> outcome str;
  blob_download_to_filename : str -> str -> str -> outcome unit;
  blob_download_as_bytes : str -> str -> outcome bytes;
  bucket_list_blobs : str -> str -> outcome (list str);
  blob_delete : str -> str -> outcome unit
}.

Section Operations.
Context (w : gcs).

(** [get_storage_client]: [None] when the credentials path is unset or
    empty, the file is missing, or building the client raises. *)
Definition get_storage_client : option unit :=
  match GOOGLE_APPLICATION_CREDENTIALS w with
  | None => None
  | Some [] => None
  | Some (_ :: _) =>
      if negb (credentials_file_exists w) then None
      else match from_service_account_json w with
           | Returns client => Some client
           | Raises _ => None
           end
  end.

Definition upload_file (file_content : content) (file_path bucket_name : str)
    (content_type : option str) : outcome (option str) :=
  match get_storage_client with
  | None => Returns None
  | Some _ =>
      try_except
        (match
           (match file_content with
            | Text s =>
                if match content_type with
                   | Some ((_ :: _) as ct) => Py.startswith ct (u "text/")
                   | _ => false
                   end
                then blob_upload_from_string w bucket_name file_path file_content content_type
                else blob_upload_from_string w bucket_name file_path file_content content_type
            | Binary _ =>
                blob_upload_from_string w bucket_name file_path file_content content_type
            end)
         with
         | Returns _ => Returns (Some file_path)
         | Raises e => Raises e
         end)
        (fun _ => Returns None)
  end.

Definition upload_from_file (file_object : bytes) (file_path bucket_name : str)
    (content_type : option str) : outcome (option str) :=
  match get_storage_client with
  | None => Returns None
  | Some _ =>
      try_except
        (match blob_upload_from_file w bucket_name file_path file_object content_type with
         | Returns _ => Returns (Some file_path)
         | Raises e => Raises e
         end)
        (fun _ => Returns None)
  end.

Definition upload_from_filename (local_file_path file_path bucket_name : str)
    (content_type : option str) : outcome (option str) :=
  match get_storage_client with
  | None => Returns None
  | Some _ =>
      try_except
        (match blob_upload_from_filename w bucket_name file_path local_file_path with
         | Returns _ => Returns (Some file_path)
         | Raises e => Raises e
         end)
        (fun _ => Returns None)
  end.

Definition generate_signed_url (file_path bucket_name : str)
    (expiration_minutes : Z) : outcome (option str) :=
  match get_storage_client with
  | None => Returns None
  | Some _ =>
      try_except
        (match blob_exists w bucket_name file_path with
         | Raises e => Raises e
         | Returns false => Returns None
         | Returns true =>
             match blob_generate_signed_url w bucket_name file_path expiration_minutes with
             | Returns url => Returns (Some url)
             | Raises e => Raises e
             end
         end)
        (fun _ => Returns None)
  end.

(** No [try] here: what [blob.download_to_filename] raises reaches the
    caller ([ensure_db_exists] catches it). *)
Definition download_file (file_path local_path bucket_name : str)
  : outcome (option str) :=
  match get_storage_client with
  | None => Returns None
  | Some _ =>
      match blob_download_to_filename w bucket_name file_path local_path with
      | Raises e => Raises e
      | Returns _ => Returns (Some local_path)
      end
  end.

Definition download_as_string (file_path bucket_name : str)
  : outcome (option bytes) :=
  match get_storage_client with
  | None => Returns None
  | Some _ =>
      try_except
        (match blob_download_as_bytes w bucket_name file_path with
         | Returns b => Returns (Some b)
         | Raises e => Raises e
         end)
        (fun _ => Returns None)
  end.

Definition check_if_file_exists (file_path bucket_name : str) : outcome bool :=
  match get_storage_client with
  | None => Returns false
  | Some _ =>
      try_except (blob_exists w bucket_name file_path) (fun _ => Returns false)
  end.

Definition list_files_with_prefix (prefix bucket_name : str)
  : outcome (list str) :=
  match get_storage_client with
  | None => Returns []
  | Some _ =>
      try_except (bucket_list_blobs w bucket_name prefix) (fun _ => Returns [])
  end.

(** No [try] here either. *)
Definition delete_file (file_path bucket_name : str) : outcome bool :=
  match get_storage_client with
  | None => Returns false
  | Some _ =>
      match blob_exists w bucket_name file_path with
      | Raises e => Raises e
      | Returns false => Returns false
      | Returns true =>
          match blob_delete w bucket_name file_path with
          | Raises e => Raises e
          | Returns _ => Returns true
          end
      end
  end.

End Operations.

End CloudStorage.

(** * database.py *)

Module Database.

Import CloudStorage.

Definition GCS_DB_PATH : str := u "database/studybuddy.db".
Definition LOCAL_DB_PATH : str := u "instance/studybuddy.db".

(** The tables [pdfs] and [user_pdfs] of [init_db_schema], rows in rowid
    order, each with the counter SQLite keeps for its AUTOINCREMENT key. *)
Record pdfs_row : Type := {
  pdf_id : Z;
  title : str;
  file_path : str;
  pdf_hash : str;
  file_size : Z;
  page_count : Z;
  created_at : str
}.

Record user_pdfs_row : Type := {
  id : Z;
  user_id : Z;
  link_pdf_id : Z;
  uploaded_at : str
}.

Record database : Type := {
  pdfs : list pdfs_row;
  pdfs_seq : Z;
  user_pdfs : list user_pdfs_row;
  user_pdfs_seq : Z
}.

Definition empty_db : database :=
  {| pdfs := []; pdfs_seq := 0; user_pdfs := []; user_pdfs_seq := 0 |}.

(** *** SQLite's [LIKE]

    [%] matches any run of characters, also the empty one; [_] matches
    exactly one character, whichever it is; any other character matches
    itself, the letters A-Z and a-z without regard to case.  No [ESCAPE]
    clause is given by [database.py], so no character of the pattern is
    taken literally when it is [%] or [_]. *)

Definition percent : N := 37%N.
Definition underscore : N := 95%N.

Definition ascii_lower (c : N) : N :=
  if ((65 <=? c) && (c <=? 90))%N then (c + 32)%N else c.

Fixpoint like (pattern text : str) : bool :=
  match pattern with
  | [] => match text with [] => true | _ :: _ => false end
  | p :: pattern' =>
      if (p =? percent)%N then
        (fix any (t : str) : bool :=
           like pattern' t ||
           match t with [] => false | _ :: t' => any t' end) text
      else
        match text with
        | [] => false
        | c :: text' =>
            ((p =? underscore)%N || (ascii_lower p =? ascii_lower c)%N)
            && like pattern' text'
        end
  end.

Section Operations.
Context (w : gcs) (CURRENT_TIMESTAMP : str).

Definition sync_db_to_cloud : outcome bool :=
  try_except
    (match get_storage_client w with
     | None => Returns false
     | Some _ =>
         match upload_from_filename w LOCAL_DB_PATH GCS_DB_PATH
                 (DEFAULT_BUCKET_NAME w) (Some (u "application/x-sqlite3")) with
         | Raises e => Raises e
         | Returns (Some (_ :: _)) => Returns true
         | Returns _ => Returns false
         end
     end)
    (fun _ => Returns false).

(** [INSERT INTO pdfs (...)]: the column [pdf_hash] is [UNIQUE]. *)
Definition insert_into_pdfs (title file_path pdf_hash : str)
    (file_size page_count : Z) : prog database Z :=
  fun d =>
    if existsb (fun r => bool_decide (r.(Database.pdf_hash) = pdf_hash)) (pdfs d)
    then (Raises (mk_exn IntegrityError
                    (u "UNIQUE constraint failed: pdfs.pdf_hash")), d)
    else
      let rowid := pdfs_seq d + 1 in
      (Returns rowid,
       {| pdfs := pdfs d ++
            [ {| pdf_id := rowid; title := title; file_path := file_path;
                 pdf_hash := pdf_hash; file_size := file_size;
                 page_count := page_count; created_at := CURRENT_TIMESTAMP |} ];
          pdfs_seq := rowid;
          user_pdfs := user_pdfs d;
          user_pdfs_seq := user_pdfs_seq d |}).

(** [INSERT INTO user_pdfs (user_id, pdf_id)]: no uniqueness constraint,
    and SQLite does not enforce the foreign keys unless asked to. *)
Definition insert_into_user_pdfs (user_id pdf_id : Z) : prog database Z :=
  fun d =>
    let rowid := user_pdfs_seq d + 1 in
    (Returns rowid,
     {| pdfs := pdfs d;
        pdfs_seq := pdfs_seq d;
        user_pdfs := user_pdfs d ++
          [ {| id := rowid; user_id := user_id; link_pdf_id := pdf_id;
               uploaded_at := CURRENT_TIMESTAMP |} ];
        user_pdfs_seq := rowid |}).

(** [SELECT ... FROM pdfs WHERE pdf_hash = ?] then [fetchone()]. *)
Definition select_pdf_by_hash (pdf_hash : str) (d : database) : option pdfs_row :=
  find (fun r => bool_decide (r.(Database.pdf_hash) = pdf_hash)) (pdfs d).

(** What [add_pdf] does with the answer of its [SELECT]. *)
Definition add_pdf_after_select (title file_path pdf_hash : str)
    (file_size page_count : Z) (existing_pdf : option pdfs_row)
  : prog database Z :=
  match existing_pdf with
  | Some row => ret (pdf_id row)
  | None =>
      let! lastrowid := insert_into_pdfs title file_path pdf_hash file_size page_count in
      lift sync_db_to_cloud ;;;
      ret lastrowid
  end.

Definition add_pdf (title file_path pdf_hash : str) (file_size page_count : Z)
  : prog database Z :=
  let! existing_pdf := gets (select_pdf_by_hash pdf_hash) in
  add_pdf_after_select title file_path pdf_hash file_size page_count existing_pdf.

Definition associate_pdf_with_user (user_id pdf_id : Z) : prog database Z :=
  let! existing :=
    gets (fun d =>
      find (fun r => bool_decide (r.(Database.user_id) = user_id)
                     && bool_decide (link_pdf_id r = pdf_id)) (user_pdfs d)) in
  match existing with
  | Some row => ret (id row)
  | None =>
      let! lastrowid := insert_into_user_pdfs user_id pdf_id in
      lift sync_db_to_cloud ;;;
      ret lastrowid
  end.

Definition get_pdf_by_hash (pdf_hash : str) (d : database) : option pdfs_row :=
  select_pdf_by_hash pdf_hash d.

Definition get_pdf_by_path (file_path : str) (d : database) : option pdfs_row :=
  find (fun r => bool_decide (r.(Database.file_path) = file_path)) (pdfs d).

(** The exact match first, then the rows [LIKE base_name + '_%']. *)
Definition get_pdf_versions_by_name (base_name : str) (d : database) : list str :=
  let versions :=
    map Database.file_path
      (filter (fun r => r.(Database.file_path) = base_name) (pdfs d)) in
  versions ++
    map Database.file_path
      (filter (fun r => like (base_name ++ u "_%") r.(Database.file_path) = true)
         (pdfs d)).

End Operations.

End Database.

(** * app.py *)

Module App.

Import CloudStorage Database Py.

(** ** Values exchanged with the outside *)

(** What [json.loads] returns and [jsonify] takes.  A number that is
    not an integer is kept as the text of its literal.  An object is the
    list of its members; [json.loads] leaves no key twice. *)
#[warnings="-register-all"]
Inductive json : Type :=
| JNull
| JBool (b : bool)
| JInt (z : Z)
| JFloat (literal : str)
| JStr (s : str)
| JList (items : list json)
| JDict (members : list (str * json)).

(** [key in d]. *)
Definition has_key (key : str) (members : list (str * json)) : bool :=
  existsb (fun kv => bool_decide (fst kv = key)) members.

(** [d[key]], when present. *)
Definition get_key (key : str) (members : list (str * json)) : option json :=
  option_map snd (find (fun kv => bool_decide (fst kv = key)) members).

(** The answer of [json.loads]: a value, or a [JSONDecodeError]. *)
Inductive parsed : Type :=
| Parsed (value : json)
| Malformed (msg : str).

Definition image : Type := list N.

(** One line of the stream of [/process-pdf], before [json.dumps]. *)
Inductive event : Type :=
| Info (total_pages : Z) (pdf_name : str)
| Progress (progress page total_pages : Z)
| Page (page_number : Z) (image explanation audio audio_url image_url : str)
| Complete (pdf_name : str)
| Error (error : str).

Inductive response : Type :=
| Jsonify (body : json) (status : Z)
| StreamingResponse (lines : list event).

Definition error_body (msg : str) : json := JDict [(u "error", JStr msg)].

(** ** The world outside the repository

    Calls to the generative model and to the speech service are
    numbered: the answer may differ from one call to the next even for
    the same request.  What is read from the local file system is an
    answer of the world, and so is the success or the exception of
    every call that creates, writes or removes a file or a folder
    there ([NamedTemporaryFile] to [write_bytes] below).  Nothing a
    request writes there is read again by the same request, but for the
    upload saved to the temporary file, which is read back as it was
    saved. *)
Record world : Type := {
  store : gcs;
  CURRENT_TIMESTAMP : str;
  time_time : Z;
  time_strftime : str;
  sha256_hexdigest : bytes -> str;
  b64encode : bytes -> str;
  b64decode : str -> outcome bytes;
  json_loads : str -> parsed;
  json_loads_bytes : bytes -> parsed;
  json_dumps : json -> str;
  decode_utf8 : bytes -> outcome str;
  str_lower : str -> str;
  re_word : N -> bool;
  search_page_number : str -> str -> option Z;
  py_int : str -> outcome Z;
  convert_from_path : bytes -> outcome (list image);
  jpeg : image -> bytes;
  Image_open : bytes -> outcome image;
  generate_content_text : nat -> str -> option image -> outcome str;
  requests_post_json : nat -> str -> outcome json;
  os_path_exists : str -> bool;
  os_listdir : str -> list str;
  read_text : str -> outcome str;
  read_bytes : str -> bytes;
  load_json_file : str -> parsed;
  NamedTemporaryFile : outcome str;
  file_save : str -> bytes -> outcome unit;
  os_remove : str -> outcome unit;
  os_makedirs : str -> outcome unit;
  getsize : str -> outcome Z;
  image_save : image -> str -> outcome unit;
  write_text : str -> str -> outcome unit;
  write_bytes : str -> bytes -> outcome unit
}.

(** ** The state a request runs in *)
Record state : Type := {
  db : database;
  model_calls : list (str * option image);
  tts_calls : list str;
  yielded : list event
}.

Definition with_db (f : database -> database) (s : state) : state :=
  {| db := f (db s); model_calls := model_calls s;
     tts_calls := tts_calls s; yielded := yielded s |}.

(** A catalog operation run on the catalog of the state. *)
Definition on_db {A} (m : prog database A) : prog state A :=
  fun s => let (o, d) := m (db s) in (o, with_db (fun _ => d) s).

(** [yield json.dumps(e) + '\n']. *)
Definition yield (e : event) : prog state unit :=
  modify (fun s =>
    {| db := db s; model_calls := model_calls s;
       tts_calls := tts_calls s; yielded := yielded s ++ [e] |}).

(** [model.generate_content(contents=[prompt, image]).text]. *)
Definition model_generate_content (w : world) (prompt : str)
    (img : option image) : prog state str :=
  fun s =>
    (generate_content_text w (length (model_calls s)) prompt img,
     {| db := db s; model_calls := model_calls s ++ [(prompt, img)];
        tts_calls := tts_calls s; yielded := yielded s |}).

(** [requests.post(tts_url, json=payload)], [raise_for_status()] and
    [.json()] on the answer. *)
Definition post_text_to_speech (w : world) (speech_text : str) : prog state json :=
  fun s =>
    (requests_post_json w (length (tts_calls s)) speech_text,
     {| db := db s; model_calls := model_calls s;
        tts_calls := tts_calls s ++ [speech_text]; yielded := yielded s |}).

(** A statement whose exception is caught and only printed. *)
Definition best_effort {A} (m : prog state A) : prog state unit :=
  try_catch (m ;;; ret tt) (fun _ => ret tt).

(** [for x in l: body x]. *)
Fixpoint for_each {S A} (body : A -> prog S unit) (l : list A) : prog S unit :=
  match l with
  | [] => ret tt
  | x :: rest => body x ;;; for_each body rest
  end.

(** [enumerate(l)], counting from [i]. *)
Fixpoint enumerate_from {A} (i : Z) (l : list A) : list (Z * A) :=
  match l with
  | [] => []
  | x :: rest => (i, x) :: enumerate_from (i + 1) rest
  end.

Definition enumerate {A} (l : list A) : list (Z * A) := enumerate_from 0 l.

Definition UPLOAD_FOLDER : str := u "uploads".
Definition GCS_PDF_PREFIX : str := u "pdfs/".
Definition GCS_IMAGE_PREFIX : str := u "images/".
Definition GCS_AUDIO_PREFIX : str := u "audio/".
Definition GCS_TEXT_PREFIX : str := u "text/".
Definition GCS_QUIZ_PREFIX : str := u "quiz/".

(** ** /process-pdf *)

(** [calculate_file_hash]: the file is read in chunks of 64 KiB, each
    fed to the hasher; the digest is taken over all that was fed.
    [fuel] bounds the number of reads. *)
Definition chunk_size : nat := N.to_nat 65536.

Fixpoint read_chunks (fuel : nat) (rest : bytes) (fed : bytes) : bytes :=
  match fuel with
  | O => fed
  | S fuel' =>
      let buf := take chunk_size rest in
      match buf with
      | [] => fed
      | _ :: _ => read_chunks fuel' (drop chunk_size rest) (fed ++ buf)
      end
  end.

Definition calculate_file_hash (w : world) (file : bytes) : str :=
  sha256_hexdigest w (read_chunks (S (length file)) file []).

(** The uploaded file of a multipart form. *)
Record file_storage : Type := {
  filename : str;
  stream : bytes
}.

(** A request that passed [login_required]: [request_user_id] is
    [request.user['user_id']]. *)
Record request : Type := {
  files_file : option file_storage;
  form_difficulty_level : option str;
  request_user_id : Z
}.

(** [re.sub(r'[^\w\-]', '_', name).lower()]. *)
Definition clean_name (w : world) (name : str) : str :=
  str_lower w
    (map (fun c => if re_word w c || (c =? 45)%N then c else underscore) name).

Definition explain_prompt (difficulty_level : str) : str :=
  u "Please explain this page in " ++ difficulty_level ++
  u ", including any formulas or mathematical expressions. Make sure to explain them in a way that would be easy to read aloud. Give a '.' after a long pause and a ';' after a medium pause based on the importance of the words. Preserve all formatting, including paragraph breaks. Also dont use any sub scripting symbols or special characters, instead read it aloud. Dont repeat content from the previous page and useless information in the header and footer.".

(** [int(a / b)] for integers [0 <= a] and [0 < b]: the true quotient
    is rounded to a double and cut towards zero, which gives the integer
    quotient as long as [a] stays below 2^53. *)
Definition int_truediv (a b : Z) : Z := Z.quot a b.

(** The same computed on IEEE 754 doubles, as Python does: both
    integers become doubles, are divided, and the quotient is cut
    towards zero. *)
Definition float_of_int (z : Z) : float := PrimFloat.of_uint63 (Uint63.of_Z z).

Definition int_of_float (f : float) : Z :=
  match Prim2SF f with
  | S754_finite sign m e =>
      let magnitude :=
        if 0 <=? e then Z.pos m * 2 ^ e else Z.pos m / 2 ^ (- e) in
      if sign then - magnitude else magnitude
  | _ => 0
  end.

Definition double_int_truediv (a b : Z) : Z :=
  int_of_float (PrimFloat.div (float_of_int a) (float_of_int b)).

(** The progress values of a PDF of [page_count] pages agree in the two
    readings. *)
Definition readings_agree (page_count : Z) : bool :=
  forallb
    (fun page_number =>
       double_int_truediv ((page_number - 1) * 65) page_count
       =? int_truediv ((page_number - 1) * 65) page_count)
    (seqZ 1 page_count).

Definition progress_percentage (page_number page_count : Z) : Z :=
  30 + int_truediv ((page_number - 1) * 65) page_count.

(** The text sent to the speech service for a page. *)
Definition speech_text_of (page_number : Z) (explanation : str) : str :=
  let speech_text := sub_bold 0 0 0 explanation in
  let speech_text := remove_char star speech_text in
  let speech_text :=
    if bool_decide (strip speech_text = [])
    then u "Page " ++ str_of_Z page_number ++
         u " content could not be processed properly."
    else speech_text in
  if bool_decide (5000 < Z.of_nat (length speech_text))
  then take (Z.to_nat 5000) speech_text ++
       u "... The rest of the content has been truncated for processing."
  else speech_text.

(** The files of a page in the folder of the PDF in the local tier. *)
Definition page_image_path (pdf_id : str) (page_number : Z) : str :=
  os_path_join (os_path_join UPLOAD_FOLDER pdf_id)
    (u "page_" ++ str_of_Z page_number ++ u ".jpg").

Definition page_text_path (pdf_id : str) (page_number : Z) : str :=
  os_path_join (os_path_join UPLOAD_FOLDER pdf_id)
    (pdf_id ++ u "_page_" ++ str_of_Z page_number ++ u ".md").

Definition page_audio_dir (pdf_id : str) : str :=
  os_path_join (os_path_join UPLOAD_FOLDER pdf_id) (u "audio_files").

Definition page_audio_path (pdf_id : str) (page_number : Z) : str :=
  os_path_join (page_audio_dir pdf_id)
    (pdf_id ++ u "_page_" ++ str_of_Z page_number ++ u ".mp3").

(** The sentence that stands for an explanation that could not be
    made or kept. *)
Definition failure_text (page_number : Z) (e : exn) : str :=
  u "Failed to generate explanation for page " ++ str_of_Z page_number
  ++ u ": " ++ exn_msg e.

(** The audio of a page: the body of the [try] around the speech call,
    which also keeps the audio in the local tier. *)
Definition synthesize (w : world) (pdf_id : str) (page_number : Z)
    (explanation : str) : prog state bytes :=
  let speech_text := speech_text_of page_number explanation in
  let! response_json := post_text_to_speech w speech_text in
  let! audio_data :=
    match response_json with
    | JDict members =>
        match get_key (u "audioContent") members with
        | None => raise (mk_exn OtherException (u "No audioContent in TTS response"))
        | Some (JStr encoded) => lift (b64decode w encoded)
        | Some _ => raise (mk_exn OtherException (u "argument should be a bytes-like object or ASCII string"))
        end
    | _ => raise (mk_exn OtherException (u "No audioContent in TTS response"))
    end in
  match audio_data with
  | [] => raise (mk_exn OtherException (u "Empty audio data returned from TTS API"))
  | _ :: _ =>
      lift (os_makedirs w (page_audio_dir pdf_id)) ;;;
      lift (write_bytes w (page_audio_path pdf_id page_number) audio_data) ;;;
      let gcs_audio_path :=
        GCS_AUDIO_PREFIX ++ pdf_id ++ u "/page_" ++ str_of_Z page_number ++ u ".mp3" in
      best_effort
        (lift (upload_file (store w) (Binary audio_data) gcs_audio_path
                 (DEFAULT_BUCKET_NAME (store w)) (Some (u "audio/mpeg")))) ;;;
      ret audio_data
  end.

(** The body of the loop over the pages.  The image is saved, and
    after a failure of the explanation the sentence that tells of it is
    written, outside any [try] of the loop: an exception there leaves
    the loop. *)
Definition process_page (w : world) (pdf_id difficulty_level : str)
    (page_count : Z) (entry : Z * image) : prog state unit :=
  let (i, image) := entry in
  let page_number := i + 1 in
  yield (Progress (progress_percentage page_number page_count)
           page_number page_count) ;;;
  let temp_img_path := page_image_path pdf_id page_number in
  lift (image_save w image temp_img_path) ;;;
  let gcs_img_path :=
    GCS_IMAGE_PREFIX ++ pdf_id ++ u "/page_" ++ str_of_Z page_number ++ u ".jpg" in
  best_effort
    (lift (upload_from_filename (store w) temp_img_path gcs_img_path
             (DEFAULT_BUCKET_NAME (store w)) (Some (u "image/jpeg")))) ;;;
  let img_str := b64encode w (jpeg w image) in
  let text_path := page_text_path pdf_id page_number in
  let! explanation :=
    try_catch
      (let! explanation :=
         model_generate_content w (explain_prompt difficulty_level) (Some image) in
       lift (write_text w text_path explanation) ;;;
       let gcs_text_path :=
         GCS_TEXT_PREFIX ++ pdf_id ++ u "/page_" ++ str_of_Z page_number ++ u ".md" in
       lift (upload_file (store w) (Text explanation) gcs_text_path
               (DEFAULT_BUCKET_NAME (store w)) (Some (u "text/markdown"))) ;;;
       ret explanation)
      (fun e =>
         let explanation := failure_text page_number e in
         lift (write_text w text_path explanation) ;;;
         ret explanation) in
  let! audio_data :=
    try_catch (synthesize w pdf_id page_number explanation)
      (fun _ => ret []) in
  let audio_str := b64encode w audio_data in
  yield (Page page_number img_str explanation audio_str
           (u "/pdf/" ++ pdf_id ++ u "/audio/" ++ str_of_Z page_number)
           (u "/pdf/" ++ pdf_id ++ u "/image/" ++ str_of_Z page_number)).

(** The generator [generate] of [process_pdf], run until it is
    exhausted; what it yields is appended to [yielded].  (The removal
    of the temporary files, between the last page and the completion,
    sits in a [try] of its own whose handler only prints.) *)
Definition generate (w : world) (temp_pdf : bytes)
    (original_pdf_name pdf_id pdf_hash difficulty_level : str)
    (file_size user_id : Z) : prog state unit :=
  try_catch
    (let! images := lift (convert_from_path w temp_pdf) in
     let page_count := Z.of_nat (length images) in
     let! pdf_db_id :=
       on_db (add_pdf (store w) (CURRENT_TIMESTAMP w)
                original_pdf_name pdf_id pdf_hash file_size page_count) in
     on_db (associate_pdf_with_user (store w) (CURRENT_TIMESTAMP w)
              user_id pdf_db_id) ;;;
     yield (Info page_count pdf_id) ;;;
     for_each (process_page w pdf_id difficulty_level page_count)
       (enumerate images) ;;;
     yield (Complete pdf_id))
    (fun e => yield (Error (exn_msg e))).

Definition existing_body (pdf_name : str) : json :=
  JDict [ (u "type", JStr (u "existing"));
          (u "pdf_name", JStr pdf_name);
          (u "message", JStr (u "PDF already exists, associating with your account")) ].

Definition process_pdf (w : world) (req : request) : prog state response :=
  match files_file req with
  | None => ret (Jsonify (error_body (u "No file provided")) 400)
  | Some file =>
      if bool_decide (filename file = []) then
        ret (Jsonify (error_body (u "No file selected")) 400)
      else if negb (endswith (filename file) (u ".pdf")) then
        ret (Jsonify (error_body (u "File must be a PDF")) 400)
      else
        let difficulty_level :=
          default (u "detailed") (form_difficulty_level req) in
        let original_pdf_name := splitext_root (os_path_basename (filename file)) in
        let pdf_name := clean_name w original_pdf_name in
        let user_id := request_user_id req in
        let! temp_pdf_path := lift (NamedTemporaryFile w) in
        lift (file_save w temp_pdf_path (stream file)) ;;;
        let temp_pdf := stream file in
        let pdf_hash := calculate_file_hash w temp_pdf in
        let! existing_pdf := gets (fun s => get_pdf_by_hash pdf_hash (db s)) in
        match existing_pdf with
        | Some row =>
            on_db (associate_pdf_with_user (store w) (CURRENT_TIMESTAMP w)
                     user_id (pdf_id row)) ;;;
            lift (os_remove w temp_pdf_path) ;;;
            ret (Jsonify (existing_body (file_path row)) 200)
        | None =>
            let pdf_id := pdf_name ++ u "_" ++ str_of_Z (time_time w) in
            let temp_folder := os_path_join UPLOAD_FOLDER pdf_id in
            lift (os_makedirs w temp_folder) ;;;
            let metadata :=
              JDict [ (u "date_processed", JStr (time_strftime w));
                      (u "original_filename", JStr (filename file));
                      (u "difficulty_level", JStr difficulty_level);
                      (u "user_id", JInt user_id) ] in
            best_effort
              (lift (upload_from_filename (store w) temp_pdf_path
                       (GCS_PDF_PREFIX ++ pdf_id ++ u "/original.pdf")
                       (DEFAULT_BUCKET_NAME (store w)) (Some (u "application/pdf")))) ;;;
            best_effort
              (lift (upload_file (store w) (Text (json_dumps w metadata))
                       (GCS_PDF_PREFIX ++ pdf_id ++ u "/metadata.json")
                       (DEFAULT_BUCKET_NAME (store w)) (Some (u "application/json")))) ;;;
            let! file_size := lift (getsize w temp_pdf_path) in
            let! before := gets yielded in
            generate w temp_pdf original_pdf_name pdf_id pdf_hash
              difficulty_level file_size user_id ;;;
            let! after := gets yielded in
            ret (StreamingResponse (drop (length before) after))
        end
  end.


(** ** /generate-quiz *)

(** [l.sort(key=key)] and [sorted(l, key=key)]: the keys are computed
    first (an exception there leaves the call), then the list is sorted
    by them, equal keys keeping their order. *)
Fixpoint keyed {A} (key : A -> outcome Z) (l : list A) : outcome (list (Z * A)) :=
  match l with
  | [] => Returns []
  | x :: rest =>
      match key x with
      | Raises e => Raises e
      | Returns k =>
          match keyed key rest with
          | Raises e => Raises e
          | Returns krest => Returns ((k, x) :: krest)
          end
      end
  end.

Fixpoint insert_by_key {A} (x : Z * A) (l : list (Z * A)) : list (Z * A) :=
  match l with
  | [] => [x]
  | y :: l' => if fst x <=? fst y then x :: l else y :: insert_by_key x l'
  end.

Definition sort_keyed {A} (l : list (Z * A)) : list (Z * A) :=
  foldr insert_by_key [] l.

Definition sort_by_key {A} (key : A -> outcome Z) (l : list A) : outcome (list A) :=
  match keyed key l with
  | Raises e => Raises e
  | Returns kl => Returns (map snd (sort_keyed kl))
  end.

(** A loop that appends to a list. *)
Fixpoint gather {S A B} (body : A -> prog S (list B)) (l : list A) : prog S (list B) :=
  match l with
  | [] => ret []
  | x :: rest =>
      let! found := body x in
      let! more := gather body rest in
      ret (found ++ more)
  end.

Definition no_group : exn :=
  mk_exn OtherException (u "'NoneType' object has no attribute 'group'").

(** The explanations kept in the remote tier, in page order. *)
Definition remote_explanations (w : world) (pdf_name : str) : prog state (list str) :=
  let bucket := DEFAULT_BUCKET_NAME (store w) in
  let text_prefix := GCS_TEXT_PREFIX ++ pdf_name ++ u "/" in
  let! text_files := lift (list_files_with_prefix (store w) text_prefix bucket) in
  match text_files with
  | [] => ret []
  | _ :: _ =>
      let! text_files :=
        lift (sort_by_key
                (fun f => match search_page_number w (u "page_(\d+)\.md$") f with
                          | Some n => Returns n
                          | None => Raises no_group
                          end) text_files) in
      gather
        (fun text_file =>
           try_catch
             (let! content := lift (download_as_string (store w) text_file bucket) in
              match content with
              | Some ((_ :: _) as data) =>
                  let! text := lift (decode_utf8 w data) in ret [text]
              | _ => ret []
              end)
             (fun _ => ret []))
        text_files
  end.

(** The explanations kept under [text_folder] of the local tier. *)
Definition local_explanations (w : world) (text_folder : str) : prog state (list str) :=
  let! text_files :=
    lift (sort_by_key
            (fun f => match split (u "_page_") f with
                      | _ :: x :: _ => py_int w (item 0 (split (u ".") x))
                      | _ => Raises (mk_exn OtherException (u "list index out of range"))
                      end)
            (filter (fun f => endswith f (u ".md") = true)
               (os_listdir w text_folder))) in
  gather
    (fun text_file =>
       let! text := lift (read_text w (os_path_join text_folder text_file)) in
       ret [text])
    text_files.

Definition summary_prompt : str :=
  u "Provide a comprehensive summary of the key concepts on this page that would be useful for quiz generation.".

(** The fallback when no explanation text exists: a summary of every
    page image, asked from the model. *)
Definition image_summaries (w : world) (pdf_name pdf_folder : str)
    (gcs_available pdf_exists : bool) : prog state (list str) :=
  let bucket := DEFAULT_BUCKET_NAME (store w) in
  let! image_files :=
    if gcs_available then
      let! image_files_gcs :=
        lift (list_files_with_prefix (store w)
                (GCS_IMAGE_PREFIX ++ pdf_name ++ u "/") bucket) in
      ret (map snd
             (sort_keyed
                (omap (fun f =>
                         match search_page_number w (u "page_(\d+)\.jpg$") f with
                         | Some n => Some (n, (f, true))
                         | None => None
                         end) image_files_gcs)))
    else ret [] in
  let! image_files :=
    match image_files with
    | [] =>
        let image_folder := os_path_join pdf_folder (u "image_files") in
        if pdf_exists && os_path_exists w image_folder then
          let! local_image_files :=
            lift (sort_by_key
                    (fun f =>
                       match search_page_number w
                               (if contains (u "_page_") f
                                then u "_page_(\d+)\.jpg$"
                                else u "page_(\d+)\.jpg$") f with
                       | Some n => Returns n
                       | None => Raises no_group
                       end)
                    (filter (fun f => endswith f (u ".jpg") = true)
                       (os_listdir w image_folder))) in
          ret (map (fun f => (os_path_join image_folder f, false)) local_image_files)
        else ret []
    | _ :: _ => ret image_files
    end in
  gather
    (fun entry : str * bool =>
       let (file_path, is_gcs) := entry in
       try_catch
         (let! image_data :=
            if is_gcs then lift (download_as_string (store w) file_path bucket)
            else ret (Some (read_bytes w file_path)) in
          match image_data with
          | Some ((_ :: _) as data) =>
              let! image := lift (Image_open w data) in
              let! text := model_generate_content w summary_prompt (Some image) in
              ret [text]
          | _ => ret []
          end)
         (fun _ => ret []))
    image_files.

Definition quiz_prompt (combined_text : str) : str :=
  u "Based on the following content, generate a quiz with 5 multiple-choice questions to test understanding. For each question, provide: 1. The question text 2. Four possible answers (A, B, C, D) 3. The correct answer letter 4. A brief explanation of why that's the correct answer Format the output exactly as a JSON array of objects with the following structure: [ { 'question': 'Question text here', 'options': ['Option A', 'Option B', 'Option C', 'Option D'], 'correctAnswer': 'A', 'explanation': 'Explanation of why A is correct' }, ... ] Make sure to provide 5 questions and use the EXACT format above. Return ONLY valid JSON data, nothing else. Content: "
  ++ take (Z.to_nat 8000) combined_text.

Definition simple_prompt (combined_text : str) : str :=
  u "Generate a JSON array of 3 quiz questions about the following content. Each question should have a 'question' field, an 'options' array with 4 choices, a 'correctAnswer' field with the letter (A, B, C or D), and an 'explanation' field. Return ONLY valid JSON, nothing else. Content: "
  ++ take (Z.to_nat 4000) combined_text.

(** The answer of the model made ready for [json.loads]: the text of a
    code fence when there is one, and no comma in front of a closing
    bracket. *)
Definition clean_json_text (text : str) : str :=
  let text :=
    if contains (u "```json") text then
      strip (item 0 (split (u "```") (item 1 (split (u "```json") text))))
    else if contains (u "```") text then
      strip (item 0 (split (u "```") (item 1 (split (u "```") text))))
    else text in
  let text := sub_trailing_comma 125 0 text in
  sub_trailing_comma 93 0 text.

(** [json.loads] as a call that raises. *)
Definition loads (w : world) (text : str) : outcome json :=
  match json_loads w text with
  | Parsed value => Returns value
  | Malformed msg => Raises (mk_exn JSONDecodeError msg)
  end.

(** The check made on the first answer. *)
Definition check_item (item : json) : outcome unit :=
  match item with
  | JDict members =>
      if negb (has_key (u "question") members)
         || negb (has_key (u "options") members)
         || negb (has_key (u "correctAnswer") members)
      then Raises (mk_exn ValueError (u "Quiz item is missing required fields"))
      else Returns tt
  | _ => Raises (mk_exn ValueError (u "Quiz item is not a dictionary"))
  end.

Fixpoint check_items (items : list json) : outcome unit :=
  match items with
  | [] => Returns tt
  | item :: rest =>
      match check_item item with
      | Raises e => Raises e
      | Returns _ => check_items rest
      end
  end.

Definition validate_quiz (quiz_data : json) : outcome unit :=
  match quiz_data with
  | JList items => check_items items
  | _ => Raises (mk_exn ValueError (u "Quiz data is not a list"))
  end.

Definition failed_body : json :=
  error_body (u "Failed to generate valid quiz format").

(** [if pdf_exists: with open(local_quiz_path, 'w') as f:
    json.dump(quiz_data, f)], the path being given when the folder of
    the PDF exists: what [open] and the write raise is an [OSError]. *)
Definition save_quiz (w : world) (local_quiz_path : option str)
    (quiz_data : json) : outcome unit :=
  match local_quiz_path with
  | Some path =>
      match write_text w path (json_dumps w quiz_data) with
      | Returns _ => Returns tt
      | Raises e => Raises (mk_exn OtherException (exn_msg e))
      end
  | None => Returns tt
  end.

(** From the collected explanations to the response: the request to
    the model, the [try] around parsing, checking and keeping the quiz,
    its handler for [json.JSONDecodeError] with the second request.
    The two prompts above are the source's up to white space and the
    kind of quote used in the example they show. *)
Definition quiz_from_explanations (w : world)
    (gcs_quiz_path local_quiz_path : option str)
    (all_explanations : list str) : prog state response :=
  let combined_text := join [newline; newline] all_explanations in
  let! quiz_text := model_generate_content w (quiz_prompt combined_text) None in
  try_catch_class JSONDecodeError
    (let quiz_text := clean_json_text quiz_text in
     let! quiz_data := lift (loads w quiz_text) in
     lift (validate_quiz quiz_data) ;;;
     lift (save_quiz w local_quiz_path quiz_data) ;;;
     match gcs_quiz_path with
     | Some path =>
         best_effort
           (lift (upload_file (store w) (Text (json_dumps w quiz_data)) path
                    (DEFAULT_BUCKET_NAME (store w)) (Some (u "application/json"))))
     | None => ret tt
     end ;;;
     ret (Jsonify quiz_data 200))
    (fun _ =>
       let! second :=
         try_catch
           (let! simple_text :=
              model_generate_content w (simple_prompt combined_text) None in
            let simple_text := clean_json_text simple_text in
            let! simple_data := lift (loads w simple_text) in
            lift (save_quiz w local_quiz_path simple_data) ;;;
            match gcs_quiz_path with
            | Some path =>
                lift (upload_file (store w) (Text (json_dumps w simple_data)) path
                        (DEFAULT_BUCKET_NAME (store w)) (Some (u "application/json"))) ;;;
                ret tt
            | None => ret tt
            end ;;;
            ret (Some (Jsonify simple_data 200)))
           (fun _ => ret None) in
       match second with
       | Some answer => ret answer
       | None => ret (Jsonify failed_body 500)
       end).

Definition unbound_text_folder : exn :=
  mk_exn UnboundLocalError
    (u "cannot access local variable 'text_folder' where it is not associated with a value").

Definition generate_quiz (w : world) (pdf_name : str) : prog state response :=
  let bucket := DEFAULT_BUCKET_NAME (store w) in
  try_catch
    (let gcs_available := bool_decide (is_Some (get_storage_client (store w))) in
     let gcs_quiz_path :=
       if gcs_available then Some (GCS_QUIZ_PREFIX ++ pdf_name ++ u "/quiz.json")
       else None in
     let! gcs_pdf_exists :=
       if gcs_available then
         lift (check_if_file_exists (store w)
                 (GCS_PDF_PREFIX ++ pdf_name ++ u "/original.pdf") bucket)
       else ret false in
     let! stored :=
       match gcs_quiz_path with
       | Some path =>
           let! gcs_quiz_exists := lift (check_if_file_exists (store w) path bucket) in
           if (gcs_quiz_exists : bool) then
             let! quiz_content := lift (download_as_string (store w) path bucket) in
             match quiz_content with
             | Some ((_ :: _) as data) =>
                 match json_loads_bytes w data with
                 | Parsed quiz_data => ret (Some quiz_data)
                 | Malformed msg => raise (mk_exn JSONDecodeError msg)
                 end
             | _ => ret None
             end
           else ret None
       | None => ret None
       end in
     match stored with
     | Some quiz_data => ret (Jsonify quiz_data 200)
     | None =>
         let pdf_folder := os_path_join UPLOAD_FOLDER pdf_name in
         let pdf_exists := os_path_exists w pdf_folder in
         if negb pdf_exists && negb gcs_pdf_exists then
           ret (Jsonify (error_body (u "PDF folder not found")) 404)
         else
           let quiz_folder := os_path_join pdf_folder (u "quiz_data") in
           (if negb (os_path_exists w quiz_folder) && pdf_exists
            then lift (os_makedirs w quiz_folder) else ret tt) ;;;
           let local_quiz_path :=
             os_path_join quiz_folder (pdf_name ++ u "_quiz.json") in
           if os_path_exists w local_quiz_path then
             match load_json_file w local_quiz_path with
             | Malformed msg => raise (mk_exn JSONDecodeError msg)
             | Parsed quiz_data =>
                 match gcs_quiz_path with
                 | Some path =>
                     best_effort
                       (lift (upload_file (store w) (Text (json_dumps w quiz_data))
                                path bucket (Some (u "application/json"))))
                 | None => ret tt
                 end ;;;
                 ret (Jsonify quiz_data 200)
             end
           else
             let! all_explanations :=
               if gcs_available then remote_explanations w pdf_name else ret [] in
             let text_folder :=
               if bool_decide (all_explanations = []) && pdf_exists
               then Some (os_path_join pdf_folder (u "text_files"))
               else None in
             let! all_explanations :=
               match text_folder with
               | None => raise unbound_text_folder
               | Some folder =>
                   if os_path_exists w folder then
                     let! found := local_explanations w folder in
                     ret (all_explanations ++ found)
                   else ret all_explanations
               end in
             let! all_explanations :=
               match all_explanations with
               | [] => image_summaries w pdf_name pdf_folder gcs_available pdf_exists
               | _ :: _ => ret all_explanations
               end in
             match all_explanations with
             | [] => ret (Jsonify (error_body (u "No content found to generate quiz")) 404)
             | _ :: _ =>
                 quiz_from_explanations w gcs_quiz_path
                   (if pdf_exists then Some local_quiz_path else None)
                   all_explanations
             end
     end)
    (fun e => ret (Jsonify (error_body (exn_msg e)) 500)).


End App.

(** * Vocabulary of the properties *)

Module Spec.

Import CloudStorage Database Py App.

(** A call degrades to [failure]: it returns, and it returns [failure]
    whenever [fails] holds. *)
Definition degrades {A} (o : outcome A) (failure : A) (fails : Prop) : Prop :=
  returned o /\ (fails -> o = Returns failure).

(** No client for the remote tier. *)
Definition unavailable (w : gcs) : Prop := get_storage_client w = None.

(** The [UNIQUE] constraint on [pdfs.pdf_hash]. *)
Definition unique_hashes (d : database) : Prop :=
  NoDup (map pdf_hash (pdfs d)).

(** At most one row of [user_pdfs] for a user and a PDF. *)
Definition unique_links (d : database) : Prop :=
  NoDup (map (fun r => (user_id r, link_pdf_id r)) (user_pdfs d)).

(** Calls of [associate_pdf_with_user], one after the other. *)
Fixpoint associate_all (w : gcs) (now : str) (calls : list (Z * Z))
    (d : database) : database :=
  match calls with
  | [] => d
  | (user, pdf) :: rest =>
      associate_all w now rest (snd (associate_pdf_with_user w now user pdf d))
  end.

(** A call of [add_pdf] overtaken by another connection: [other]
    commits between the [SELECT] of the call and its [INSERT].  (Every
    call opens a connection of its own, and [db_lock] is held only
    while it is opened.) *)
Definition add_pdf_overtaken (w : gcs) (now : str) (other : prog database Z)
    (title file_path pdf_hash : str) (file_size page_count : Z)
  : prog database Z :=
  fun d =>
    let existing_pdf := select_pdf_by_hash pdf_hash d in
    let d1 := snd (other d) in
    add_pdf_after_select w now title file_path pdf_hash file_size page_count
      existing_pdf d1.

(** *** The stream of [/process-pdf] *)

(** The [try] around the explanation of a page: the text of the answer
    to call number [call] of the model, once it is written to the local
    tier, or the exception of the call or of the write. *)
Definition explanation_try (w : world) (pdf_id difficulty_level : str)
    (call : nat) (page_number : Z) (img : image) : outcome str :=
  match generate_content_text w call (explain_prompt difficulty_level) (Some img) with
  | Returns text =>
      match write_text w (page_text_path pdf_id page_number) text with
      | Returns _ => Returns text
      | Raises e => Raises e
      end
  | Raises e => Raises e
  end.

(** The explanation of a page: that text, or the sentence that tells
    of the failure. *)
Definition explanation_of (w : world) (pdf_id difficulty_level : str)
    (call : nat) (page_number : Z) (img : image) : str :=
  match explanation_try w pdf_id difficulty_level call page_number img with
  | Returns text => text
  | Raises e => failure_text page_number e
  end.

(** The audio of a page, from the answer to request number [call] of
    the speech service: empty unless the request succeeds, carries
    audio, and the audio is written to the local tier. *)
Definition audio_of (w : world) (pdf_id : str) (call : nat) (page_number : Z)
    (explanation : str) : bytes :=
  match requests_post_json w call (speech_text_of page_number explanation) with
  | Returns (JDict members) =>
      match get_key (u "audioContent") members with
      | Some (JStr encoded) =>
          match b64decode w encoded with
          | Returns ((_ :: _) as audio) =>
              match os_makedirs w (page_audio_dir pdf_id) with
              | Returns _ =>
                  match write_bytes w (page_audio_path pdf_id page_number) audio with
                  | Returns _ => audio
                  | Raises _ => []
                  end
              | Raises _ => []
              end
          | _ => []
          end
      | _ => []
      end
  | _ => []
  end.

(** The exception that ends the run at a page, if any: that of saving
    the image of the page, or, after a failure of the explanation, that
    of writing the sentence that tells of it. *)
Definition page_abort (w : world) (pdf_id difficulty_level : str)
    (call : nat) (page_number : Z) (img : image) : option exn :=
  match image_save w img (page_image_path pdf_id page_number) with
  | Raises e => Some e
  | Returns _ =>
      match explanation_try w pdf_id difficulty_level call page_number img with
      | Returns _ => None
      | Raises e =>
          match write_text w (page_text_path pdf_id page_number)
                  (failure_text page_number e) with
          | Raises e' => Some e'
          | Returns _ => None
          end
      end
  end.

(** No page of [entries] ends the run, the first of them being
    answered by call number [model_call] of the model. *)
Fixpoint no_abort (w : world) (pdf_id difficulty_level : str)
    (model_call : nat) (entries : list (Z * image)) : Prop :=
  match entries with
  | [] => True
  | (i, img) :: rest =>
      page_abort w pdf_id difficulty_level model_call (i + 1) img = None
      /\ no_abort w pdf_id difficulty_level (S model_call) rest
  end.

Definition page_event (w : world) (pdf_id difficulty_level : str)
    (model_call tts_call : nat) (page_number : Z) (img : image) : event :=
  let explanation :=
    explanation_of w pdf_id difficulty_level model_call page_number img in
  Page page_number (b64encode w (jpeg w img)) explanation
    (b64encode w (audio_of w pdf_id tts_call page_number explanation))
    (u "/pdf/" ++ pdf_id ++ u "/audio/" ++ str_of_Z page_number)
    (u "/pdf/" ++ pdf_id ++ u "/image/" ++ str_of_Z page_number).

(** The events of the pages, the first of them answered by the calls
    numbered [model_call] and [tts_call]. *)
Fixpoint page_events (w : world) (pdf_id difficulty_level : str)
    (page_count : Z) (model_call tts_call : nat) (entries : list (Z * image))
  : list event :=
  match entries with
  | [] => []
  | (i, img) :: rest =>
      Progress (progress_percentage (i + 1) page_count) (i + 1) page_count
      :: page_event w pdf_id difficulty_level model_call tts_call (i + 1) img
      :: page_events w pdf_id difficulty_level page_count
           (S model_call) (S tts_call) rest
  end.

(** What a run of the generator adds to [yielded]. *)
Definition emitted (before after : state) : list event :=
  drop (length (yielded before)) (yielded after).

Definition progress_of (e : event) : option (Z * Z * Z) :=
  match e with
  | Progress progress page total_pages => Some (progress, page, total_pages)
  | _ => None
  end.

Definition page_number_of (e : event) : option Z :=
  match e with
  | Page page_number _ _ _ _ _ => Some page_number
  | _ => None
  end.

Definition total_pages_of (e : event) : option Z :=
  match e with
  | Info total_pages _ => Some total_pages
  | _ => None
  end.

Definition is_error (e : event) : bool :=
  match e with
  | Error _ => true
  | _ => false
  end.

(** *** The answers of [/generate-quiz] *)

(** What the check of the first answer asks of an item. *)
Definition has_required_keys (item : json) : Prop :=
  exists members,
    item = JDict members
    /\ has_key (u "question") members = true
    /\ has_key (u "options") members = true
    /\ has_key (u "correctAnswer") members = true.

(** A question as the design document wants it: four options and the
    letter of one of them. *)
Definition well_formed_question (item : json) : Prop :=
  exists members options letter,
    item = JDict members
    /\ has_key (u "question") members = true
    /\ get_key (u "options") members = Some (JList options)
    /\ length options = 4%nat
    /\ get_key (u "correctAnswer") members = Some (JStr letter)
    /\ letter ∈ [u "A"; u "B"; u "C"; u "D"].

Definition is_failure (r : response) : Prop :=
  exists msg code, r = Jsonify (error_body msg) code /\ (code = 404 \/ code = 500).

(** The shape C2 promises. *)
Definition five_questions_or_failure (r : response) : Prop :=
  (exists items,
      r = Jsonify (JList items) 200
      /\ length items = 5%nat
      /\ Forall well_formed_question items)
  \/ is_failure r.

(** Where [generate_quiz] keeps the quiz of [pdf_name] in the local
    tier: in the folder of the PDF, when there is one. *)
Definition kept_at (w : world) (pdf_name : str) : option str :=
  if os_path_exists w (os_path_join UPLOAD_FOLDER pdf_name)
  then Some (os_path_join
               (os_path_join (os_path_join UPLOAD_FOLDER pdf_name) (u "quiz_data"))
               (pdf_name ++ u "_quiz.json"))
  else None.

(** The shapes [generate_quiz] does answer with for [pdf_name], [after]
    being the state it leaves: a failure; the quiz stored in the remote
    tier under the key of the PDF, or in its local file, as it parses;
    the first answer of the model to the quiz request, as it parses,
    when that is a list of items with the required keys and is kept in
    the local tier; the second answer, as it parses, when the first did
    not parse and the second is kept.  The two requests are the last
    calls of the log [model_calls after], and the answers are those of
    the model to these calls. *)
Inductive quiz_answer (w : world) (pdf_name : str) (after : state)
  : response -> Prop :=
| answer_failure msg code :
    code = 404 \/ code = 500 ->
    quiz_answer w pdf_name after (Jsonify (error_body msg) code)
| answer_stored_remote data quiz_data :
    download_as_string (store w) (GCS_QUIZ_PREFIX ++ pdf_name ++ u "/quiz.json")
      (DEFAULT_BUCKET_NAME (store w)) = Returns (Some data) ->
    json_loads_bytes w data = Parsed quiz_data ->
    quiz_answer w pdf_name after (Jsonify quiz_data 200)
| answer_stored_local quiz_data :
    load_json_file w
      (os_path_join
         (os_path_join (os_path_join UPLOAD_FOLDER pdf_name) (u "quiz_data"))
         (pdf_name ++ u "_quiz.json")) = Parsed quiz_data ->
    quiz_answer w pdf_name after (Jsonify quiz_data 200)
| answer_checked items calls all_explanations text :
    all_explanations <> [] ->
    let combined_text := join [newline; newline] all_explanations in
    model_calls after = calls ++ [(quiz_prompt combined_text, None)] ->
    generate_content_text w (length calls) (quiz_prompt combined_text) None
    = Returns text ->
    json_loads w (clean_json_text text) = Parsed (JList items) ->
    Forall has_required_keys items ->
    save_quiz w (kept_at w pdf_name) (JList items) = Returns tt ->
    quiz_answer w pdf_name after (Jsonify (JList items) 200)
| answer_unchecked text msg simple_text simple_data calls all_explanations :
    all_explanations <> [] ->
    let combined_text := join [newline; newline] all_explanations in
    model_calls after
    = calls ++ [(quiz_prompt combined_text, None);
                (simple_prompt combined_text, None)] ->
    generate_content_text w (length calls) (quiz_prompt combined_text) None
    = Returns text ->
    json_loads w (clean_json_text text) = Malformed msg ->
    generate_content_text w (S (length calls)) (simple_prompt combined_text) None
    = Returns simple_text ->
    json_loads w (clean_json_text simple_text) = Parsed simple_data ->
    save_quiz w (kept_at w pdf_name) simple_data = Returns tt ->
    quiz_answer w pdf_name after (Jsonify simple_data 200).

(** What [generate_quiz] answers once the explanations are collected:
    the rest of its body, under the handler of its outer [try]. *)
Definition answer_quiz (w : world) (gcs_quiz_path local_quiz_path : option str)
    (all_explanations : list str) : prog state response :=
  try_catch (quiz_from_explanations w gcs_quiz_path local_quiz_path all_explanations)
    (fun e => ret (Jsonify (error_body (exn_msg e)) 500)).

(** The state after a call to the model. *)
Definition called (s : state) (prompt : str) : state :=
  {| db := db s; model_calls := model_calls s ++ [(prompt, None)];
     tts_calls := tts_calls s; yielded := yielded s |}.


End Spec.

(** * Worlds used as examples *)

Module Examples.

Import CloudStorage Database Py App.

Definition unavailable_503 : exn :=
  mk_exn OtherException (u "503 Service Unavailable").

(** A remote tier whose client can be built and whose every operation
    raises. *)
Definition gcs_outage : gcs := {|
  GOOGLE_APPLICATION_CREDENTIALS := Some (u "credentials.json");
  credentials_file_exists := true;
  from_service_account_json := Returns tt;
  DEFAULT_BUCKET_NAME := u "studybuddy-pdf-storage";
  blob_upload_from_string := fun _ _ _ _ => Raises unavailable_503;
  blob_upload_from_file := fun _ _ _ _ => Raises unavailable_503;
  blob_upload_from_filename := fun _ _ _ => Raises unavailable_503;
  blob_exists := fun _ _ => Raises unavailable_503;
  blob_generate_signed_url := fun _ _ _ => Raises unavailable_503;
  blob_download_to_filename := fun _ _ _ => Raises unavailable_503;
  blob_download_as_bytes := fun _ _ => Raises unavailable_503;
  bucket_list_blobs := fun _ _ => Raises unavailable_503;
  blob_delete := fun _ _ => Raises unavailable_503
|}.

(** No credentials: the local-only mode. *)
Definition gcs_absent : gcs := {|
  GOOGLE_APPLICATION_CREDENTIALS := None;
  credentials_file_exists := false;
  from_service_account_json := Raises unavailable_503;
  DEFAULT_BUCKET_NAME := u "studybuddy-pdf-storage";
  blob_upload_from_string := fun _ _ _ _ => Raises unavailable_503;
  blob_upload_from_file := fun _ _ _ _ => Raises unavailable_503;
  blob_upload_from_filename := fun _ _ _ => Raises unavailable_503;
  blob_exists := fun _ _ => Raises unavailable_503;
  blob_generate_signed_url := fun _ _ _ => Raises unavailable_503;
  blob_download_to_filename := fun _ _ _ => Raises unavailable_503;
  blob_download_as_bytes := fun _ _ => Raises unavailable_503;
  bucket_list_blobs := fun _ _ => Raises unavailable_503;
  blob_delete := fun _ _ => Raises unavailable_503
|}.

Definition timestamp : str := u "2025-01-01 00:00:00".

(** A catalog after the uploads of [notes.pdf] and [notesx.pdf]. *)
Definition two_uploads : database := {|
  pdfs :=
    [ {| pdf_id := 1; title := u "notes"; file_path := u "notes_1700000000";
         pdf_hash := u "aa"; file_size := 10; page_count := 3;
         created_at := timestamp |};
      {| pdf_id := 2; title := u "notesx"; file_path := u "notesx_1700000001";
         pdf_hash := u "bb"; file_size := 20; page_count := 1;
         created_at := timestamp |} ];
  pdfs_seq := 2;
  user_pdfs :=
    [ {| id := 1; user_id := 7; link_pdf_id := 1; uploaded_at := timestamp |};
      {| id := 2; user_id := 7; link_pdf_id := 2; uploaded_at := timestamp |} ];
  user_pdfs_seq := 2
|}.

(** A world for [/process-pdf] and [/generate-quiz]: no remote tier, a
    three-page PDF, a local folder [uploads/notes_1] with one
    explanation and no quiz.  The model's answers are given by
    [answers]; the speech service fails on its second request; and
    [json.loads] is given on the three texts it is applied to. *)
Definition quote : N := 34%N.
Definition quoted (s : str) : str := quote :: s ++ [quote].

(** The JSON text of a list of one object with [question] Q, the one
    option x and [correctAnswer] E, and the value it parses to. *)
Definition one_odd_question_text : str :=
  u "[{" ++ quoted (u "question") ++ u ": " ++ quoted (u "Q") ++ u ", "
  ++ quoted (u "options") ++ u ": [" ++ quoted (u "x") ++ u "], "
  ++ quoted (u "correctAnswer") ++ u ": " ++ quoted (u "E") ++ u "}]".

Definition one_odd_question : json :=
  JList [ JDict [ (u "question", JStr (u "Q"));
                  (u "options", JList [JStr (u "x")]);
                  (u "correctAnswer", JStr (u "E")) ] ].

Definition demo (answers : nat -> outcome str) : world := {|
  store := gcs_absent;
  CURRENT_TIMESTAMP := timestamp;
  time_time := 1700000000;
  time_strftime := timestamp;
  sha256_hexdigest := fun b => u "aa";
  b64encode := fun b => b;
  b64decode := fun s => Returns s;
  json_loads := fun text =>
    if bool_decide (text = u "{}") then Parsed (JDict [])
    else if bool_decide (text = u "[]") then Parsed (JList [])
    else if bool_decide (text = one_odd_question_text) then Parsed one_odd_question
    else Malformed (u "Expecting value: line 1 column 1 (char 0)");
  json_loads_bytes := fun _ => Malformed (u "Expecting value: line 1 column 1 (char 0)");
  json_dumps := fun _ => [];
  decode_utf8 := fun b => Returns b;
  str_lower := fun s => s;
  re_word := fun c =>
    ((48 <=? c) && (c <=? 57) || (97 <=? c) && (c <=? 122) || (c =? 95))%N;
  search_page_number := fun _ _ => None;
  py_int := fun s =>
    if bool_decide (s = u "1") then Returns 1
    else Raises (mk_exn ValueError (u "invalid literal for int() with base 10"));
  convert_from_path := fun _ => Returns [[1%N]; [2%N]; [3%N]];
  jpeg := fun img => img;
  Image_open := fun b => Returns b;
  generate_content_text := fun call _ _ => answers call;
  requests_post_json := fun call _ =>
    if bool_decide (call = 1%nat) then Raises unavailable_503
    else Returns (JDict [(u "audioContent", JStr [255%N; 251%N])]);
  os_path_exists := fun path =>
    bool_decide (path = u "uploads/notes_1")
    || bool_decide (path = u "uploads/notes_1/text_files");
  os_listdir := fun path =>
    if bool_decide (path = u "uploads/notes_1/text_files")
    then [u "notes_1_page_1.md"] else [];
  read_text := fun _ => Returns (u "Photosynthesis turns light into sugar.");
  read_bytes := fun _ => [];
  load_json_file := fun _ => Malformed (u "Expecting value: line 1 column 1 (char 0)");
  NamedTemporaryFile := Returns (u "/tmp/tmpab12cd34.pdf");
  file_save := fun _ _ => Returns tt;
  os_remove := fun _ => Returns tt;
  os_makedirs := fun _ => Returns tt;
  getsize := fun _ => Returns 4;
  image_save := fun _ _ => Returns tt;
  write_text := fun _ _ => Returns tt;
  write_bytes := fun _ _ => Returns tt
|}.

Definition quota_exceeded : exn := mk_exn OtherException (u "429 quota exceeded").

(** The model fails on its second call and explains the other pages. *)
Definition explains (call : nat) : outcome str :=
  if bool_decide (call = 1%nat) then Raises quota_exceeded
  else Returns (u "This page is about **light**.").

Definition fresh : state :=
  {| db := empty_db; model_calls := []; tts_calls := []; yielded := [] |}.

Definition with_catalog (d : database) : state :=
  {| db := d; model_calls := []; tts_calls := []; yielded := [] |}.

Definition upload_of_notes : request := {|
  files_file := Some {| filename := u "notes.pdf"; stream := [37%N; 80%N; 68%N; 70%N] |};
  form_difficulty_level := None;
  request_user_id := 7
|}.

(** A local tier that takes no file and no folder whose name has more
    than 255 characters, and is as that of [w] otherwise. *)
Definition name_too_long : exn :=
  mk_exn OtherException (u "[Errno 36] File name too long").

Definition fits (path : str) : bool :=
  Z.of_nat (length (os_path_basename path)) <=? 255.

Definition name_max (w : world) : world := {|
  store := store w;
  CURRENT_TIMESTAMP := CURRENT_TIMESTAMP w;
  time_time := time_time w;
  time_strftime := time_strftime w;
  sha256_hexdigest := sha256_hexdigest w;
  b64encode := b64encode w;
  b64decode := b64decode w;
  json_loads := json_loads w;
  json_loads_bytes := json_loads_bytes w;
  json_dumps := json_dumps w;
  decode_utf8 := decode_utf8 w;
  str_lower := str_lower w;
  re_word := re_word w;
  search_page_number := search_page_number w;
  py_int := py_int w;
  convert_from_path := convert_from_path w;
  jpeg := jpeg w;
  Image_open := Image_open w;
  generate_content_text := generate_content_text w;
  requests_post_json := requests_post_json w;
  os_path_exists := os_path_exists w;
  os_listdir := os_listdir w;
  read_text := read_text w;
  read_bytes := read_bytes w;
  load_json_file := load_json_file w;
  NamedTemporaryFile := NamedTemporaryFile w;
  file_save := fun path data =>
    if fits path then file_save w path data else Raises name_too_long;
  os_remove := os_remove w;
  os_makedirs := fun path =>
    if fits path then os_makedirs w path else Raises name_too_long;
  getsize := getsize w;
  image_save := fun img path =>
    if fits path then image_save w img path else Raises name_too_long;
  write_text := fun path text =>
    if fits path then write_text w path text else Raises name_too_long;
  write_bytes := fun path data =>
    if fits path then write_bytes w path data else Raises name_too_long
|}.

(** The model fails on every call. *)
Definition refuses (call : nat) : outcome str := Raises quota_exceeded.

(** The key of an upload whose name has 235 characters: 246 characters,
    so that the folder of the PDF fits and the text file of a page,
    with ten characters more, does not. *)
Definition long_key : str := replicate 235 97%N ++ u "_1700000000".

Definition upload_of_long_name : request := {|
  files_file := Some {| filename := replicate 235 97%N ++ u ".pdf";
                        stream := [37%N; 80%N; 68%N; 70%N] |};
  form_difficulty_level := None;
  request_user_id := 7
|}.


End Examples.

(** * auth.py *)

Module Auth.

Import CloudStorage Database Py App.

(** The tables [users] and [sessions] of [init_db_schema], rows in
    rowid order, each with the counter of its AUTOINCREMENT key. *)
Record users_row : Type := {
  users_user_id : Z;
  username : str;
  email : str;
  password_hash : str;
  users_created_at : str
}.

Record sessions_row : Type := {
  session_id : Z;
  session_user_id : Z;
  token : str;
  session_created_at : str;
  expires_at : str
}.

Record accounts : Type := {
  users : list users_row;
  users_seq : Z;
  sessions : list sessions_row;
  sessions_seq : Z
}.

Definition no_accounts : accounts :=
  {| users := []; users_seq := 0; sessions := []; sessions_seq := 0 |}.

(** [a < b] on two texts as SQLite compares them (collation BINARY):
    by the first character that differs, a text before its extensions.
    The column [expires_at] holds the text of a [datetime], which does
    not read as a number, and [datetime('now')] is a text: the
    comparisons of [get_current_user] are comparisons of texts. *)
Fixpoint text_lt (a b : str) : bool :=
  match a, b with
  | _, [] => false
  | [], _ :: _ => true
  | x :: a', y :: b' => (x <? y)%N || ((x =? y)%N && text_lt a' b')
  end.

(** What the clock and the random source give at one call:
    [str(uuid.uuid4())]; [datetime.now() + timedelta(days=7)] as the
    text bound to the [INSERT] and as its [isoformat()]; SQLite's
    [datetime('now')] and [CURRENT_TIMESTAMP]. *)
Record moment : Type := {
  uuid4 : str;
  now_plus_7_days : str;
  now_plus_7_days_isoformat : str;
  datetime_now : str;
  current_timestamp : str
}.

(** [request.user]. *)
Record current_user : Type := {
  cu_user_id : Z;
  cu_username : str
}.

(** The dictionary [create_session] returns. *)
Record session_data : Type := {
  sd_session_token : str;
  sd_user_id : Z;
  sd_username : str;
  sd_expires_at : str
}.

(** The dictionaries with the key [success]. *)
Inductive register_result : Type :=
| Registered (user_id : Z)
| NotRegistered (error : str).

Inductive login_result : Type :=
| LoggedIn (user_id : Z) (username session_token : str)
| NotLoggedIn (error : str).

Inductive logout_result : Type :=
| LoggedOut
| NotLoggedOut (error : str).

Section Operations.
Context (w : world) (encode : str -> outcome bytes).

(** [hashlib.sha256(password.encode()).hexdigest()]; [encode] raises
    on a string that UTF-8 cannot carry. *)
Definition hash_password (password : str) : outcome str :=
  match encode password with
  | Returns data => Returns (sha256_hexdigest w data)
  | Raises e => Raises e
  end.

(** [INSERT INTO users (username, email, password_hash)]: [username]
    and [email] are [UNIQUE]. *)
Definition insert_into_users (m : moment) (username email password_hash : str)
  : prog accounts Z :=
  fun a =>
    if existsb (fun r => bool_decide (r.(Auth.username) = username)) (users a)
    then (Raises (mk_exn IntegrityError
                    (u "UNIQUE constraint failed: users.username")), a)
    else if existsb (fun r => bool_decide (r.(Auth.email) = email)) (users a)
    then (Raises (mk_exn IntegrityError
                    (u "UNIQUE constraint failed: users.email")), a)
    else
      let rowid := users_seq a + 1 in
      (Returns rowid,
       {| users := users a ++
            [ {| users_user_id := rowid; username := username; email := email;
                 password_hash := password_hash;
                 users_created_at := current_timestamp m |} ];
          users_seq := rowid;
          sessions := sessions a;
          sessions_seq := sessions_seq a |}).

(** [add_user] of database.py. *)
Definition add_user (m : moment) (username email password_hash : str)
  : prog accounts (option Z) :=
  try_catch_class IntegrityError
    (let! user_id := insert_into_users m username email password_hash in
     lift (sync_db_to_cloud (store w)) ;;;
     ret (Some user_id))
    (fun _ => ret None).

(** [get_user_by_username] of database.py. *)
Definition get_user_by_username (username : str) (a : accounts) : option users_row :=
  find (fun r => bool_decide (r.(Auth.username) = username)) (users a).

Definition register_user (m : moment) (username email password : str)
  : prog accounts register_result :=
  let! password_hash := lift (hash_password password) in
  let! user_id := add_user m username email password_hash in
  match user_id with
  | Some user_id =>
      if bool_decide (user_id <> 0) then ret (Registered user_id)
      else ret (NotRegistered (u "Username or email already exists"))
  | None => ret (NotRegistered (u "Username or email already exists"))
  end.

(** [INSERT INTO sessions (user_id, token, expires_at)]: [token] is
    [UNIQUE]. *)
Definition insert_into_sessions (m : moment) (user_id : Z)
    (session_token expires_at : str) : prog accounts Z :=
  fun a =>
    if existsb (fun r => bool_decide (r.(Auth.token) = session_token)) (sessions a)
    then (Raises (mk_exn IntegrityError
                    (u "UNIQUE constraint failed: sessions.token")), a)
    else
      let rowid := sessions_seq a + 1 in
      (Returns rowid,
       {| users := users a;
          users_seq := users_seq a;
          sessions := sessions a ++
            [ {| session_id := rowid; session_user_id := user_id;
                 token := session_token;
                 session_created_at := current_timestamp m;
                 expires_at := expires_at |} ];
          sessions_seq := rowid |}).

Definition create_session (m : moment) (user_id : Z) (username : str)
  : prog accounts (option session_data) :=
  let session_token := uuid4 m in
  let expires_at := now_plus_7_days m in
  try_catch
    (insert_into_sessions m user_id session_token expires_at ;;;
     lift (sync_db_to_cloud (store w)) ;;;
     ret (Some {| sd_session_token := session_token; sd_user_id := user_id;
                  sd_username := username;
                  sd_expires_at := now_plus_7_days_isoformat m |}))
    (fun _ => ret None).

Definition login_user (m : moment) (username password : str)
  : prog accounts login_result :=
  let! password_hash := lift (hash_password password) in
  let! user := gets (get_user_by_username username) in
  match user with
  | None => ret (NotLoggedIn (u "Invalid username or password"))
  | Some user =>
      if negb (bool_decide (user.(Auth.password_hash) = password_hash)) then
        ret (NotLoggedIn (u "Invalid username or password"))
      else
        let! session_data :=
          create_session m (users_user_id user) (user.(Auth.username)) in
        match session_data with
        | Some session_data =>
            ret (LoggedIn (sd_user_id session_data) (sd_username session_data)
                   (sd_session_token session_data))
        | None => ret (NotLoggedIn (u "Failed to create session"))
        end
  end.

(** [DELETE FROM sessions WHERE token = ?], giving [cursor.rowcount]. *)
Definition delete_sessions_by_token (session_token : str) : prog accounts Z :=
  fun a =>
    (Returns (Z.of_nat (length (filter (fun r => token r = session_token)
                                  (sessions a)))),
     {| users := users a; users_seq := users_seq a;
        sessions := filter (fun r => token r <> session_token) (sessions a);
        sessions_seq := sessions_seq a |}).

Definition logout_user (session_token : str) : prog accounts logout_result :=
  try_catch
    (let! rowcount := delete_sessions_by_token session_token in
     lift (sync_db_to_cloud (store w)) ;;;
     if 0 <? rowcount then ret LoggedOut
     else ret (NotLoggedOut (u "Invalid session token")))
    (fun _ => ret (NotLoggedOut (u "Database error"))).

(** The [SELECT] of [get_current_user] and its [fetchone()]: the rows
    of [sessions JOIN users ON s.user_id = u.user_id] with the token
    and [expires_at > datetime('now')].  ([token] and [users.user_id]
    being unique, there is one such row at most.) *)
Definition select_session (m : moment) (session_token : str) (a : accounts)
  : option current_user :=
  head
    (flat_map
       (fun s =>
          map (fun r => {| cu_user_id := session_user_id s;
                           cu_username := r.(Auth.username) |})
            (filter (fun r => users_user_id r = session_user_id s) (users a)))
       (filter (fun s => bool_decide (token s = session_token)
                         && text_lt (datetime_now m) (expires_at s) = true)
          (sessions a))).

(** [DELETE FROM sessions WHERE expires_at <= datetime('now')]. *)
Definition delete_expired_sessions (m : moment) : prog accounts unit :=
  modify (fun a =>
    {| users := users a; users_seq := users_seq a;
       sessions := filter (fun s => text_lt (datetime_now m) (expires_at s) = true)
                     (sessions a);
       sessions_seq := sessions_seq a |}).

Definition get_current_user (m : moment) (session_token : str)
  : prog accounts (option current_user) :=
  if bool_decide (session_token = []) then ret None
  else
    try_catch
      (let! session_data := gets (select_session m session_token) in
       match session_data with
       | None =>
           delete_expired_sessions m ;;;
           lift (sync_db_to_cloud (store w)) ;;;
           ret None
       | Some user => ret (Some user)
       end)
      (fun _ => ret None).

(** A call on the accounts, in a state that holds more. *)
Definition on_accounts {S A} (m : prog accounts A) : prog (accounts * S) A :=
  fun s => let (o, a) := m (fst s) in (o, (a, snd s)).

(** The decorator: [f] is the decorated function, given [request.user];
    [authorization] is the header of that name. *)
Definition login_required {S} (m : moment)
    (f : current_user -> prog (accounts * S) response)
    (authorization : option str) : prog (accounts * S) response :=
  match authorization with
  | Some ((_ :: _) as auth_header) =>
      if negb (startswith auth_header (u "Bearer ")) then
        ret (Jsonify (error_body (u "Unauthorized - No valid session token")) 401)
      else
        let session_token := item 1 (split (u " ") auth_header) in
        let! user := on_accounts (get_current_user m session_token) in
        match user with
        | None =>
            ret (Jsonify (error_body
                            (u "Unauthorized - Invalid or expired session token")) 401)
        | Some user => f user
        end
  | _ =>
      ret (Jsonify (error_body (u "Unauthorized - No valid session token")) 401)
  end.

(** The route [/auth/logout] of app.py. *)
Definition logout (authorization : option str) : prog accounts response :=
  match authorization with
  | Some ((_ :: _) as auth_header) =>
      if negb (startswith auth_header (u "Bearer ")) then
        ret (Jsonify (error_body (u "No valid session token provided")) 400)
      else
        let session_token := item 1 (split (u " ") auth_header) in
        let! result := logout_user session_token in
        match result with
        | LoggedOut =>
            ret (Jsonify (JDict [(u "message", JStr (u "Logout successful"))]) 200)
        | NotLoggedOut error => ret (Jsonify (error_body error) 400)
        end
  | _ => ret (Jsonify (error_body (u "No valid session token provided")) 400)
  end.

(** A call on the state of [/process-pdf], in a state that holds the
    accounts too. *)
Definition on_state {A} (m : prog state A) : prog (accounts * state) A :=
  fun s => let (o, s') := m (snd s) in (o, (fst s, s')).

(** [/process-pdf] as it is registered: [process_pdf] under
    [login_required], with [request.user['user_id']] as the user. *)
Definition process_pdf_route (m : moment) (authorization : option str)
    (file : option file_storage) (difficulty_level : option str)
  : prog (accounts * state) response :=
  login_required m
    (fun user =>
       on_state (process_pdf w {| files_file := file;
                                  form_difficulty_level := difficulty_level;
                                  request_user_id := cu_user_id user |}))
    authorization.

End Operations.

End Auth.

(** * app.py: the routes that give back what was stored *)

Module Retrieval.

Import CloudStorage Database Py App.

(** What these routes answer: [jsonify(body), status], [redirect(url)]
    or [send_file(path, mimetype=...)]. *)
Inductive served : Type :=
| Answer (body : json) (status : Z)
| Redirect (location : str)
| SendFile (path mimetype : str).

Section Routes.
Context (w : world).

Definition gcs_available : bool :=
  bool_decide (is_Some (get_storage_client (store w))).

(** [redirect(signed_url)] inside [if signed_url:]. *)
Definition redirect_to (signed_url : option str) : option served :=
  match signed_url with
  | Some ((_ :: _) as url) => Some (Redirect url)
  | _ => None
  end.

(** ** /pdf/<pdf_name>/image/<page_num> *)

(** The loop over [possible_paths] of [get_pdf_image]; [None] when it
    ends without a [return]. *)
Fixpoint image_from_local (gcs_path : str) (gcs_exists : bool)
    (possible_paths : list str) : prog state (option served) :=
  match possible_paths with
  | [] => ret None
  | image_path :: rest =>
      if os_path_exists w image_path then
        let! uploaded :=
          if gcs_available && negb gcs_exists then
            try_catch
              (let! result :=
                 lift (upload_from_filename (store w) image_path gcs_path
                         (DEFAULT_BUCKET_NAME (store w)) (Some (u "image/jpeg"))) in
               match result with
               | Some (_ :: _) =>
                   let! signed_url :=
                     lift (generate_signed_url (store w) gcs_path
                             (DEFAULT_BUCKET_NAME (store w)) 30) in
                   ret (redirect_to signed_url)
               | _ => ret None
               end)
              (fun _ => ret None)
          else ret None in
        match uploaded with
        | Some answer => ret (Some answer)
        | None => ret (Some (SendFile image_path (u "image/jpeg")))
        end
      else image_from_local gcs_path gcs_exists rest
  end.

Definition get_pdf_image (pdf_name : str) (page_num : Z) : prog state served :=
  let bucket := DEFAULT_BUCKET_NAME (store w) in
  try_catch
    (let gcs_path :=
       GCS_IMAGE_PREFIX ++ pdf_name ++ u "/page_" ++ str_of_Z page_num ++ u ".jpg" in
     let! gcs_exists :=
       if gcs_available then lift (check_if_file_exists (store w) gcs_path bucket)
       else ret false in
     let! remote :=
       if gcs_available && gcs_exists then
         try_catch
           (let! signed_url :=
              lift (generate_signed_url (store w) gcs_path bucket 30) in
            ret (redirect_to signed_url))
           (fun _ => ret None)
       else ret None in
     match remote with
     | Some answer => ret answer
     | None =>
         let image_files :=
           os_path_join (os_path_join UPLOAD_FOLDER pdf_name) (u "image_files") in
         let possible_paths :=
           [ os_path_join image_files
               (pdf_name ++ u "_page_" ++ str_of_Z page_num ++ u ".jpg");
             os_path_join image_files
               (u "page_" ++ str_of_Z page_num ++ u ".jpg") ] in
         let! local := image_from_local gcs_path gcs_exists possible_paths in
         match local with
         | Some answer => ret answer
         | None =>
             let! generic :=
               if gcs_available then
                 let generic_path :=
                   GCS_IMAGE_PREFIX ++ pdf_name ++ u "/page_"
                   ++ str_of_Z page_num ++ u ".jpg" in
                 let! found :=
                   lift (check_if_file_exists (store w) generic_path bucket) in
                 if found && negb (bool_decide (generic_path = gcs_path)) then
                   let! signed_url :=
                     lift (generate_signed_url (store w) generic_path bucket 30) in
                   ret (redirect_to signed_url)
                 else ret None
               else ret None in
             match generic with
             | Some answer => ret answer
             | None => ret (Answer (error_body (u "Image file not found")) 404)
             end
         end
     end)
    (fun e =>
       ret (Answer (error_body (u "Error serving image: " ++ exn_msg e)) 500)).

(** ** /pdf/<pdf_name>/audio/<page_num> *)

Section Audio.
Context (os_path_getsize : str -> Z).

(** The loop over [possible_paths] of [get_pdf_audio]: a file of size
    0 is passed over. *)
Fixpoint audio_from_local (gcs_path : str) (gcs_exists : bool)
    (possible_paths : list str) : prog state (option served) :=
  match possible_paths with
  | [] => ret None
  | audio_path :: rest =>
      if os_path_exists w audio_path then
        if os_path_getsize audio_path =? 0 then
          audio_from_local gcs_path gcs_exists rest
        else
          let! uploaded :=
            if gcs_available && negb gcs_exists then
              try_catch
                (let! result :=
                   lift (upload_from_filename (store w) audio_path gcs_path
                           (DEFAULT_BUCKET_NAME (store w)) (Some (u "audio/mpeg"))) in
                 match result with
                 | Some (_ :: _) =>
                     let! signed_url :=
                       lift (generate_signed_url (store w) gcs_path
                               (DEFAULT_BUCKET_NAME (store w)) 30) in
                     ret (redirect_to signed_url)
                 | _ => ret None
                 end)
                (fun _ => ret None)
            else ret None in
          match uploaded with
          | Some answer => ret (Some answer)
          | None => ret (Some (SendFile audio_path (u "audio/mpeg")))
          end
      else audio_from_local gcs_path gcs_exists rest
  end.

(** The audio is made again from the stored explanation by the steps
    of [/process-pdf] ([synthesize]); whatever comes of it, the answer
    of this request is the 404. *)
Definition get_pdf_audio (pdf_name : str) (page_num : Z) : prog state served :=
  let bucket := DEFAULT_BUCKET_NAME (store w) in
  try_catch
    (let gcs_path :=
       GCS_AUDIO_PREFIX ++ pdf_name ++ u "/page_" ++ str_of_Z page_num ++ u ".mp3" in
     let! gcs_exists :=
       if gcs_available then lift (check_if_file_exists (store w) gcs_path bucket)
       else ret false in
     let! remote :=
       if gcs_available && gcs_exists then
         let! signed_url :=
           lift (generate_signed_url (store w) gcs_path bucket 30) in
         ret (redirect_to signed_url)
       else ret None in
     match remote with
     | Some answer => ret answer
     | None =>
         let audio_files :=
           os_path_join (os_path_join UPLOAD_FOLDER pdf_name) (u "audio_files") in
         let possible_paths :=
           [ os_path_join audio_files
               (pdf_name ++ u "_page_" ++ str_of_Z page_num ++ u ".mp3");
             os_path_join audio_files
               (u "page_" ++ str_of_Z page_num ++ u ".mp3");
             os_path_join audio_files
               (item 0 (split (u "_") pdf_name) ++ u "_page_"
                ++ str_of_Z page_num ++ u ".mp3") ] in
         let! local := audio_from_local gcs_path gcs_exists possible_paths in
         match local with
         | Some answer => ret answer
         | None =>
             let text_path :=
               os_path_join
                 (os_path_join (os_path_join UPLOAD_FOLDER pdf_name) (u "text_files"))
                 (pdf_name ++ u "_page_" ++ str_of_Z page_num ++ u ".md") in
             (if os_path_exists w text_path then
                best_effort
                  (let! explanation := lift (read_text w text_path) in
                   synthesize w pdf_name page_num explanation)
              else ret tt) ;;;
             ret (Answer
                    (error_body
                       (u "Audio file not found and could not be generated")) 404)
         end
     end)
    (fun e =>
       ret (Answer (error_body (u "Error serving audio: " ++ exn_msg e)) 500)).

End Audio.

(** ** /use-existing/<pdf_name> *)

Section UseExisting.
Context (float_is_zero : str -> bool).

(** [bool(v)] for a value of [json.loads]; [float_is_zero] tells
    whether the literal of a number that is not an integer reads as
    zero. *)
Definition truthy (v : json) : bool :=
  match v with
  | JNull => false
  | JBool b => b
  | JInt z => negb (z =? 0)
  | JFloat literal => negb (float_is_zero literal)
  | JStr [] => false
  | JStr (_ :: _) => true
  | JList [] => false
  | JList (_ :: _) => true
  | JDict [] => false
  | JDict (_ :: _) => true
  end.

(** [max(l)] of a list that is not empty. *)
Definition max_of (first : Z) (rest : list Z) : Z := foldr Z.max first rest.

(** [metadata], read from the remote tier, else from the local one;
    the route makes no other use of it. *)
Definition load_metadata (pdf_name : str) : prog state json :=
  let bucket := DEFAULT_BUCKET_NAME (store w) in
  let gcs_metadata_path := GCS_PDF_PREFIX ++ pdf_name ++ u "/metadata.json" in
  let! metadata :=
    if gcs_available then
      try_catch
        (let! found := lift (check_if_file_exists (store w) gcs_metadata_path bucket) in
         if (found : bool) then
           let! metadata_content :=
             lift (download_as_string (store w) gcs_metadata_path bucket) in
           match metadata_content with
           | Some ((_ :: _) as data) =>
               match json_loads_bytes w data with
               | Parsed metadata => ret metadata
               | Malformed msg => raise (mk_exn JSONDecodeError msg)
               end
           | _ => ret (JDict [])
           end
         else ret (JDict []))
        (fun _ => ret (JDict []))
    else ret (JDict []) in
  if negb (truthy metadata) then
    let local_metadata_path :=
      os_path_join (os_path_join UPLOAD_FOLDER pdf_name) (u "metadata.json") in
    if os_path_exists w local_metadata_path then
      match load_json_file w local_metadata_path with
      | Malformed msg => raise (mk_exn JSONDecodeError msg)
      | Parsed metadata =>
          (if gcs_available then
             best_effort
               (lift (upload_file (store w) (Text (json_dumps w metadata))
                        gcs_metadata_path bucket (Some (u "application/json"))))
           else ret tt) ;;;
          ret metadata
      end
    else ret metadata
  else ret metadata.

(** The number of a page file of the local tier. *)
Definition local_page_number (file : str) : outcome Z :=
  match split (u "_page_") file with
  | _ :: x :: _ => py_int w (item 0 (split (u ".") x))
  | _ => Raises (mk_exn OtherException (u "list index out of range"))
  end.

(** [total_pages]: from the catalog, else from the images of the
    remote tier, else from those of the local tier; 0 when none
    tells. *)
Definition count_pages (pdf_name : str) : prog state Z :=
  let bucket := DEFAULT_BUCKET_NAME (store w) in
  let! pdf_info := gets (fun s => get_pdf_by_path pdf_name (db s)) in
  let total_pages :=
    match pdf_info with
    | Some row => page_count row
    | None => 0
    end in
  let! total_pages :=
    if (total_pages =? 0) && gcs_available then
      try_catch
        (let! image_files :=
           lift (list_files_with_prefix (store w)
                   (GCS_IMAGE_PREFIX ++ pdf_name ++ u "/") bucket) in
         let page_numbers :=
           omap (search_page_number w (u "page_(\d+)\.jpg$")) image_files in
         match page_numbers with
         | [] => ret total_pages
         | n :: rest => ret (max_of n rest)
         end)
        (fun _ => ret total_pages)
    else ret total_pages in
  if total_pages =? 0 then
    let image_folder :=
      os_path_join (os_path_join UPLOAD_FOLDER pdf_name) (u "image_files") in
    if os_path_exists w image_folder then
      let page_files :=
        filter (fun file => endswith file (u ".jpg") && contains (u "_page_") file
                            = true)
          (os_listdir w image_folder) in
      let! page_files := lift (sort_by_key local_page_number page_files) in
      match last page_files with
      | Some file => lift (local_page_number file)
      | None => ret total_pages
      end
    else ret total_pages
  else ret total_pages.

(** The explanation of a page: the stored text of the remote tier,
    else the file of the local tier (copied to the remote tier), else
    the empty text. *)
Definition stored_explanation (pdf_name : str) (page_num : Z) : prog state str :=
  let bucket := DEFAULT_BUCKET_NAME (store w) in
  let gcs_text_path :=
    GCS_TEXT_PREFIX ++ pdf_name ++ u "/page_" ++ str_of_Z page_num ++ u ".md" in
  let! explanation :=
    if gcs_available then
      try_catch
        (let! found := lift (check_if_file_exists (store w) gcs_text_path bucket) in
         if (found : bool) then
           let! explanation_bytes :=
             lift (download_as_string (store w) gcs_text_path bucket) in
           match explanation_bytes with
           | Some ((_ :: _) as data) => lift (decode_utf8 w data)
           | _ => ret []
           end
         else ret [])
        (fun _ => ret [])
    else ret [] in
  match explanation with
  | [] =>
      let local_text_path :=
        os_path_join
          (os_path_join (os_path_join UPLOAD_FOLDER pdf_name) (u "text_files"))
          (pdf_name ++ u "_page_" ++ str_of_Z page_num ++ u ".md") in
      if os_path_exists w local_text_path then
        let! explanation := lift (read_text w local_text_path) in
        (if gcs_available then
           best_effort
             (lift (upload_file (store w) (Text explanation) gcs_text_path bucket
                      (Some (u "text/markdown"))))
         else ret tt) ;;;
        ret explanation
      else ret explanation
  | _ :: _ => ret explanation
  end.

(** The image or the audio of the first page, in base64: the object of
    the remote tier, else the file of the local tier (copied to the
    remote tier), else the empty text.  The route has this block twice,
    once for [image_files] and [.jpg], once for [audio_files] and
    [.mp3]. *)
Definition stored_base64 (gcs_path local_path content_type : str)
  : prog state str :=
  let bucket := DEFAULT_BUCKET_NAME (store w) in
  let! data :=
    if gcs_available then
      try_catch
        (let! found := lift (check_if_file_exists (store w) gcs_path bucket) in
         if (found : bool) then
           let! file_bytes := lift (download_as_string (store w) gcs_path bucket) in
           match file_bytes with
           | Some ((_ :: _) as file_bytes) => ret (b64encode w file_bytes)
           | _ => ret []
           end
         else ret [])
        (fun _ => ret [])
    else ret [] in
  match data with
  | [] =>
      if os_path_exists w local_path then
        let file_bytes := read_bytes w local_path in
        let data := b64encode w file_bytes in
        (if gcs_available then
           best_effort
             (lift (upload_file (store w) (Binary file_bytes) gcs_path bucket
                      (Some content_type)))
         else ret tt) ;;;
        ret data
      else ret data
  | _ :: _ => ret data
  end.

(** One element of [pages]. *)
Definition page_entry (pdf_name : str) (page_num : Z)
    (image_data explanation audio_data : str) : json :=
  JDict [ (u "page_number", JInt page_num);
          (u "image", JStr image_data);
          (u "explanation", JStr explanation);
          (u "audio", JStr audio_data);
          (u "audio_url",
           JStr (u "/pdf/" ++ pdf_name ++ u "/audio/" ++ str_of_Z page_num));
          (u "image_url",
           JStr (u "/pdf/" ++ pdf_name ++ u "/image/" ++ str_of_Z page_num)) ].

(** The body of the loop over the pages. *)
Definition load_page (pdf_name : str) (page_num : Z) : prog state (list json) :=
  let! explanation := stored_explanation pdf_name page_num in
  let page := u "/page_" ++ str_of_Z page_num in
  let local_name := pdf_name ++ u "_page_" ++ str_of_Z page_num in
  let! image_data :=
    if page_num =? 1 then
      stored_base64 (GCS_IMAGE_PREFIX ++ pdf_name ++ page ++ u ".jpg")
        (os_path_join
           (os_path_join (os_path_join UPLOAD_FOLDER pdf_name) (u "image_files"))
           (local_name ++ u ".jpg"))
        (u "image/jpeg")
    else ret [] in
  let! audio_data :=
    if page_num =? 1 then
      stored_base64 (GCS_AUDIO_PREFIX ++ pdf_name ++ page ++ u ".mp3")
        (os_path_join
           (os_path_join (os_path_join UPLOAD_FOLDER pdf_name) (u "audio_files"))
           (local_name ++ u ".mp3"))
        (u "audio/mpeg")
    else ret [] in
  ret [page_entry pdf_name page_num image_data explanation audio_data].

Definition use_existing_pdf (pdf_name : str) : prog state response :=
  try_catch
    (load_metadata pdf_name ;;;
     let! total_pages := count_pages pdf_name in
     if total_pages =? 0 then
       ret (Jsonify (error_body (u "Could not determine page count for PDF")) 404)
     else
       let! pages := gather (load_page pdf_name) (seqZ 1 total_pages) in
       ret (Jsonify (JDict [ (u "total_pages", JInt total_pages);
                             (u "pdf_name", JStr pdf_name);
                             (u "pages", JList pages) ]) 200))
    (fun e => ret (Jsonify (error_body (exn_msg e)) 500)).

End UseExisting.

End Routes.

End Retrieval.

(** * Vocabulary of the further properties *)

Module Further.

Import CloudStorage Database Py App Spec Examples Auth.

(** The characters at the places [from], ..., [from + n - 1] of [s],
    where there are any, are stars. *)
Definition stars_at (from n : nat) (s : str) : Prop :=
  forall j c, (from <= j < from + n)%nat -> s !! j = Some c -> c = star.

(** The upload passes the three checks at the head of [process_pdf]. *)
Definition accepted (req : request) : bool :=
  match files_file req with
  | None => false
  | Some file =>
      negb (bool_decide (filename file = [])) && endswith (filename file) (u ".pdf")
  end.

(** The steps of [process_pdf] on the local tier that no [try]
    guards, for an upload to be ingested under [pdf_id]: the temporary
    file is made, the upload is saved to it, the folder of the PDF is
    made, and the size of the file is read. *)
Definition kept_for_ingestion (w : world) (file : file_storage) (pdf_id : str)
  : outcome Z :=
  match NamedTemporaryFile w with
  | Raises e => Raises e
  | Returns temp_pdf_path =>
      match file_save w temp_pdf_path (stream file) with
      | Raises e => Raises e
      | Returns _ =>
          match os_makedirs w (os_path_join UPLOAD_FOLDER pdf_id) with
          | Raises e => Raises e
          | Returns _ => getsize w temp_pdf_path
          end
      end
  end.

(** The key an upload is ingested under. *)
Definition key_of (w : world) (file : file_storage) : str :=
  clean_name w (splitext_root (os_path_basename (filename file)))
  ++ u "_" ++ str_of_Z (time_time w).

(** One of the local steps of [process_pdf] that no [try] guards
    raises [e], on the upload [file]. *)
Definition local_step_raises (w : world) (file : file_storage) (e : exn) : Prop :=
  NamedTemporaryFile w = Raises e
  \/ exists temp_pdf_path,
       NamedTemporaryFile w = Returns temp_pdf_path
       /\ (file_save w temp_pdf_path (stream file) = Raises e
           \/ os_remove w temp_pdf_path = Raises e
           \/ os_makedirs w (os_path_join UPLOAD_FOLDER (key_of w file)) = Raises e
           \/ getsize w temp_pdf_path = Raises e).

(** A character of a [LIKE] pattern other than [%] against a character
    of the text. *)
Definition like_char (p c : N) : Prop :=
  p = underscore \/ ascii_lower p = ascii_lower c.

(** The keys the pattern [base_name + '_%'] stands for when the base
    name holds no [%]: the base name, character by character as [LIKE]
    compares them, and at least one character more. *)
Definition version_of (base_name path : str) : Prop :=
  exists head c tail, path = head ++ c :: tail /\ Forall2 like_char base_name head.

(** What the schema and the code together keep of the catalog: no hash
    and no key twice in [pdfs], no key above the counter, no pair of
    user and PDF twice in [user_pdfs], and every link to a row of
    [pdfs] (the foreign key SQLite is not asked to enforce). *)
Record sound (d : database) : Prop := {
  sound_hashes : unique_hashes d;
  sound_links : unique_links d;
  sound_keys : NoDup (map pdf_id (pdfs d));
  sound_counter : forall r, r ∈ pdfs d -> pdf_id r <= pdfs_seq d;
  sound_foreign :
    forall l, l ∈ user_pdfs d -> exists r, r ∈ pdfs d /\ pdf_id r = link_pdf_id l
}.

(** A call that leaves the state as it finds it. *)
Definition reads {A} (m : prog state A) : Prop := forall s, snd (m s) = s.

(** A page of the answer of [/use-existing] for the page number [i]:
    only the first page carries its image and audio. *)
Definition replayed_page (pdf_name : str) (i : Z) (page : json) : Prop :=
  exists image_data explanation audio_data,
    page = Retrieval.page_entry pdf_name i image_data explanation audio_data
    /\ (i <> 1 -> image_data = [] /\ audio_data = []).

(** *** The accounts *)

(** The user name or the e-mail address is that of a row of [users]. *)
Definition taken (username email : str) (a : accounts) : Prop :=
  exists r, r ∈ users a /\ (Auth.username r = username \/ Auth.email r = email).

(** What the schema keeps of [users] and [sessions]: no user name, no
    e-mail address, no key and no token twice, and the keys of [users]
    positive and not above the counter. *)
Record accounts_sound (a : accounts) : Prop := {
  sound_usernames : NoDup (map Auth.username (users a));
  sound_emails : NoDup (map Auth.email (users a));
  sound_user_ids : NoDup (map users_user_id (users a));
  sound_users_seq : 0 <= users_seq a;
  sound_users_counter : forall r, r ∈ users a -> 0 < users_user_id r <= users_seq a;
  sound_tokens : NoDup (map token (sessions a))
}.

(** The session of a token that has not expired at [m]. *)
Definition live_session (m : moment) (session_token : str) (s : sessions_row) : Prop :=
  token s = session_token /\ text_lt (datetime_now m) (expires_at s) = true.

(** *** More worlds *)

(** A world with another remote tier, rasteriser and local tier. *)
Definition with_outside (w : world) (g : gcs)
    (rasteriser : bytes -> outcome (list image)) (path_exists : str -> bool)
  : world := {|
  store := g;
  CURRENT_TIMESTAMP := CURRENT_TIMESTAMP w;
  time_time := time_time w;
  time_strftime := time_strftime w;
  sha256_hexdigest := sha256_hexdigest w;
  b64encode := b64encode w;
  b64decode := b64decode w;
  json_loads := json_loads w;
  json_loads_bytes := json_loads_bytes w;
  json_dumps := json_dumps w;
  decode_utf8 := decode_utf8 w;
  str_lower := str_lower w;
  re_word := re_word w;
  search_page_number := search_page_number w;
  py_int := py_int w;
  convert_from_path := rasteriser;
  jpeg := jpeg w;
  Image_open := Image_open w;
  generate_content_text := generate_content_text w;
  requests_post_json := requests_post_json w;
  os_path_exists := path_exists;
  os_listdir := os_listdir w;
  read_text := read_text w;
  read_bytes := read_bytes w;
  load_json_file := load_json_file w;
  NamedTemporaryFile := NamedTemporaryFile w;
  file_save := file_save w;
  os_remove := os_remove w;
  os_makedirs := os_makedirs w;
  getsize := getsize w;
  image_save := image_save w;
  write_text := write_text w;
  write_bytes := write_bytes w
|}.

Definition corrupt_pdf : exn :=
  mk_exn OtherException (u "Unable to get page count.").

(** The rasteriser cannot read the upload. *)
Definition unreadable : world :=
  with_outside (demo explains) gcs_absent (fun _ => Raises corrupt_pdf)
    (os_path_exists (demo explains)).

(** A remote tier that holds the original of [notes_1] and nothing
    else of it. *)
Definition gcs_with_original : gcs := {|
  GOOGLE_APPLICATION_CREDENTIALS := Some (u "credentials.json");
  credentials_file_exists := true;
  from_service_account_json := Returns tt;
  DEFAULT_BUCKET_NAME := u "studybuddy-pdf-storage";
  blob_upload_from_string := fun _ _ _ _ => Returns tt;
  blob_upload_from_file := fun _ _ _ _ => Returns tt;
  blob_upload_from_filename := fun _ _ _ => Returns tt;
  blob_exists := fun _ path =>
    Returns (bool_decide (path = u "pdfs/notes_1/original.pdf"));
  blob_generate_signed_url := fun _ path _ =>
    Returns (u "https://storage.googleapis.com/" ++ path);
  blob_download_to_filename := fun _ _ _ => Returns tt;
  blob_download_as_bytes := fun _ _ => Returns [];
  bucket_list_blobs := fun _ _ => Returns [];
  blob_delete := fun _ _ => Returns tt
|}.

(** After a redeployment: the local tier is empty. *)
Definition redeployed : world :=
  with_outside (demo explains) gcs_with_original
    (convert_from_path (demo explains)) (fun _ => false).

(** [str.encode()] on texts of ASCII. *)
Definition ascii_encode (s : str) : outcome bytes := Returns s.

Definition monday : moment := {|
  uuid4 := u "0f8fad5b-d9cb-469f-a165-70867728950e";
  now_plus_7_days := u "2025-01-13 09:00:00.000001";
  now_plus_7_days_isoformat := u "2025-01-13T09:00:00.000001";
  datetime_now := u "2025-01-06 09:00:00";
  current_timestamp := u "2025-01-06 09:00:00"
|}.

Definition tuesday : moment := {|
  uuid4 := u "7c9e6679-7425-40de-944b-e07fc1f90ae7";
  now_plus_7_days := u "2025-01-14 09:00:00.000001";
  now_plus_7_days_isoformat := u "2025-01-14T09:00:00.000001";
  datetime_now := u "2025-01-07 09:00:00";
  current_timestamp := u "2025-01-07 09:00:00"
|}.

(** Two weeks later. *)
Definition later : moment := {|
  uuid4 := u "e02fd0e4-00fd-490a-a01a-7a8b5c1f2d3e";
  now_plus_7_days := u "2025-01-27 09:00:00.000001";
  now_plus_7_days_isoformat := u "2025-01-27T09:00:00.000001";
  datetime_now := u "2025-01-20 09:00:00";
  current_timestamp := u "2025-01-20 09:00:00"
|}.

(** The accounts after ada has registered and logged in on monday. *)
Definition ada_logged_in : accounts := {|
  users :=
    [ {| users_user_id := 1; username := u "ada"; email := u "ada@example.org";
         password_hash := u "aa"; users_created_at := u "2025-01-06 09:00:00" |} ];
  users_seq := 1;
  sessions :=
    [ {| session_id := 1; session_user_id := 1;
         token := u "0f8fad5b-d9cb-469f-a165-70867728950e";
         session_created_at := u "2025-01-06 09:00:00";
         expires_at := u "2025-01-13 09:00:00.000001" |} ];
  sessions_seq := 1
|}.

End Further.

(** * Properties *)

Import CloudStorage Database Py App Spec Examples.

(** ** The content store *)

Section ContentStore.
Context (w : gcs).

Ltac client := destruct (get_storage_client w) as [[]|].
Ltac settle :=
  split; [ unfold returned; eauto
         | intros [?|[? ?]]; try discriminate; try congruence ].

Lemma upload_file_returns content path bucket content_type :
  returned (upload_file w content path bucket content_type).
Proof.
  unfold upload_file, returned. client; [|eauto].
  destruct content, content_type as [[|? ?]|]; simpl;
    repeat match goal with
           | |- context [if ?b then _ else _] => destruct b
           | |- context [blob_upload_from_string ?a ?b ?c ?d ?e] =>
               destruct (blob_upload_from_string a b c d e)
           end; simpl; eauto.
Qed.

Lemma upload_from_filename_returns local path bucket content_type :
  returned (upload_from_filename w local path bucket content_type).
Proof.
  unfold upload_from_filename, returned. client; [|eauto].
  destruct (blob_upload_from_filename w bucket path local); simpl; eauto.
Qed.

Lemma check_if_file_exists_returns path bucket :
  returned (check_if_file_exists w path bucket).
Proof.
  unfold check_if_file_exists, returned. client; [|eauto].
  destruct (blob_exists w bucket path); simpl; eauto.
Qed.

Lemma download_as_string_returns path bucket :
  returned (download_as_string w path bucket).
Proof.
  unfold download_as_string, returned. client; [|eauto].
  destruct (blob_download_as_bytes w bucket path); simpl; eauto.
Qed.

Lemma list_files_with_prefix_returns prefix bucket :
  returned (list_files_with_prefix w prefix bucket).
Proof.
  unfold list_files_with_prefix, returned. client; [|eauto].
  destruct (bucket_list_blobs w bucket prefix); simpl; eauto.
Qed.

End ContentStore.

(** [delete_file] has no [try] either: what the existence probe raises
    reaches the caller. *)
Lemma delete_file_lets_through (w : gcs) (path bucket : str) (e : exn) :
  ~ unavailable w ->
  blob_exists w bucket path = Raises e ->
  delete_file w path bucket = Raises e.
Proof.
  unfold unavailable, delete_file. intros Hclient Hprobe.
  destruct (get_storage_client w); [|done]. by rewrite Hprobe.
Qed.

(** C4, as the design document has it, would make [download_file] return
    a failure value when the remote download raises.  It does not: with
    a client at hand and the download raising, the exception reaches the
    caller. *)
Lemma download_file_raises_on_outage :
  download_file gcs_outage GCS_DB_PATH LOCAL_DB_PATH
    (DEFAULT_BUCKET_NAME gcs_outage) = Raises unavailable_503
  /\ ~ returned (download_file gcs_outage GCS_DB_PATH LOCAL_DB_PATH
                   (DEFAULT_BUCKET_NAME gcs_outage)).
Proof.
  split; [reflexivity|]. intros [v Hv]. discriminate Hv.
Qed.

(** C4, amended: whenever the remote tier fails (no client, or the
    storage operation raises), [upload_file], [upload_from_file],
    [upload_from_filename], [download_as_string] and
    [generate_signed_url] return [None], [check_if_file_exists] returns
    [False] and [list_files_with_prefix] returns the empty list, and
    none of them ever raises; [download_file] returns [None] when there
    is no client, and otherwise lets the exception of the download
    through. *)
Theorem content_store_degrades (w : gcs) (path bucket : str) :
  (forall data content_type,
      degrades (upload_file w data path bucket content_type) None
        (unavailable w \/
         raised (blob_upload_from_string w bucket path data content_type)))
  /\ (forall file content_type,
      degrades (upload_from_file w file path bucket content_type) None
        (unavailable w \/
         raised (blob_upload_from_file w bucket path file content_type)))
  /\ (forall local content_type,
      degrades (upload_from_filename w local path bucket content_type) None
        (unavailable w \/ raised (blob_upload_from_filename w bucket path local)))
  /\ degrades (download_as_string w path bucket) None
       (unavailable w \/ raised (blob_download_as_bytes w bucket path))
  /\ (forall minutes,
      degrades (generate_signed_url w path bucket minutes) None
        (unavailable w \/ raised (blob_exists w bucket path) \/
         raised (blob_generate_signed_url w bucket path minutes)))
  /\ degrades (check_if_file_exists w path bucket) false
       (unavailable w \/ raised (blob_exists w bucket path))
  /\ degrades (list_files_with_prefix w path bucket) []
       (unavailable w \/ raised (bucket_list_blobs w bucket path))
  /\ (forall local,
      (unavailable w -> download_file w path local bucket = Returns None)
      /\ (forall e, ~ unavailable w ->
            blob_download_to_filename w bucket path local = Raises e ->
            download_file w path local bucket = Raises e)).
Proof.
  unfold degrades, unavailable, raised.
  repeat match goal with
         | |- _ /\ _ => split
         | |- forall _, _ => intro
         end.
  - apply upload_file_returns.
  - unfold upload_file. destruct (get_storage_client w) as [[]|]; [|done].
    destruct H as [H|[e H]]; [done|].
    destruct data, content_type as [[|? ?]|]; simpl;
      repeat match goal with
             | |- context [if ?b then _ else _] => destruct b
             end; rewrite H; done.
  - unfold upload_from_file, returned.
    destruct (get_storage_client w) as [[]|]; [|eauto].
    destruct (blob_upload_from_file w bucket path file content_type); simpl; eauto.
  - unfold upload_from_file. destruct (get_storage_client w) as [[]|]; [|done].
    destruct H as [H|[e H]]; [done|]. by rewrite H.
  - apply upload_from_filename_returns.
  - unfold upload_from_filename. destruct (get_storage_client w) as [[]|]; [|done].
    destruct H as [H|[e H]]; [done|]. by rewrite H.
  - apply download_as_string_returns.
  - unfold download_as_string. destruct (get_storage_client w) as [[]|]; [|done].
    destruct H as [H|[e H]]; [done|]. by rewrite H.
  - unfold generate_signed_url, returned.
    destruct (get_storage_client w) as [[]|]; [|eauto].
    destruct (blob_exists w bucket path) as [[]|]; simpl; eauto.
    destruct (blob_generate_signed_url w bucket path minutes); simpl; eauto.
  - unfold generate_signed_url. destruct (get_storage_client w) as [[]|]; [|done].
    destruct H as [H|[[e H]|[e H]]]; [done| by rewrite H |].
    destruct (blob_exists w bucket path) as [[]|]; simpl; [|done..].
    by rewrite H.
  - apply check_if_file_exists_returns.
  - unfold check_if_file_exists. destruct (get_storage_client w) as [[]|]; [|done].
    destruct H as [H|[e H]]; [done|]. by rewrite H.
  - apply list_files_with_prefix_returns.
  - unfold list_files_with_prefix. destruct (get_storage_client w) as [[]|]; [|done].
    destruct H as [H|[e H]]; [done|]. by rewrite H.
  - unfold download_file. by rewrite H.
  - unfold download_file. destruct (get_storage_client w) as [[]|]; [|done].
    by rewrite H0.
Qed.

Lemma content_store_degrades_at_outage :
  upload_file gcs_outage (Text (u "# Page 1")) (u "text/notes_1/page_1.md")
    (u "studybuddy-pdf-storage") (Some (u "text/markdown")) = Returns None
  /\ download_file gcs_absent GCS_DB_PATH LOCAL_DB_PATH
       (u "studybuddy-pdf-storage") = Returns None.
Proof.
  split.
  - destruct (content_store_degrades gcs_outage (u "text/notes_1/page_1.md")
                (u "studybuddy-pdf-storage")) as [H _].
    apply (H (Text (u "# Page 1")) (Some (u "text/markdown"))).
    right. exists unavailable_503. reflexivity.
  - destruct (content_store_degrades gcs_absent GCS_DB_PATH
                (u "studybuddy-pdf-storage")) as (_ & _ & _ & _ & _ & _ & _ & H).
    apply (H LOCAL_DB_PATH). reflexivity.
Defined.

(** ** The catalog *)

Section Catalog.
Context (w : gcs) (now : str).

Lemma sync_db_to_cloud_returns : returned (sync_db_to_cloud w).
Proof.
  unfold sync_db_to_cloud, returned.
  destruct (get_storage_client w); simpl; [|eauto].
  destruct (upload_from_filename w _ _ _ _) as [[[|? ?]|]|]; simpl; eauto.
Qed.

Lemma existsb_find_none {A} (f : A -> bool) (l : list A) :
  find f l = None -> existsb f l = false.
Proof.
  induction l as [|x l IH]; simpl; [done|].
  destruct (f x); [done|]. exact IH.
Qed.

Lemma find_ext {A} (f g : A -> bool) (l : list A) :
  (forall x, f x = g x) -> find f l = find g l.
Proof.
  intros Hfg. induction l as [|x l IH]; simpl; [done|].
  rewrite Hfg, IH. done.
Qed.

Lemma find_app_none {A} (f : A -> bool) (l1 l2 : list A) :
  find f l1 = None -> find f (l1 ++ l2) = find f l2.
Proof.
  induction l1 as [|x l1 IH]; simpl; [done|].
  destruct (f x); [done | exact IH].
Qed.

Lemma find_by_key {A K} `{EqDecision K} (key : A -> K) (l : list A) (row : A) :
  NoDup (map key l) -> row ∈ l ->
  find (fun r => bool_decide (key r = key row)) l = Some row.
Proof.
  induction l as [|x l IH]; simpl; intros Hnd Hin.
  - by apply elem_of_nil in Hin.
  - apply NoDup_cons in Hnd as [Hx Hnd].
    apply elem_of_cons in Hin as [->|Hin].
    + by rewrite bool_decide_eq_true_2.
    + rewrite bool_decide_eq_false_2; [by apply IH|].
      intros Heq. apply Hx. rewrite Heq. by apply list_elem_of_fmap_2.
Qed.

Lemma add_pdf_cases title path hash size pages d :
  (exists row, select_pdf_by_hash hash d = Some row
     /\ add_pdf w now title path hash size pages d = (Returns (pdf_id row), d))
  \/ (select_pdf_by_hash hash d = None
      /\ exists d',
         add_pdf w now title path hash size pages d = (Returns (pdfs_seq d + 1), d')
         /\ pdfs d' = pdfs d ++
              [ {| pdf_id := pdfs_seq d + 1; title := title; file_path := path;
                   pdf_hash := hash; file_size := size; page_count := pages;
                   created_at := now |} ]
         /\ user_pdfs d' = user_pdfs d /\ user_pdfs_seq d' = user_pdfs_seq d).
Proof.
  unfold add_pdf, add_pdf_after_select, bind, gets, ret.
  destruct (select_pdf_by_hash hash d) as [row|] eqn:Hsel.
  - left. eauto.
  - right. split; [done|].
    unfold insert_into_pdfs.
    rewrite (existsb_find_none _ _ Hsel).
    unfold lift. destruct sync_db_to_cloud_returns as [b ->].
    eexists. split; [reflexivity|]. done.
Qed.

Lemma associate_cases user pdf d :
  (exists row,
      find (fun r => bool_decide (user_id r = user) && bool_decide (link_pdf_id r = pdf))
        (user_pdfs d) = Some row
      /\ associate_pdf_with_user w now user pdf d = (Returns (id row), d))
  \/ (find (fun r => bool_decide (user_id r = user) && bool_decide (link_pdf_id r = pdf))
        (user_pdfs d) = None
      /\ exists d',
         associate_pdf_with_user w now user pdf d = (Returns (user_pdfs_seq d + 1), d')
         /\ user_pdfs d' = user_pdfs d ++
              [ {| id := user_pdfs_seq d + 1; user_id := user; link_pdf_id := pdf;
                   uploaded_at := now |} ]
         /\ pdfs d' = pdfs d /\ pdfs_seq d' = pdfs_seq d).
Proof.
  unfold associate_pdf_with_user, bind, gets, ret.
  match goal with |- context [find ?f ?l] => destruct (find f l) as [row|] eqn:Hsel end.
  - left. eauto.
  - right. split; [done|].
    unfold insert_into_user_pdfs, lift.
    destruct sync_db_to_cloud_returns as [b ->].
    eexists. split; [reflexivity|]. done.
Qed.

(** Whatever the links were, the call returns, leaves [pdfs] alone and
    the user is linked after it. *)
Lemma associate_links user pdf d :
  exists link_id d',
    associate_pdf_with_user w now user pdf d = (Returns link_id, d')
    /\ pdfs d' = pdfs d /\ pdfs_seq d' = pdfs_seq d
    /\ exists link,
         link ∈ user_pdfs d' /\ user_id link = user /\ link_pdf_id link = pdf.
Proof.
  destruct (associate_cases user pdf d)
    as [(link & Hfind & Hrun)|(_ & d' & Hrun & Hlinks & Hpdfs & Hseq)].
  - exists (id link), d. split_and!; try done.
    exists link. apply find_some in Hfind as [Hin Hmatch].
    apply andb_prop in Hmatch as [Hu Hp].
    apply bool_decide_eq_true_1 in Hu, Hp.
    by rewrite <- list_elem_of_In in Hin.
  - eexists _, d'. split_and!; try done.
    eexists. rewrite Hlinks.
    split; [apply elem_of_app; right; apply list_elem_of_here|]. done.
Qed.

End Catalog.

Lemma add_pdf_keeps_unique_hashes w now title path hash size pages d :
  unique_hashes d ->
  unique_hashes (snd (add_pdf w now title path hash size pages d)).
Proof.
  intros Hd.
  destruct (add_pdf_cases w now title path hash size pages d)
    as [(row & _ & ->)|(Hnone & d' & -> & Hpdfs & _)]; [done|].
  unfold unique_hashes. simpl. rewrite Hpdfs, map_app. simpl.
  apply NoDup_app. split; [done|]. split; [|apply NoDup_singleton].
  intros h Hin Hh. apply list_elem_of_singleton in Hh as ->.
  apply list_elem_of_fmap in Hin as (r & Hr & Hin).
  unfold select_pdf_by_hash in Hnone.
  apply list_elem_of_In in Hin.
  pose proof (find_none _ _ Hnone r Hin) as Hf.
  simpl in Hf. by rewrite bool_decide_eq_true_2 in Hf.
Qed.

(** The [INSERT] alone would end in the uniqueness violation. *)
Lemma insert_into_pdfs_duplicate now title path size pages d row :
  row ∈ pdfs d ->
  insert_into_pdfs now title path (pdf_hash row) size pages d
  = (Raises (mk_exn IntegrityError (u "UNIQUE constraint failed: pdfs.pdf_hash")), d).
Proof.
  intros Hrow. unfold insert_into_pdfs.
  replace (existsb _ (pdfs d)) with true; [done|].
  symmetry. apply existsb_exists. exists row.
  split; [by apply list_elem_of_In | by apply bool_decide_eq_true_2].
Qed.

(** C6, as the design document has it, fails at the race it names:
    the bytes of hash [aa] are unknown when the call selects, another
    upload of them is committed before the call inserts, and the call
    ends in the uniqueness violation, with the other upload's row in
    the catalog. *)
Lemma add_pdf_overtaken_raises :
  add_pdf_overtaken gcs_absent timestamp
    (add_pdf gcs_absent timestamp (u "notes") (u "notes_1700000001") (u "aa") 10 3)
    (u "notes") (u "notes_1700000000") (u "aa") 10 3 empty_db
  = (Raises (mk_exn IntegrityError (u "UNIQUE constraint failed: pdfs.pdf_hash")),
     {| pdfs := [ {| pdf_id := 1; title := u "notes";
                     file_path := u "notes_1700000001"; pdf_hash := u "aa";
                     file_size := 10; page_count := 3; created_at := timestamp |} ];
        pdfs_seq := 1; user_pdfs := []; user_pdfs_seq := 0 |}).
Proof. vm_compute. reflexivity. Qed.

(** C6, amended: when a row of [pdfs] carries the hash, [add_pdf]
    returns the id of that row, raises nothing and leaves the catalog as
    it was; a call that runs alone never ends in the uniqueness
    violation of its [INSERT], since the row is looked up first; and a
    call that finds no row, and is overtaken by another connection that
    commits a row with the hash before the call inserts, raises the
    uniqueness violation to its caller and leaves the catalog as the
    other connection left it: nothing in [add_pdf] catches it. *)
Theorem add_pdf_returns_existing w now title path size pages d row :
  unique_hashes d ->
  row ∈ pdfs d ->
  add_pdf w now title path (pdf_hash row) size pages d = (Returns (pdf_id row), d)
  /\ (forall hash d0, returned (fst (add_pdf w now title path hash size pages d0)))
  /\ (forall other hash d0 committed,
        select_pdf_by_hash hash d0 = None ->
        committed ∈ pdfs (snd (other d0)) ->
        pdf_hash committed = hash ->
        add_pdf_overtaken w now other title path hash size pages d0
        = (Raises (mk_exn IntegrityError
                     (u "UNIQUE constraint failed: pdfs.pdf_hash")),
           snd (other d0))).
Proof.
  intros Hd Hrow. split_and!.
  - unfold add_pdf, bind, gets, select_pdf_by_hash.
    by rewrite (find_by_key pdf_hash (pdfs d) row Hd Hrow).
  - intros hash d0. unfold returned.
    destruct (add_pdf_cases w now title path hash size pages d0)
      as [(r & _ & ->)|(_ & d' & -> & _)]; simpl; eauto.
  - intros other hash d0 committed Hnone Hin <-.
    unfold add_pdf_overtaken. rewrite Hnone. unfold add_pdf_after_select.
    unfold bind at 1.
    by rewrite (insert_into_pdfs_duplicate now title path size pages _ committed Hin).
Qed.

Lemma add_pdf_returns_existing_at_two_uploads :
  add_pdf gcs_absent timestamp (u "notes") (u "notes_1700000500") (u "aa") 10 3
    two_uploads = (Returns 1, two_uploads).
Proof.
  refine (proj1 (add_pdf_returns_existing gcs_absent timestamp (u "notes")
                   (u "notes_1700000500") 10 3 two_uploads
                   {| pdf_id := 1; title := u "notes";
                      file_path := u "notes_1700000000"; pdf_hash := u "aa";
                      file_size := 10; page_count := 3;
                      created_at := timestamp |} _ _)).
  - apply (bool_decide_unpack _). vm_compute. exact I.
  - apply list_elem_of_here.
Defined.

Lemma associate_keeps_unique_links w now user pdf d :
  unique_links d ->
  unique_links (snd (associate_pdf_with_user w now user pdf d)).
Proof.
  intros Hd.
  destruct (associate_cases w now user pdf d)
    as [(row & _ & ->)|(Hnone & d' & -> & Hlinks & _)]; [done|].
  unfold unique_links. simpl. rewrite Hlinks, map_app. simpl.
  apply NoDup_app. split; [done|]. split; [|apply NoDup_singleton].
  intros k Hin Hk. apply list_elem_of_singleton in Hk as ->.
  apply list_elem_of_fmap in Hin as (r & Hr & Hin).
  apply list_elem_of_In in Hin.
  pose proof (find_none _ _ Hnone r Hin) as Hf. simpl in Hf.
  injection Hr as Hu Hp.
  by rewrite !bool_decide_eq_true_2 in Hf.
Qed.

(** C9: [associate_pdf_with_user] on a pair that is linked already
    returns the id of the link and changes nothing, and it never raises;
    whatever the calls made, no pair comes to have two links. *)
Theorem associate_pdf_with_user_idempotent w now :
  (forall d row,
      unique_links d -> row ∈ user_pdfs d ->
      associate_pdf_with_user w now (user_id row) (link_pdf_id row) d
      = (Returns (id row), d))
  /\ (forall user pdf d,
      returned (fst (associate_pdf_with_user w now user pdf d)))
  /\ (forall calls d,
      unique_links d -> unique_links (associate_all w now calls d)).
Proof.
  split; [|split].
  - intros d row Hd Hrow.
    unfold associate_pdf_with_user, bind, gets.
    pose proof (find_by_key (fun r => (user_id r, link_pdf_id r))
                  (user_pdfs d) row Hd Hrow) as Hfind.
    rewrite (find_ext _ (fun r => bool_decide
               ((user_id r, link_pdf_id r) = (user_id row, link_pdf_id row)))).
    + by rewrite Hfind.
    + intros r. repeat case_bool_decide; simpl; try done; congruence.
  - intros user pdf d. unfold returned.
    destruct (associate_cases w now user pdf d)
      as [(r & _ & ->)|(_ & d' & -> & _)]; simpl; eauto.
  - induction calls as [|[user pdf] calls IH]; intros d Hd; simpl; [done|].
    apply IH. by apply associate_keeps_unique_links.
Qed.

Lemma associate_pdf_with_user_idempotent_at_two_uploads :
  associate_pdf_with_user gcs_absent timestamp 7 2 two_uploads
  = (Returns 2, two_uploads)
  /\ unique_links
       (associate_all gcs_absent timestamp [(7, 1); (8, 1); (8, 1); (7, 1)] empty_db).
Proof.
  destruct (associate_pdf_with_user_idempotent gcs_absent timestamp) as (H1 & _ & H3).
  split.
  - refine (H1 two_uploads
              {| id := 2; user_id := 7; link_pdf_id := 2; uploaded_at := timestamp |} _ _).
    + apply (bool_decide_unpack _). vm_compute. exact I.
    + apply list_elem_of_further, list_elem_of_here.
  - apply H3. apply (bool_decide_unpack _). vm_compute. exact I.
Defined.

(** *** The lookup of versions by base name *)

Lemma like_percent_skip pattern text :
  like pattern text = true -> like (percent :: pattern) text = true.
Proof.
  intros H. destruct text; cbn [like]; change (percent =? percent)%N with true;
    cbv iota; by rewrite H.
Qed.

Lemma like_percent_cons pattern c text :
  like (percent :: pattern) (c :: text)
  = like pattern (c :: text) || like (percent :: pattern) text.
Proof. reflexivity. Qed.

Lemma like_percent text : like [percent] text = true.
Proof.
  induction text as [|c text IH]; [reflexivity|].
  by rewrite like_percent_cons, IH, orb_true_r.
Qed.

(** Text that repeats the pattern up to its last part matches when the
    last part does. *)
Lemma like_prefix pattern rest text :
  like rest text = true -> like (pattern ++ rest) (pattern ++ text) = true.
Proof.
  intros Hrest. induction pattern as [|p pattern IH]; [done|].
  destruct (decide (p = percent)) as [->|Hp].
  - rewrite <- !app_comm_cons, like_percent_cons.
    by rewrite (like_percent_skip _ _ IH), orb_true_r.
  - rewrite <- !app_comm_cons. cbn [like].
    apply N.eqb_neq in Hp. rewrite Hp, IH, N.eqb_refl. by rewrite orb_true_r.
Qed.

(** A stored key that is the base name, an underscore and any suffix
    matches the pattern. *)
Lemma like_underscore_suffix base suffix :
  like (base ++ u "_%") (base ++ u "_" ++ suffix) = true.
Proof.
  apply like_prefix. change (u "_%") with (underscore :: [percent]).
  change (u "_" ++ suffix) with (underscore :: suffix).
  cbn [like]. change (underscore =? percent)%N with false. cbv iota.
  by rewrite N.eqb_refl, like_percent.
Qed.

Lemma elem_of_get_pdf_versions_by_name base d path :
  path ∈ get_pdf_versions_by_name base d <->
  exists row, row ∈ pdfs d /\ file_path row = path
              /\ (path = base \/ like (base ++ u "_%") path = true).
Proof.
  unfold get_pdf_versions_by_name.
  rewrite elem_of_app, !list_elem_of_fmap. split.
  - intros [(row & -> & Hrow)|(row & -> & Hrow)];
      apply list_elem_of_filter in Hrow as [Hp Hrow]; exists row; eauto.
  - intros (row & Hrow & <- & [Hp|Hp]); [left|right];
      exists row; (split; [done|]); by apply list_elem_of_filter.
Qed.

(** C10 at the catalog left by the uploads of [notes.pdf] and
    [notesx.pdf]: the lookup of [notes] also returns the key of
    [notesx.pdf], which does not begin with [notes_]; the [_] of the
    pattern stands for any one character. *)
Theorem get_pdf_versions_by_name_wildcard :
  get_pdf_versions_by_name (u "notes") two_uploads
  = [u "notes_1700000000"; u "notesx_1700000001"]
  /\ ~ (exists suffix, u "notesx_1700000001" = u "notes" ++ u "_" ++ suffix).
Proof.
  split; [reflexivity|].
  intros [suffix H]. vm_compute in H. discriminate H.
Qed.

(** ** The ingestion stream *)

Section Ingestion.
Context (w : world).

Lemma best_effort_lift {A} (o : outcome A) (s : state) :
  best_effort (lift o) s = (Returns tt, s).
Proof. unfold best_effort, try_catch, bind, lift, ret. by destruct o. Qed.

(** The speech step returns whatever the service does: the audio it
    sent, or no audio. *)
Lemma synthesize_run pdf_id page_number explanation s :
  try_catch (synthesize w pdf_id page_number explanation) (fun _ => ret []) s
  = (Returns (audio_of w pdf_id (length (tts_calls s)) page_number explanation),
     {| db := db s; model_calls := model_calls s;
        tts_calls := tts_calls s ++ [speech_text_of page_number explanation];
        yielded := yielded s |}).
Proof.
  unfold try_catch, synthesize, audio_of, bind, post_text_to_speech.
  destruct (requests_post_json w _ _) as [[| | | | | |members]|]; try reflexivity.
  destruct (get_key _ members) as [[| | | |encoded| |]|]; try reflexivity.
  destruct (b64decode w encoded) as [[|b audio]|]; unfold lift at 1;
    try reflexivity.
  unfold lift at 1. destruct (os_makedirs w _); [|reflexivity].
  unfold lift at 1. destruct (write_bytes w _ _); [|reflexivity].
  by rewrite best_effort_lift.
Qed.

(** The explanation step: the model is asked once; the step returns the
    model's text or the sentence that tells of the failure, unless that
    sentence cannot be written. *)
Lemma explain_run pdf_id difficulty_level page_number img s :
  try_catch
    (let! explanation :=
       model_generate_content w (explain_prompt difficulty_level) (Some img) in
     lift (write_text w (page_text_path pdf_id page_number) explanation) ;;;
     lift (upload_file (store w) (Text explanation)
             (GCS_TEXT_PREFIX ++ pdf_id ++ u "/page_" ++ str_of_Z page_number ++ u ".md")
             (DEFAULT_BUCKET_NAME (store w)) (Some (u "text/markdown"))) ;;;
     ret explanation)
    (fun e =>
       lift (write_text w (page_text_path pdf_id page_number)
               (failure_text page_number e)) ;;;
       ret (failure_text page_number e)) s
  = (match explanation_try w pdf_id difficulty_level (length (model_calls s))
             page_number img with
     | Returns text => Returns text
     | Raises e =>
         match write_text w (page_text_path pdf_id page_number)
                 (failure_text page_number e) with
         | Returns _ => Returns (failure_text page_number e)
         | Raises e' => Raises e'
         end
     end,
     {| db := db s;
        model_calls := model_calls s ++ [(explain_prompt difficulty_level, Some img)];
        tts_calls := tts_calls s; yielded := yielded s |}).
Proof.
  unfold try_catch, bind, model_generate_content, explanation_try, lift, ret.
  destruct (generate_content_text w _ _ _) as [text|e].
  - destruct (write_text w (page_text_path pdf_id page_number) text) as [[]|e].
    + by destruct (upload_file_returns (store w) (Text text)
                     (GCS_TEXT_PREFIX ++ pdf_id ++ u "/page_"
                      ++ str_of_Z page_number ++ u ".md")
                     (DEFAULT_BUCKET_NAME (store w)) (Some (u "text/markdown")))
        as [v ->].
    + by destruct (write_text w _ (failure_text page_number e)) as [[]|e'].
  - by destruct (write_text w _ (failure_text page_number e)) as [[]|e'].
Qed.

(** One turn of the loop that no local write ends: it asks the model
    once and the speech service once, and yields the progress and the
    page. *)
Lemma process_page_run pdf_id difficulty_level page_count i img s :
  page_abort w pdf_id difficulty_level (length (model_calls s)) (i + 1) img = None ->
  process_page w pdf_id difficulty_level page_count (i, img) s
  = (Returns tt,
     {| db := db s;
        model_calls := model_calls s ++ [(explain_prompt difficulty_level, Some img)];
        tts_calls := tts_calls s ++
          [speech_text_of (i + 1)
             (explanation_of w pdf_id difficulty_level (length (model_calls s))
                (i + 1) img)];
        yielded := (yielded s ++
          [Progress (progress_percentage (i + 1) page_count) (i + 1) page_count]) ++
          [page_event w pdf_id difficulty_level
             (length (model_calls s)) (length (tts_calls s)) (i + 1) img] |}).
Proof.
  intros Hgoes. unfold page_abort in Hgoes. unfold process_page.
  unfold bind at 1. unfold yield at 1, modify at 1.
  unfold bind at 1, lift at 1.
  destruct (image_save w img (page_image_path pdf_id (i + 1))) as [[]|e]; [|done].
  unfold bind at 1. rewrite best_effort_lift.
  unfold bind at 1. rewrite explain_run. cbn [db model_calls tts_calls yielded].
  unfold page_event, explanation_of.
  destruct (explanation_try w pdf_id difficulty_level (length (model_calls s))
              (i + 1) img) as [text|e].
  - unfold bind at 1. rewrite synthesize_run.
    cbn [db model_calls tts_calls yielded]. reflexivity.
  - destruct (write_text w _ (failure_text (i + 1) e)) as [[]|e']; [|done].
    unfold bind at 1. rewrite synthesize_run.
    cbn [db model_calls tts_calls yielded]. reflexivity.
Qed.

(** One turn of the loop that a local write ends: the progress is
    yielded, the exception leaves the loop, and the speech service has
    not been asked. *)
Lemma process_page_aborts pdf_id difficulty_level page_count i img e s :
  page_abort w pdf_id difficulty_level (length (model_calls s)) (i + 1) img = Some e ->
  exists s',
    process_page w pdf_id difficulty_level page_count (i, img) s = (Raises e, s')
    /\ db s' = db s
    /\ tts_calls s' = tts_calls s
    /\ (length (model_calls s) <= length (model_calls s') <= S (length (model_calls s)))%nat
    /\ yielded s' = yielded s ++
         [Progress (progress_percentage (i + 1) page_count) (i + 1) page_count].
Proof.
  intros Hends. unfold page_abort in Hends. unfold process_page.
  unfold bind at 1. unfold yield at 1, modify at 1.
  unfold bind at 1, lift at 1.
  destruct (image_save w img (page_image_path pdf_id (i + 1))) as [[]|e0].
  - unfold bind at 1. rewrite best_effort_lift.
    unfold bind at 1. rewrite explain_run. cbn [db model_calls tts_calls yielded].
    destruct (explanation_try w pdf_id difficulty_level (length (model_calls s))
                (i + 1) img) as [text|e0]; [done|].
    destruct (write_text w _ (failure_text (i + 1) e0)) as [[]|e']; [done|].
    injection Hends as ->. eexists. split; [reflexivity|].
    cbn [db model_calls tts_calls yielded]. rewrite length_app. cbn [length].
    split_and!; try done; lia.
  - injection Hends as ->. eexists. split; [reflexivity|].
    cbn [db model_calls tts_calls yielded]. split_and!; try done; lia.
Qed.

Lemma for_each_pages_run pdf_id difficulty_level page_count entries s :
  no_abort w pdf_id difficulty_level (length (model_calls s)) entries ->
  exists s',
    for_each (process_page w pdf_id difficulty_level page_count) entries s
    = (Returns tt, s')
    /\ db s' = db s
    /\ length (model_calls s') = (length (model_calls s) + length entries)%nat
    /\ length (tts_calls s') = (length (tts_calls s) + length entries)%nat
    /\ yielded s' = yielded s ++
         page_events w pdf_id difficulty_level page_count
           (length (model_calls s)) (length (tts_calls s)) entries.
Proof.
  revert s. induction entries as [|[i img] entries IH]; intros s Hgoes.
  - exists s. simpl. rewrite !Nat.add_0_r, app_nil_r. done.
  - destruct Hgoes as [Hpage Hrest].
    cbn [for_each]. unfold bind at 1. rewrite (process_page_run _ _ _ _ _ _ Hpage).
    match goal with |- context [for_each _ entries ?s1] =>
      destruct (IH s1) as (s' & Hrun & Hdb & Hm & Ht & Hy) end.
    { cbn [model_calls]. rewrite length_app. cbn [length].
      by rewrite Nat.add_1_r. }
    exists s'. rewrite Hrun. cbn [db model_calls tts_calls yielded] in *.
    rewrite !length_app in *. cbn [length] in *. rewrite !Nat.add_1_r in Hy.
    split_and!; [done | done | lia | lia |].
    rewrite Hy. cbn [page_events]. by rewrite <- !app_assoc.
Qed.

(** The loop that a local write ends at the page after [before]. *)
Lemma for_each_pages_aborts pdf_id difficulty_level page_count before i img
    after e s :
  no_abort w pdf_id difficulty_level (length (model_calls s)) before ->
  page_abort w pdf_id difficulty_level (length (model_calls s) + length before)
    (i + 1) img = Some e ->
  exists s',
    for_each (process_page w pdf_id difficulty_level page_count)
      (before ++ (i, img) :: after) s = (Raises e, s')
    /\ db s' = db s
    /\ length (tts_calls s') = (length (tts_calls s) + length before)%nat
    /\ (length (model_calls s) + length before <= length (model_calls s')
        <= S (length (model_calls s) + length before))%nat
    /\ yielded s' = yielded s ++
         page_events w pdf_id difficulty_level page_count
           (length (model_calls s)) (length (tts_calls s)) before
         ++ [Progress (progress_percentage (i + 1) page_count) (i + 1) page_count].
Proof.
  revert s. induction before as [|[j img0] before IH]; intros s Hgoes Hends.
  - cbn [app for_each length] in *. rewrite Nat.add_0_r in Hends.
    unfold bind at 1.
    destruct (process_page_aborts pdf_id difficulty_level page_count i img e s Hends)
      as (s' & -> & Hdb & Ht & Hm & Hy).
    exists s'. split; [done|]. rewrite Ht, Hy, !Nat.add_0_r.
    split_and!; try done; lia.
  - destruct Hgoes as [Hpage Hrest].
    cbn [app for_each]. unfold bind at 1.
    rewrite (process_page_run _ _ _ _ _ _ Hpage).
    match goal with |- context [for_each _ _ ?s1] =>
      destruct (IH s1) as (s' & Hrun & Hdb & Ht & Hm & Hy) end.
    { cbn [model_calls]. rewrite length_app. cbn [length].
      by rewrite Nat.add_1_r. }
    { cbn [model_calls]. rewrite length_app. cbn [length].
      rewrite Nat.add_1_r. cbn [length] in Hends.
      by replace (S (length (model_calls s)) + length before)%nat
        with (length (model_calls s) + S (length before))%nat by lia. }
    exists s'. rewrite Hrun. cbn [db model_calls tts_calls yielded] in *.
    rewrite !length_app in *. cbn [length] in *. rewrite !Nat.add_1_r in Hy.
    split_and!; [done | done | lia | lia | lia |].
    rewrite Hy. cbn [page_events]. by rewrite <- !app_assoc.
Qed.

(** Either no page ends the run, or there is a first one that does. *)
Lemma first_abort pdf_id difficulty_level model_call entries :
  no_abort w pdf_id difficulty_level model_call entries
  \/ exists before i img after e,
       entries = before ++ (i, img) :: after
       /\ no_abort w pdf_id difficulty_level model_call before
       /\ page_abort w pdf_id difficulty_level (model_call + length before)
            (i + 1) img = Some e.
Proof.
  revert model_call. induction entries as [|[i img] entries IH]; intros model_call.
  - by left.
  - destruct (page_abort w pdf_id difficulty_level model_call (i + 1) img)
      as [e|] eqn:Hpage.
    + right. exists [], i, img, entries, e. cbn [app length].
      by rewrite Nat.add_0_r.
    + destruct (IH (S model_call))
        as [Hrest|(before & j & img' & after & e & -> & Hbefore & Hends)].
      * left. by split.
      * right. exists ((i, img) :: before), j, img', after, e.
        split; [done|]. split; [by split|].
        cbn [length].
        by replace (model_call + S (length before))%nat
          with (S model_call + length before)%nat by lia.
Qed.

Lemma length_enumerate_from {A} i (l : list A) :
  length (enumerate_from i l) = length l.
Proof. revert i. induction l; intros; simpl; [done|]. by rewrite IHl. Qed.

(** The start of a run of the generator on a PDF the rasteriser turns
    into [images]: the PDF is put in the catalog, the user is linked,
    and the page count is yielded; then comes the loop. *)
Lemma generate_start pdf name pdf_id hash difficulty_level size user images s :
  convert_from_path w pdf = Returns images ->
  exists pdf_db_id d1 link_id d2,
    add_pdf (store w) (CURRENT_TIMESTAMP w) name pdf_id hash size
      (Z.of_nat (length images)) (db s) = (Returns pdf_db_id, d1)
    /\ associate_pdf_with_user (store w) (CURRENT_TIMESTAMP w) user
         pdf_db_id d1 = (Returns link_id, d2)
    /\ generate w pdf name pdf_id hash difficulty_level size user s
       = try_catch
           (for_each (process_page w pdf_id difficulty_level
                        (Z.of_nat (length images))) (enumerate images) ;;;
            yield (Complete pdf_id))
           (fun e => yield (Error (exn_msg e)))
           {| db := d2; model_calls := model_calls s; tts_calls := tts_calls s;
              yielded := yielded s ++ [Info (Z.of_nat (length images)) pdf_id] |}.
Proof.
  intros Himages. unfold generate.
  destruct (add_pdf_cases (store w) (CURRENT_TIMESTAMP w) name pdf_id hash size
              (Z.of_nat (length images)) (db s))
    as [(row & _ & Hadd)|(_ & d1 & Hadd & _)];
  match type of Hadd with _ = (Returns ?key, ?d1) =>
    destruct (associate_cases (store w) (CURRENT_TIMESTAMP w) user key d1)
      as [(link & _ & Hlink)|(_ & d2 & Hlink & _)] end;
  do 4 eexists; (split; [exact Hadd|]); (split; [exact Hlink|]);
  unfold try_catch; unfold bind at 1; unfold lift at 1; rewrite Himages;
  unfold bind at 1, on_db at 1; rewrite Hadd;
  unfold bind at 1, on_db at 1; cbn [db with_db]; rewrite Hlink;
  unfold bind at 1, yield at 1, modify at 1; reflexivity.
Qed.

(** A run of the generator that no local write ends: it ends normally,
    having put the PDF in the catalog, linked the user, and yielded the
    page count, the events of the pages, and the completion. *)
Lemma generate_run pdf name pdf_id hash difficulty_level size user images s :
  convert_from_path w pdf = Returns images ->
  no_abort w pdf_id difficulty_level (length (model_calls s)) (enumerate images) ->
  exists s',
    generate w pdf name pdf_id hash difficulty_level size user s = (Returns tt, s')
    /\ emitted s s'
       = Info (Z.of_nat (length images)) pdf_id
         :: page_events w pdf_id difficulty_level (Z.of_nat (length images))
              (length (model_calls s)) (length (tts_calls s)) (enumerate images)
         ++ [Complete pdf_id]
    /\ length (model_calls s') = (length (model_calls s) + length images)%nat
    /\ length (tts_calls s') = (length (tts_calls s) + length images)%nat
    /\ (exists pdf_db_id d1 link_id,
          add_pdf (store w) (CURRENT_TIMESTAMP w) name pdf_id hash size
            (Z.of_nat (length images)) (db s) = (Returns pdf_db_id, d1)
          /\ associate_pdf_with_user (store w) (CURRENT_TIMESTAMP w) user
               pdf_db_id d1 = (Returns link_id, db s')).
Proof.
  intros Himages Hgoes.
  destruct (generate_start pdf name pdf_id hash difficulty_level size user images s
              Himages) as (pdf_db_id & d1 & link_id & d2 & Hadd & Hlink & ->).
  unfold try_catch. unfold bind at 1.
  match goal with |- context [for_each ?f ?l ?s1] =>
    destruct (for_each_pages_run pdf_id difficulty_level
                (Z.of_nat (length images)) l s1 Hgoes)
      as (s2 & -> & Hdb & Hm & Ht & Hy) end.
  cbn [db model_calls tts_calls yielded] in *.
  unfold yield, modify. eexists. split; [reflexivity|].
  unfold emitted. cbn [yielded db model_calls tts_calls].
  rewrite Hy, <- !app_assoc, drop_app_length.
  unfold enumerate in *. rewrite length_enumerate_from in Hm, Ht.
  split_and!; [done | done | done |].
  exists pdf_db_id, d1, link_id. split; [done|]. by rewrite Hdb.
Qed.

(** A run of the generator that a local write ends at the page after
    [before]: the page count, the events of the pages of [before], the
    progress of that page and the error are yielded, and no more. *)
Lemma generate_run_aborted pdf name pdf_id hash difficulty_level size user images
    before i img after e s :
  convert_from_path w pdf = Returns images ->
  enumerate images = before ++ (i, img) :: after ->
  no_abort w pdf_id difficulty_level (length (model_calls s)) before ->
  page_abort w pdf_id difficulty_level (length (model_calls s) + length before)
    (i + 1) img = Some e ->
  exists s',
    generate w pdf name pdf_id hash difficulty_level size user s = (Returns tt, s')
    /\ emitted s s'
       = Info (Z.of_nat (length images)) pdf_id
         :: page_events w pdf_id difficulty_level (Z.of_nat (length images))
              (length (model_calls s)) (length (tts_calls s)) before
         ++ [Progress (progress_percentage (i + 1) (Z.of_nat (length images)))
               (i + 1) (Z.of_nat (length images));
             Error (exn_msg e)]
    /\ (length (model_calls s) + length before <= length (model_calls s')
        <= S (length (model_calls s) + length before))%nat
    /\ length (tts_calls s') = (length (tts_calls s) + length before)%nat
    /\ (exists pdf_db_id d1 link_id,
          add_pdf (store w) (CURRENT_TIMESTAMP w) name pdf_id hash size
            (Z.of_nat (length images)) (db s) = (Returns pdf_db_id, d1)
          /\ associate_pdf_with_user (store w) (CURRENT_TIMESTAMP w) user
               pdf_db_id d1 = (Returns link_id, db s')).
Proof.
  intros Himages Hsplit Hgoes Hends.
  destruct (generate_start pdf name pdf_id hash difficulty_level size user images s
              Himages) as (pdf_db_id & d1 & link_id & d2 & Hadd & Hlink & ->).
  unfold try_catch. unfold bind at 1. rewrite Hsplit.
  match goal with |- context [for_each ?f _ ?s1] =>
    destruct (for_each_pages_aborts pdf_id difficulty_level
                (Z.of_nat (length images)) before i img after e s1 Hgoes Hends)
      as (s2 & -> & Hdb & Ht & Hm & Hy) end.
  cbn [db model_calls tts_calls yielded] in *.
  unfold yield, modify. eexists. split; [reflexivity|].
  unfold emitted. cbn [yielded db model_calls tts_calls].
  rewrite Hy, <- !app_assoc, drop_app_length.
  split_and!; [done | lia | lia | done |].
  exists pdf_db_id, d1, link_id. split; [done|]. by rewrite Hdb.
Qed.

(** When the rasteriser raises, the stream is the one error event. *)
Lemma generate_run_error pdf name pdf_id hash difficulty_level size user e s :
  convert_from_path w pdf = Raises e ->
  exists s',
    generate w pdf name pdf_id hash difficulty_level size user s = (Returns tt, s')
    /\ emitted s s' = [Error (exn_msg e)] /\ db s' = db s.
Proof.
  intros Hraise. unfold generate, try_catch, bind, lift. rewrite Hraise.
  unfold yield, modify. eexists. split; [reflexivity|].
  unfold emitted. cbn [yielded db]. by rewrite drop_app_length.
Qed.

End Ingestion.

(** For every PDF of up to 200 pages, dividing in doubles and cutting
    gives the integer quotient the model of [int(a / b)] uses. *)
Lemma int_truediv_as_doubles :
  forallb readings_agree (seqZ 1 200) = true.
Proof. vm_compute. reflexivity. Qed.

Section Stream.
Context (w : world) (pdf_id difficulty_level : str).

Lemma seqZ_of_length_cons {A} (i : Z) (x : A) (l : list A) :
  seqZ (i + 1) (Z.of_nat (length (x :: l)))
  = (i + 1) :: seqZ (i + 1 + 1) (Z.of_nat (length l)).
Proof.
  rewrite seqZ_cons by (simpl; lia). f_equal. f_equal; simpl; lia.
Qed.

Lemma omap_cons {A B} (f : A -> option B) (x : A) (l : list A) :
  omap f (x :: l)
  = match f x with Some y => y :: omap f l | None => omap f l end.
Proof. reflexivity. Qed.

Lemma progress_of_page_events page_count model_call tts_call i images :
  0 <= i -> 0 < page_count ->
  omap progress_of
    (page_events w pdf_id difficulty_level page_count model_call tts_call
       (enumerate_from i images))
  = map (fun page => (30 + (page - 1) * 65 / page_count, page, page_count))
      (seqZ (i + 1) (Z.of_nat (length images))).
Proof.
  intros Hi Hcount. revert model_call tts_call i Hi.
  induction images as [|img images IH]; intros model_call tts_call i Hi; [done|].
  rewrite seqZ_of_length_cons. cbn [enumerate_from page_events map].
  rewrite !omap_cons. cbn [page_event progress_of]. rewrite IH by lia.
  unfold progress_percentage, int_truediv.
  rewrite Z.quot_div_nonneg by lia. done.
Qed.

Lemma page_number_of_page_events page_count model_call tts_call i images :
  omap page_number_of
    (page_events w pdf_id difficulty_level page_count model_call tts_call
       (enumerate_from i images))
  = seqZ (i + 1) (Z.of_nat (length images)).
Proof.
  revert model_call tts_call i.
  induction images as [|img images IH]; intros model_call tts_call i; [done|].
  rewrite seqZ_of_length_cons. cbn [enumerate_from page_events].
  rewrite !omap_cons. cbn [page_event page_number_of]. by rewrite IH.
Qed.

Lemma total_pages_of_page_events page_count model_call tts_call entries :
  omap total_pages_of
    (page_events w pdf_id difficulty_level page_count model_call tts_call entries)
  = [].
Proof.
  revert model_call tts_call.
  induction entries as [|[i img] entries IH]; intros; [done|].
  cbn [page_events]. rewrite !omap_cons. cbn [page_event total_pages_of]. apply IH.
Qed.

Lemma no_error_in_page_events page_count model_call tts_call entries :
  forallb (fun e => negb (is_error e))
    (page_events w pdf_id difficulty_level page_count model_call tts_call entries)
  = true.
Proof.
  revert model_call tts_call.
  induction entries as [|[i img] entries IH]; intros; [done|].
  cbn [page_events forallb is_error page_event negb andb]. apply IH.
Qed.

(** The event of page [k + 1] is among the events of the pages. *)
Lemma page_event_in_page_events page_count model_call tts_call i images k img :
  images !! k = Some img ->
  page_event w pdf_id difficulty_level (model_call + k) (tts_call + k)
    (i + Z.of_nat k + 1) img
  ∈ page_events w pdf_id difficulty_level page_count model_call tts_call
      (enumerate_from i images).
Proof.
  revert model_call tts_call i k.
  induction images as [|x images IH]; intros model_call tts_call i k Hk; [done|].
  cbn [enumerate_from page_events]. destruct k as [|k].
  - injection Hk as ->. rewrite !Nat.add_0_r, Z.add_0_r.
    apply list_elem_of_further, list_elem_of_here.
  - do 2 apply list_elem_of_further.
    replace (model_call + S k)%nat with (S model_call + k)%nat by lia.
    replace (tts_call + S k)%nat with (S tts_call + k)%nat by lia.
    replace (i + Z.of_nat (S k) + 1) with (i + 1 + Z.of_nat k + 1) by lia.
    by apply IH.
Qed.

Lemma complete_not_in_page_events page_count model_call tts_call entries key :
  Complete key ∉
    page_events w pdf_id difficulty_level page_count model_call tts_call entries.
Proof.
  revert model_call tts_call.
  induction entries as [|[i img] entries IH]; intros model_call tts_call;
    [apply not_elem_of_nil|].
  cbn [page_events]. unfold page_event.
  intros [Heq|[Heq|Hin]%elem_of_cons]%elem_of_cons; [done|done|].
  by apply (IH (S model_call) (S tts_call)).
Qed.

Lemma enumerate_from_app {A} (i : Z) (l1 l2 : list A) :
  enumerate_from i (l1 ++ l2)
  = enumerate_from i l1 ++ enumerate_from (i + Z.of_nat (length l1)) l2.
Proof.
  revert i. induction l1 as [|x l1 IH]; intros i.
  - cbn [app enumerate_from length]. by rewrite Z.add_0_r.
  - cbn [app enumerate_from length]. rewrite IH. do 3 f_equal. lia.
Qed.

(** The pages of a list, up to page [k + 1] and after it. *)
Lemma enumerate_lookup_split {A} (l : list A) (k : nat) (x : A) :
  l !! k = Some x ->
  enumerate l
  = enumerate (take k l)
    ++ (Z.of_nat k, x) :: enumerate_from (Z.of_nat k + 1) (drop (S k) l)
  /\ length (enumerate (take k l)) = k.
Proof.
  intros Hk. unfold enumerate.
  pose proof (lookup_lt_Some _ _ _ Hk) as Hlt.
  assert (length (take k l) = k) as Hlen by (rewrite length_take; lia).
  split; [|by rewrite length_enumerate_from].
  rewrite <- (take_drop_middle l k x Hk) at 1.
  rewrite enumerate_from_app, Hlen. cbn [enumerate_from]. repeat f_equal; lia.
Qed.

(** A split of the pages is a split of the list they number. *)
Lemma enumerate_from_split {A} (i : Z) (l : list A) before j x after :
  enumerate_from i l = before ++ (j, x) :: after ->
  l !! length before = Some x
  /\ before = enumerate_from i (take (length before) l)
  /\ j = i + Z.of_nat (length before).
Proof.
  revert i l. induction before as [|[j0 x0] before IH]; intros i l Hsplit.
  - destruct l as [|y l]; [done|]. cbn [enumerate_from app] in Hsplit.
    injection Hsplit as <- <- _. cbn. split_and!; [done|done|lia].
  - destruct l as [|y l]; [done|]. cbn [enumerate_from app] in Hsplit.
    injection Hsplit as <- <- Hrest.
    destruct (IH (i + 1) l Hrest) as (Hx & Hbefore & Hj).
    cbn [length lookup take enumerate_from]. split_and!; [done| |lia].
    by rewrite <- Hbefore.
Qed.

(** With no page ending the run, none of them does. *)
Lemma no_abort_lookup model_call i (l : list image) k img :
  no_abort w pdf_id difficulty_level model_call (enumerate_from i l) ->
  l !! k = Some img ->
  page_abort w pdf_id difficulty_level (model_call + k) (i + Z.of_nat k + 1) img
  = None.
Proof.
  revert model_call i k. induction l as [|x l IH]; intros model_call i k; [done|].
  cbn [enumerate_from no_abort]. intros [Hx Hl] Hk. destruct k as [|k].
  - injection Hk as <-. by rewrite Nat.add_0_r, Z.add_0_r.
  - replace (model_call + S k)%nat with (S model_call + k)%nat by lia.
    replace (i + Z.of_nat (S k) + 1) with (i + 1 + Z.of_nat k + 1) by lia.
    by apply IH.
Qed.

(** Either no page of the PDF ends the run, or there is a first one
    that does. *)
Lemma first_abort_index model_call (images : list image) :
  no_abort w pdf_id difficulty_level model_call (enumerate images)
  \/ exists k img e,
       images !! k = Some img
       /\ no_abort w pdf_id difficulty_level model_call (enumerate (take k images))
       /\ page_abort w pdf_id difficulty_level (model_call + k)
            (Z.of_nat k + 1) img = Some e.
Proof.
  destruct (first_abort w pdf_id difficulty_level model_call (enumerate images))
    as [Hgoes|(before & i & img & after & e & Hsplit & Hbefore & Hends)];
    [by left|right].
  unfold enumerate in *.
  destruct (enumerate_from_split 0 images before i img after Hsplit)
    as (Hk & Heq & ->).
  exists (length before), img, e. split; [done|].
  split; [by rewrite <- Heq|]. by rewrite Z.add_0_l in Hends.
Qed.

End Stream.

Section Streams.
Context (w : world).

(** The stream of a run that a local write ends at page [k + 1]. *)
Lemma generate_aborts_at pdf name pdf_id hash difficulty_level size user images
    k img e s :
  convert_from_path w pdf = Returns images ->
  images !! k = Some img ->
  no_abort w pdf_id difficulty_level (length (model_calls s))
    (enumerate (take k images)) ->
  page_abort w pdf_id difficulty_level (length (model_calls s) + k)
    (Z.of_nat k + 1) img = Some e ->
  let page_count := Z.of_nat (length images) in
  exists s',
    generate w pdf name pdf_id hash difficulty_level size user s = (Returns tt, s')
    /\ emitted s s'
       = Info page_count pdf_id
         :: page_events w pdf_id difficulty_level page_count
              (length (model_calls s)) (length (tts_calls s))
              (enumerate (take k images))
         ++ [Progress (progress_percentage (Z.of_nat k + 1) page_count)
               (Z.of_nat k + 1) page_count;
             Error (exn_msg e)]
    /\ (length (model_calls s) + k <= length (model_calls s')
        <= S (length (model_calls s) + k))%nat
    /\ length (tts_calls s') = (length (tts_calls s) + k)%nat
    /\ (exists pdf_db_id d1 link_id,
          add_pdf (store w) (CURRENT_TIMESTAMP w) name pdf_id hash size
            page_count (db s) = (Returns pdf_db_id, d1)
          /\ associate_pdf_with_user (store w) (CURRENT_TIMESTAMP w) user
               pdf_db_id d1 = (Returns link_id, db s')).
Proof.
  intros Himages Hk Hgoes Hends page_count.
  destruct (enumerate_lookup_split images k img Hk) as [Hsplit Hlen].
  rewrite <- Hlen in Hends at 1.
  destruct (generate_run_aborted w pdf name pdf_id hash difficulty_level size user
              images _ _ img _ e s Himages Hsplit Hgoes Hends)
    as (s' & Hrun & Hstream & Hm & Ht & Hcatalog).
  rewrite Hlen in Hm, Ht. by exists s'.
Qed.

(** Whatever happens at the pages, the generator ends normally, having
    put the PDF in the catalog and linked the user; its stream begins
    with the page count, and the model and the speech service are asked
    at most once a page. *)
Lemma generate_returns pdf name pdf_id hash difficulty_level size user images s :
  convert_from_path w pdf = Returns images ->
  exists s' lines pdf_db_id d1 link_id,
    generate w pdf name pdf_id hash difficulty_level size user s = (Returns tt, s')
    /\ emitted s s' = Info (Z.of_nat (length images)) pdf_id :: lines
    /\ (length (model_calls s) <= length (model_calls s')
        <= length (model_calls s) + length images)%nat
    /\ (length (tts_calls s) <= length (tts_calls s')
        <= length (tts_calls s) + length images)%nat
    /\ add_pdf (store w) (CURRENT_TIMESTAMP w) name pdf_id hash size
         (Z.of_nat (length images)) (db s) = (Returns pdf_db_id, d1)
    /\ associate_pdf_with_user (store w) (CURRENT_TIMESTAMP w) user
         pdf_db_id d1 = (Returns link_id, db s').
Proof.
  intros Himages.
  destruct (first_abort_index w pdf_id difficulty_level (length (model_calls s))
              images) as [Hgoes|(k & img & e & Hk & Hgoes & Hends)].
  - destruct (generate_run w pdf name pdf_id hash difficulty_level size user
                images s Himages Hgoes)
      as (s' & Hrun & Hstream & Hm & Ht
          & (pdf_db_id & d1 & link_id & Hadd & Hlink)).
    exists s'. eexists. exists pdf_db_id, d1, link_id.
    split_and!; [done | exact Hstream | lia | lia | lia | lia | done | done].
  - destruct (generate_aborts_at pdf name pdf_id hash difficulty_level size
                user images k img e s Himages Hk Hgoes Hends)
      as (s' & Hrun & Hstream & Hm & Ht
          & (pdf_db_id & d1 & link_id & Hadd & Hlink)).
    pose proof (lookup_lt_Some _ _ _ Hk) as Hlt.
    exists s'. eexists. exists pdf_db_id, d1, link_id.
    split_and!; [done | exact Hstream | lia | lia | lia | lia | done | done].
Qed.

(** The progress events of the pages up to page [k]. *)
Lemma progress_of_stream pdf_id difficulty_level page_count model_call tts_call
    (images : list image) ending :
  0 < page_count ->
  omap progress_of
    (Info page_count pdf_id
     :: page_events w pdf_id difficulty_level page_count model_call tts_call
          (enumerate images) ++ ending)
  = map (fun page => (30 + (page - 1) * 65 / page_count, page, page_count))
      (seqZ 1 (Z.of_nat (length images)))
    ++ omap progress_of ending.
Proof.
  intros Hcount. rewrite omap_cons, omap_app. cbn [progress_of].
  unfold enumerate. by rewrite progress_of_page_events by lia.
Qed.

(** A stream with the completion in it is one that no local write has
    ended. *)
Lemma generate_complete pdf name pdf_id hash difficulty_level size user images s :
  convert_from_path w pdf = Returns images ->
  Complete pdf_id
  ∈ emitted s (snd (generate w pdf name pdf_id hash difficulty_level size user s)) ->
  no_abort w pdf_id difficulty_level (length (model_calls s)) (enumerate images).
Proof.
  intros Himages Hdone.
  destruct (first_abort_index w pdf_id difficulty_level (length (model_calls s))
              images) as [Hgoes|(k & img & e & Hk & Hgoes & Hends)]; [done|].
  exfalso.
  destruct (generate_aborts_at pdf name pdf_id hash difficulty_level size
              user images k img e s Himages Hk Hgoes Hends)
    as (s' & Hrun & Hstream & _).
  rewrite Hrun in Hdone. cbn [snd] in Hdone. rewrite Hstream in Hdone.
  apply elem_of_cons in Hdone as [Heq|Hin]; [done|].
  apply elem_of_app in Hin as [Hin|Hin].
  - by apply complete_not_in_page_events in Hin.
  - apply elem_of_cons in Hin as [Heq|Hin]; [done|].
    by apply list_elem_of_singleton in Hin.
Qed.

(** The progress events of a run: those of the pages up to the one
    where the run ends. *)
Lemma progress_of_generate pdf name pdf_id hash difficulty_level size user images s :
  convert_from_path w pdf = Returns images ->
  let page_count := Z.of_nat (length images) in
  let stream :=
    emitted s (snd (generate w pdf name pdf_id hash difficulty_level size user s)) in
  exists pages,
    0 <= pages <= page_count
    /\ omap progress_of stream
       = map (fun page => (30 + (page - 1) * 65 / page_count, page, page_count))
           (seqZ 1 pages)
    /\ (Complete pdf_id ∈ stream -> pages = page_count).
Proof.
  intros Himages page_count stream. subst stream.
  destruct (first_abort_index w pdf_id difficulty_level (length (model_calls s))
              images) as [Hgoes|(k & img & e & Hk & Hgoes & Hends)].
  - destruct (generate_run w pdf name pdf_id hash difficulty_level size user
                images s Himages Hgoes) as (s' & Hrun & Hstream & _).
    rewrite Hrun. cbn [snd]. rewrite Hstream.
    exists page_count. split; [lia|]. split; [|done].
    destruct images as [|img images].
    + reflexivity.
    + rewrite progress_of_stream by (subst page_count; simpl; lia).
      cbn [omap progress_of]. by rewrite app_nil_r.
  - destruct (generate_aborts_at pdf name pdf_id hash difficulty_level size
                user images k img e s Himages Hk Hgoes Hends)
      as (s' & Hrun & Hstream & _).
    rewrite Hrun. cbn [snd]. rewrite Hstream. fold page_count.
    pose proof (lookup_lt_Some _ _ _ Hk) as Hlt.
    exists (Z.of_nat k + 1). split; [subst page_count; lia|]. split.
    + rewrite progress_of_stream by (subst page_count; lia).
      rewrite length_take, Nat.min_l by lia.
      rewrite !omap_cons. cbn [progress_of omap].
      rewrite (seqZ_app 1 (Z.of_nat k) 1) by lia. rewrite map_app.
      f_equal. unfold progress_percentage, int_truediv.
      replace (seqZ (1 + Z.of_nat k) 1) with [Z.of_nat k + 1]
        by (unfold seqZ; change (Z.to_nat 1) with 1%nat; simpl; f_equal; lia).
      simpl. by rewrite Z.quot_div_nonneg by lia.
    + intros [Heq|Hin]%elem_of_cons; [done|].
      apply elem_of_app in Hin as [Hin|Hin].
      * by apply complete_not_in_page_events in Hin.
      * apply elem_of_cons in Hin as [Heq|Hin]; [done|].
        by apply list_elem_of_singleton in Hin.
Qed.

End Streams.

(** C5: on a PDF of [N >= 1] pages the progress events of the stream
    carry, page by page from page 1 on, the value
    [30 + floor((page - 1) * 65 / N)] with the page and [N]; they are
    those of all the [N] pages when the stream comes to its completion,
    and for three pages the values are then 30, 51 and 73. *)
Theorem progress_accounting w pdf name pdf_id hash difficulty_level size user
    images s :
  convert_from_path w pdf = Returns images ->
  images <> [] ->
  let page_count := Z.of_nat (length images) in
  let stream :=
    emitted s (snd (generate w pdf name pdf_id hash difficulty_level size user s)) in
  (exists pages,
      0 <= pages <= page_count
      /\ omap progress_of stream
         = map (fun page => (30 + (page - 1) * 65 / page_count, page, page_count))
             (seqZ 1 pages)
      /\ (Complete pdf_id ∈ stream -> pages = page_count))
  /\ (page_count = 3 -> Complete pdf_id ∈ stream ->
      omap progress_of stream = [(30, 1, 3); (51, 2, 3); (73, 3, 3)]).
Proof.
  intros Himages Hne page_count stream.
  destruct (progress_of_generate w pdf name pdf_id hash difficulty_level size user
              images s Himages) as (pages & Hpages & Hstream & Hcomplete).
  fold page_count in Hpages, Hstream, Hcomplete. fold stream in Hstream, Hcomplete.
  split; [by exists pages|].
  intros H3 Hdone. rewrite Hstream, (Hcomplete Hdone), H3. reflexivity.
Qed.

Lemma progress_accounting_notes :
  omap progress_of
    (emitted fresh
       (snd (generate (demo explains) [37%N; 80%N; 68%N; 70%N] (u "notes")
               (u "notes_1700000000") (u "aa") (u "detailed") 4 7 fresh)))
  = [(30, 1, 3); (51, 2, 3); (73, 3, 3)].
Proof.
  refine (proj2 (progress_accounting (demo explains) [37%N; 80%N; 68%N; 70%N]
                   (u "notes") (u "notes_1700000000") (u "aa") (u "detailed")
                   4 7 [[1%N]; [2%N]; [3%N]] fresh _ _) _ _).
  - reflexivity.
  - discriminate.
  - reflexivity.
  - vm_compute. repeat first [apply list_elem_of_here | apply list_elem_of_further].
Defined.

(** C7: on a PDF the rasteriser turns into [N] pages, a stream that
    comes to its completion has no error event and ends with the
    completion; it has exactly [N] page events, numbered 1 to [N] in
    this order, and its first event says [total_pages = N]. *)
Theorem page_order_and_count w pdf name pdf_id hash difficulty_level size user
    images s :
  convert_from_path w pdf = Returns images ->
  let page_count := Z.of_nat (length images) in
  let stream :=
    emitted s (snd (generate w pdf name pdf_id hash difficulty_level size user s)) in
  Complete pdf_id ∈ stream ->
  omap page_number_of stream = seqZ 1 page_count
  /\ length (omap page_number_of stream) = length images
  /\ head stream = Some (Info page_count pdf_id)
  /\ omap total_pages_of stream = [page_count]
  /\ forallb (fun e => negb (is_error e)) stream = true
  /\ last stream = Some (Complete pdf_id).
Proof.
  intros Himages page_count stream Hdone. subst stream.
  pose proof (generate_complete w pdf name pdf_id hash difficulty_level size user
                images s Himages Hdone) as Hgoes.
  clear Hdone.
  destruct (generate_run w pdf name pdf_id hash difficulty_level size user
              images s Himages Hgoes) as (s' & Hrun & Hstream & _).
  rewrite Hrun. cbn [snd]. rewrite Hstream. clear Hrun Hstream.
  assert (omap page_number_of
            (Info (Z.of_nat (length images)) pdf_id
             :: page_events w pdf_id difficulty_level (Z.of_nat (length images))
                  (length (model_calls s)) (length (tts_calls s)) (enumerate images)
             ++ [Complete pdf_id]) = seqZ 1 page_count) as Hpages.
  { rewrite omap_cons, omap_app. cbn [page_number_of].
    rewrite omap_cons. cbn [page_number_of omap]. rewrite app_nil_r.
    unfold enumerate. by rewrite page_number_of_page_events. }
  split_and!.
  - exact Hpages.
  - rewrite Hpages, length_seqZ. subst page_count. lia.
  - reflexivity.
  - rewrite omap_cons, omap_app. cbn [total_pages_of].
    by rewrite total_pages_of_page_events.
  - cbn [forallb is_error negb andb]. rewrite forallb_app.
    by rewrite no_error_in_page_events.
  - rewrite app_comm_cons. apply last_snoc.
Qed.

Lemma page_order_and_count_notes :
  omap page_number_of
    (emitted fresh
       (snd (generate (demo explains) [37%N; 80%N; 68%N; 70%N] (u "notes")
               (u "notes_1700000000") (u "aa") (u "detailed") 4 7 fresh)))
  = [1; 2; 3].
Proof.
  refine (proj1 (page_order_and_count (demo explains) [37%N; 80%N; 68%N; 70%N]
                   (u "notes") (u "notes_1700000000") (u "aa") (u "detailed")
                   4 7 [[1%N]; [2%N]; [3%N]] fresh _ _)).
  - reflexivity.
  - vm_compute. repeat first [apply list_elem_of_here | apply list_elem_of_further].
Defined.

(** C8, as the design document has it, fails where the sentence that
    tells of the failure cannot be written: a PDF of three pages is
    uploaded under a name of 235 characters, so that its key has 246
    and the text file of a page a name of 256, one more than the local
    tier takes; the model fails on page 1, and the run ends there with
    an error event: no page event is yielded, for page 1 or for the
    pages after it. *)
Lemma page_failure_ends_the_run :
  generate_content_text (name_max (demo refuses)) 0 (explain_prompt (u "detailed"))
    (Some [1%N]) = Raises quota_exceeded
  /\ fst (process_pdf (name_max (demo refuses)) upload_of_long_name fresh)
     = Returns (StreamingResponse
                  [Info 3 long_key; Progress 30 1 3;
                   Error (u "[Errno 36] File name too long")])
  /\ emitted fresh
       (snd (generate (name_max (demo refuses)) [37%N; 80%N; 68%N; 70%N]
               (replicate 235 97%N) long_key (u "aa") (u "detailed") 4 7 fresh))
     = [Info 3 long_key; Progress 30 1 3; Error (u "[Errno 36] File name too long")].
Proof.
  split; [reflexivity|]. split; vm_compute; reflexivity.
Qed.

(** C8, amended: take page [k + 1] of a run that no local write has
    ended before it.  When no local write ends the run at this page
    (its image is saved and, if the explanation failed, the sentence
    that tells of it is written), the event of the page is yielded
    whatever the model and the speech service answer: when the model's
    call raises, the page carries the sentence that tells of the
    failure, and when the request to the speech service raises, it
    carries no audio; and if no local write ends the run at any page,
    all the pages are yielded, up to the completion.  When a local
    write does end the run at this page, the stream stops there: after
    the events of the pages before come the progress of the page and
    the error. *)
Theorem page_failure_is_local w pdf name pdf_id hash difficulty_level size user
    images s k img :
  convert_from_path w pdf = Returns images ->
  images !! k = Some img ->
  let page_count := Z.of_nat (length images) in
  let page_number := Z.of_nat k + 1 in
  let model_call := (length (model_calls s) + k)%nat in
  let tts_call := (length (tts_calls s) + k)%nat in
  let stream :=
    emitted s (snd (generate w pdf name pdf_id hash difficulty_level size user s)) in
  no_abort w pdf_id difficulty_level (length (model_calls s))
    (enumerate (take k images)) ->
  match page_abort w pdf_id difficulty_level model_call page_number img with
  | None =>
      exists explanation audio,
        Page page_number (b64encode w (jpeg w img)) explanation (b64encode w audio)
          (u "/pdf/" ++ pdf_id ++ u "/audio/" ++ str_of_Z page_number)
          (u "/pdf/" ++ pdf_id ++ u "/image/" ++ str_of_Z page_number) ∈ stream
        /\ (forall e,
              generate_content_text w model_call (explain_prompt difficulty_level)
                (Some img) = Raises e ->
              explanation = u "Failed to generate explanation for page "
                            ++ str_of_Z page_number ++ u ": " ++ exn_msg e)
        /\ (forall e,
              requests_post_json w tts_call (speech_text_of page_number explanation)
              = Raises e ->
              audio = [])
        /\ (no_abort w pdf_id difficulty_level (length (model_calls s))
              (enumerate images) ->
            omap page_number_of stream = seqZ 1 page_count
            /\ last stream = Some (Complete pdf_id))
  | Some e =>
      stream
      = Info page_count pdf_id
        :: page_events w pdf_id difficulty_level page_count
             (length (model_calls s)) (length (tts_calls s))
             (enumerate (take k images))
        ++ [Progress (progress_percentage page_number page_count)
              page_number page_count;
            Error (exn_msg e)]
  end.
Proof.
  intros Himages Hk page_count page_number model_call tts_call stream Hbefore.
  subst stream.
  destruct (page_abort w pdf_id difficulty_level model_call page_number img)
    as [e|] eqn:Hpage.
  { destruct (generate_aborts_at w pdf name pdf_id hash difficulty_level size
                user images k img e s Himages Hk Hbefore Hpage)
      as (s' & Hrun & Hstream & _).
    rewrite Hrun. cbn [snd]. by rewrite Hstream. }
  exists (explanation_of w pdf_id difficulty_level model_call page_number img),
         (audio_of w pdf_id tts_call page_number
            (explanation_of w pdf_id difficulty_level model_call page_number img)).
  assert (forall e,
            generate_content_text w model_call (explain_prompt difficulty_level)
              (Some img) = Raises e ->
            explanation_of w pdf_id difficulty_level model_call page_number img
            = u "Failed to generate explanation for page "
              ++ str_of_Z page_number ++ u ": " ++ exn_msg e) as Hexplanation.
  { intros e He. unfold explanation_of, explanation_try. by rewrite He. }
  assert (forall explanation e,
            requests_post_json w tts_call (speech_text_of page_number explanation)
            = Raises e ->
            audio_of w pdf_id tts_call page_number explanation = []) as Haudio.
  { intros explanation e He. unfold audio_of. by rewrite He. }
  destruct (first_abort_index w pdf_id difficulty_level (length (model_calls s))
              images) as [Hgoes|(k' & img' & e' & Hk' & Hgoes' & Hends)].
  - destruct (generate_run w pdf name pdf_id hash difficulty_level size user
                images s Himages Hgoes) as (s' & Hrun & Hstream & _).
    rewrite Hrun. cbn [snd]. rewrite Hstream. split_and!.
    + apply list_elem_of_further, elem_of_app. left.
      pose proof (page_event_in_page_events w pdf_id difficulty_level
                    (Z.of_nat (length images)) (length (model_calls s))
                    (length (tts_calls s)) 0 images k img Hk) as Hin.
      rewrite Z.add_0_l in Hin. exact Hin.
    + exact Hexplanation.
    + apply Haudio.
    + intros _. split.
      * rewrite omap_cons, omap_app. cbn [page_number_of].
        rewrite omap_cons. cbn [page_number_of omap]. rewrite app_nil_r.
        unfold enumerate. by rewrite page_number_of_page_events.
      * rewrite app_comm_cons. apply last_snoc.
  - destruct (generate_aborts_at w pdf name pdf_id hash difficulty_level size
                user images k' img' e' s Himages Hk' Hgoes' Hends)
      as (s' & Hrun & Hstream & _).
    rewrite Hrun. cbn [snd]. rewrite Hstream.
    assert (k < k')%nat as Hlt.
    { destruct (decide (k < k')%nat) as [|Hge]; [done|exfalso].
      destruct (decide (k = k')) as [->|Hne].
      - rewrite Hk in Hk'. injection Hk' as <-.
        subst model_call page_number. congruence.
      - assert (take k images !! k' = Some img') as Hin
          by (rewrite lookup_take_lt by lia; done).
        pose proof (no_abort_lookup w pdf_id difficulty_level
                      (length (model_calls s)) 0 (take k images) k' img'
                      Hbefore Hin) as Hnone.
        rewrite Z.add_0_l in Hnone. congruence. }
    split_and!.
    + apply list_elem_of_further, elem_of_app. left.
      assert (take k' images !! k = Some img) as Hin
        by (rewrite lookup_take_lt by lia; done).
      pose proof (page_event_in_page_events w pdf_id difficulty_level
                    (Z.of_nat (length images)) (length (model_calls s))
                    (length (tts_calls s)) 0 (take k' images) k img Hin) as Hev.
      rewrite Z.add_0_l in Hev. exact Hev.
    + exact Hexplanation.
    + apply Haudio.
    + intros Hall. exfalso.
      pose proof (no_abort_lookup w pdf_id difficulty_level
                    (length (model_calls s)) 0 images k' img' Hall Hk') as Hnone.
      rewrite Z.add_0_l in Hnone. congruence.
Qed.

Lemma page_failure_is_local_notes :
  exists explanation audio,
    Page 2 [2%N] explanation audio (u "/pdf/notes_1700000000/audio/2")
      (u "/pdf/notes_1700000000/image/2")
    ∈ emitted fresh
        (snd (generate (demo explains) [37%N; 80%N; 68%N; 70%N] (u "notes")
                (u "notes_1700000000") (u "aa") (u "detailed") 4 7 fresh))
    /\ explanation = u "Failed to generate explanation for page 2: 429 quota exceeded"
    /\ audio = [].
Proof.
  pose proof (page_failure_is_local (demo explains) [37%N; 80%N; 68%N; 70%N]
                (u "notes") (u "notes_1700000000") (u "aa") (u "detailed")
                4 7 [[1%N]; [2%N]; [3%N]] fresh 1 [2%N] eq_refl eq_refl) as H.
  cbv zeta in H.
  destruct H as (explanation & audio & Hin & Hexp & Haudio & _).
  { split; [reflexivity|exact I]. }
  exists explanation, audio. split; [exact Hin|]. split.
  - apply (Hexp quota_exceeded). reflexivity.
  - apply (Haudio unavailable_503). reflexivity.
Defined.

(** ** Deduplication *)

Lemma bind_ext {S A B} (m : prog S A) (k1 k2 : A -> prog S B) (s : S) :
  (forall a s', m s = (Returns a, s') -> k1 a s' = k2 a s') ->
  bind m k1 s = bind m k2 s.
Proof.
  intros Hk. unfold bind. destruct (m s) as [[a|e] s']; [by apply Hk | done].
Qed.

(** On a known hash the route saves the upload to its temporary file,
    links the user, removes the file and gives the [existing]
    response. *)
Lemma process_pdf_on_known_hash w req file row s :
  files_file req = Some file ->
  filename file <> [] ->
  endswith (filename file) (u ".pdf") = true ->
  get_pdf_by_hash (calculate_file_hash w (stream file)) (db s) = Some row ->
  process_pdf w req s
  = (let! temp_pdf_path := lift (NamedTemporaryFile w) in
     lift (file_save w temp_pdf_path (stream file)) ;;;
     on_db (associate_pdf_with_user (store w) (CURRENT_TIMESTAMP w)
              (request_user_id req) (pdf_id row)) ;;;
     lift (os_remove w temp_pdf_path) ;;;
     ret (Jsonify (existing_body (file_path row)) 200)) s.
Proof.
  intros Hfile Hname Hpdf Hknown.
  unfold process_pdf. rewrite Hfile.
  rewrite (bool_decide_eq_false_2 _ Hname), Hpdf. cbn [negb].
  apply bind_ext. intros temp_pdf_path s1 [= _ <-].
  apply bind_ext. intros [] s2 [= _ <-].
  unfold bind at 1, gets at 1. by rewrite Hknown.
Qed.

(** C1: a PDF whose content hash a row of the catalog carries, uploaded
    under a name in [.pdf] by any user, leaves the table [pdfs] as it
    was, and nothing is rasterised, asked of the model or the speech
    service, or yielded.  A response that the route returns is the one
    [existing] response, with the key of that row; once the upload is
    saved to its temporary file the user is linked to the row, and once
    that file is removed the response is returned. *)
Theorem process_pdf_duplicate w req file row s :
  files_file req = Some file ->
  filename file <> [] ->
  endswith (filename file) (u ".pdf") = true ->
  unique_hashes (db s) ->
  row ∈ pdfs (db s) ->
  pdf_hash row = calculate_file_hash w (stream file) ->
  let answer := fst (process_pdf w req s) in
  let s' := snd (process_pdf w req s) in
  let existing :=
    Jsonify
      (JDict [ (u "type", JStr (u "existing"));
               (u "pdf_name", JStr (file_path row));
               (u "message",
                JStr (u "PDF already exists, associating with your account")) ])
      200 in
  pdfs (db s') = pdfs (db s)
  /\ pdfs_seq (db s') = pdfs_seq (db s)
  /\ model_calls s' = model_calls s
  /\ tts_calls s' = tts_calls s
  /\ yielded s' = yielded s
  /\ (forall r, answer = Returns r -> r = existing)
  /\ (forall temp_pdf_path,
        NamedTemporaryFile w = Returns temp_pdf_path ->
        file_save w temp_pdf_path (stream file) = Returns tt ->
        (exists link,
            link ∈ user_pdfs (db s')
            /\ user_id link = request_user_id req
            /\ link_pdf_id link = pdf_id row)
        /\ (os_remove w temp_pdf_path = Returns tt -> answer = Returns existing)).
Proof.
  intros Hfile Hname Hpdf Hunique Hrow Hhash. cbv zeta.
  rewrite (process_pdf_on_known_hash w req file row s Hfile Hname Hpdf).
  2: { unfold get_pdf_by_hash, select_pdf_by_hash.
       by rewrite <- Hhash, (find_by_key pdf_hash (pdfs (db s)) row Hunique Hrow). }
  unfold bind, lift, on_db, ret, existing_body.
  destruct (NamedTemporaryFile w) as [temp|e];
    [|cbn [fst snd]; split_and!; done].
  destruct (file_save w temp (stream file)) as [[]|e] eqn:Hsave;
    [|cbn [fst snd]; split_and!; try done;
      intros temp_pdf_path [= <-] Hsaved; congruence].
  destruct (associate_links (store w) (CURRENT_TIMESTAMP w)
              (request_user_id req) (pdf_id row) (db s))
    as (link_id & d' & -> & Hpdfs & Hseq & Hlinked).
  destruct (os_remove w temp) as [[]|e] eqn:Hremove;
    cbn [fst snd db with_db model_calls tts_calls yielded];
    split_and!; try done.
  - by intros r [= <-].
  - intros temp_pdf_path [= <-] _. split; [done|]. congruence.
Qed.

Lemma process_pdf_duplicate_notes :
  fst (process_pdf (demo explains) upload_of_notes (with_catalog two_uploads))
  = Returns
      (Jsonify
         (JDict [ (u "type", JStr (u "existing"));
                  (u "pdf_name", JStr (u "notes_1700000000"));
                  (u "message",
                   JStr (u "PDF already exists, associating with your account")) ])
         200).
Proof.
  pose proof (process_pdf_duplicate (demo explains) upload_of_notes
                {| filename := u "notes.pdf"; stream := [37%N; 80%N; 68%N; 70%N] |}
                {| pdf_id := 1; title := u "notes"; file_path := u "notes_1700000000";
                   pdf_hash := u "aa"; file_size := 10; page_count := 3;
                   created_at := timestamp |}
                (with_catalog two_uploads)) as H.
  cbv zeta in H.
  destruct H as (_ & _ & _ & _ & _ & _ & H).
  - reflexivity.
  - discriminate.
  - reflexivity.
  - apply (bool_decide_unpack _). vm_compute. exact I.
  - apply list_elem_of_here.
  - reflexivity.
  - destruct (H (u "/tmp/tmpab12cd34.pdf") eq_refl eq_refl) as [_ Hanswer].
    exact (Hanswer eq_refl).
Defined.

(** The scenario of the design document: bytes never seen before are
    ingested, which adds one row to [pdfs]; the same bytes uploaded
    again, under whatever name and by whatever user, get the [existing]
    response with the key the first upload was given, and [pdfs] stays
    as the first upload left it.  (The uploads are saved to the
    temporary file, the folder of the first is made, and the file is
    removed after the second.) *)
Lemma second_upload_is_existing w first second file1 file2 images temp size s :
  files_file first = Some file1 ->
  filename file1 <> [] ->
  endswith (filename file1) (u ".pdf") = true ->
  files_file second = Some file2 ->
  filename file2 <> [] ->
  endswith (filename file2) (u ".pdf") = true ->
  stream file2 = stream file1 ->
  get_pdf_by_hash (calculate_file_hash w (stream file1)) (db s) = None ->
  convert_from_path w (stream file1) = Returns images ->
  NamedTemporaryFile w = Returns temp ->
  file_save w temp (stream file1) = Returns tt ->
  os_makedirs w
    (os_path_join UPLOAD_FOLDER
       (clean_name w (splitext_root (os_path_basename (filename file1)))
        ++ u "_" ++ str_of_Z (time_time w))) = Returns tt ->
  getsize w temp = Returns size ->
  os_remove w temp = Returns tt ->
  exists key lines s1 s2,
    process_pdf w first s
    = (Returns (StreamingResponse
                  (Info (Z.of_nat (length images)) key :: lines)), s1)
    /\ length (pdfs (db s1)) = S (length (pdfs (db s)))
    /\ process_pdf w second s1
       = (Returns (Jsonify (existing_body key) 200), s2)
    /\ pdfs (db s2) = pdfs (db s1).
Proof.
  intros Hfile1 Hname1 Hpdf1 Hfile2 Hname2 Hpdf2 Hsame Hnew Himages
    Htemp Hsave Hfolder Hsize Hremove.
  set (hash := calculate_file_hash w (stream file1)) in *.
  set (key := clean_name w (splitext_root (os_path_basename (filename file1)))
              ++ u "_" ++ str_of_Z (time_time w)) in *.
  (* the first upload *)
  assert (exists lines s1 row,
             process_pdf w first s
             = (Returns (StreamingResponse
                           (Info (Z.of_nat (length images)) key :: lines)), s1)
             /\ pdfs (db s1) = pdfs (db s) ++ [row]
             /\ pdf_hash row = hash /\ file_path row = key)
    as (lines & s1 & row & Hrun1 & Hpdfs1 & Hhash & Hkey).
  { unfold process_pdf. rewrite Hfile1.
    rewrite (bool_decide_eq_false_2 _ Hname1), Hpdf1. cbn [negb].
    unfold bind at 1, lift at 1. rewrite Htemp.
    unfold bind at 1, lift at 1. rewrite Hsave.
    unfold bind at 1, gets at 1. fold hash. rewrite Hnew.
    unfold bind at 1, lift at 1. fold key. rewrite Hfolder.
    unfold bind at 1. rewrite best_effort_lift.
    unfold bind at 1. rewrite best_effort_lift.
    unfold bind at 1, lift at 1. rewrite Hsize.
    unfold bind at 1, gets at 1. unfold bind at 1.
    match goal with |- context [generate w ?a ?b ?c ?d ?e ?f ?g s] =>
      destruct (generate_returns w a b c d e f g images s Himages)
        as (s1 & lines & pdf_db_id & d1 & link_id
            & Hgen & Hstream & _ & _ & Hadd & Hlink)
    end.
    rewrite Hgen. unfold bind, gets, ret. unfold emitted in Hstream. rewrite Hstream.
    destruct (add_pdf_cases (store w) (CURRENT_TIMESTAMP w)
                (splitext_root (os_path_basename (filename file1))) key hash
                size (Z.of_nat (length images)) (db s))
      as [(row & Hsome & _)|(_ & d1' & Hadd' & Hpdfs & _)].
    { unfold get_pdf_by_hash in Hnew. congruence. }
    rewrite Hadd' in Hadd. injection Hadd as <- <-.
    destruct (associate_links (store w) (CURRENT_TIMESTAMP w)
                (request_user_id first) (pdfs_seq (db s) + 1) d1')
      as (link_id' & d2 & Hlink' & Hpdfs2 & _).
    rewrite Hlink' in Hlink. injection Hlink as _ Hdb.
    do 3 eexists. split; [reflexivity|]. rewrite <- Hdb, Hpdfs2, Hpdfs. done. }
  (* the second upload *)
  assert (get_pdf_by_hash (calculate_file_hash w (stream file2)) (db s1) = Some row)
    as Hknown.
  { rewrite Hsame. fold hash. unfold get_pdf_by_hash, select_pdf_by_hash.
    unfold get_pdf_by_hash, select_pdf_by_hash in Hnew.
    rewrite Hpdfs1, (find_app_none _ _ _ Hnew).
    simpl. by rewrite bool_decide_eq_true_2. }
  exists key, lines, s1.
  rewrite (process_pdf_on_known_hash w second file2 row s1 Hfile2 Hname2 Hpdf2 Hknown).
  unfold bind at 1, lift at 1. rewrite Htemp.
  unfold bind at 1, lift at 1. rewrite Hsame, Hsave.
  unfold bind at 1, on_db. rewrite Hkey.
  destruct (associate_links (store w) (CURRENT_TIMESTAMP w)
              (request_user_id second) (pdf_id row) (db s1))
    as (link_id & d' & -> & Hpdfs & _).
  unfold bind at 1, lift at 1. rewrite Hremove.
  eexists. split; [exact Hrun1|].
  split; [rewrite Hpdfs1, length_app; simpl; lia|].
  split; [reflexivity|]. cbn [db with_db]. done.
Qed.

(** ** The quiz *)

Section Quiz.
Context (w : world).

Lemma check_items_raises items e :
  check_items items = Raises e -> exn_cls e = ValueError.
Proof.
  induction items as [|item items IH]; simpl; [done|].
  unfold check_item.
  destruct item as [| | | | | |members]; try (by intros [= <-]).
  destruct (negb _ || negb _ || negb _); [by intros [= <-] | exact IH].
Qed.

Lemma check_items_returns items :
  check_items items = Returns tt -> Forall has_required_keys items.
Proof.
  induction items as [|item items IH]; simpl; [constructor|].
  unfold check_item.
  destruct item as [| | | | | |members]; try done.
  destruct (has_key (u "question") members) eqn:Hq,
           (has_key (u "options") members) eqn:Ho,
           (has_key (u "correctAnswer") members) eqn:Hc; try done.
  intros H. constructor; [|by apply IH]. by exists members.
Qed.

Lemma validate_quiz_raises quiz_data e :
  validate_quiz quiz_data = Raises e -> exn_cls e = ValueError.
Proof.
  destruct quiz_data; simpl; try (by intros [= <-]). apply check_items_raises.
Qed.

Lemma validate_quiz_returns quiz_data v :
  validate_quiz quiz_data = Returns v ->
  exists items, quiz_data = JList items /\ Forall has_required_keys items.
Proof.
  destruct quiz_data as [| | | | |items|]; simpl; try done.
  destruct v. intros H. exists items. split; [done|]. by apply check_items_returns.
Qed.

(** The whole of the quiz step, by the answers of the model, of
    [json.loads] and of the local tier. *)
Lemma quiz_from_explanations_run gcs_quiz_path local_quiz_path all_explanations s :
  let combined_text := join [newline; newline] all_explanations in
  let first := called s (quiz_prompt combined_text) in
  let second := called first (simple_prompt combined_text) in
  quiz_from_explanations w gcs_quiz_path local_quiz_path all_explanations s
  = match generate_content_text w (length (model_calls s))
            (quiz_prompt combined_text) None with
    | Raises e => (Raises e, first)
    | Returns text =>
        match json_loads w (clean_json_text text) with
        | Parsed quiz_data =>
            match validate_quiz quiz_data with
            | Returns _ =>
                match save_quiz w local_quiz_path quiz_data with
                | Returns _ => (Returns (Jsonify quiz_data 200), first)
                | Raises e => (Raises e, first)
                end
            | Raises e => (Raises e, first)
            end
        | Malformed _ =>
            match generate_content_text w (length (model_calls first))
                    (simple_prompt combined_text) None with
            | Raises _ => (Returns (Jsonify failed_body 500), second)
            | Returns simple_text =>
                match json_loads w (clean_json_text simple_text) with
                | Parsed simple_data =>
                    match save_quiz w local_quiz_path simple_data with
                    | Returns _ => (Returns (Jsonify simple_data 200), second)
                    | Raises _ => (Returns (Jsonify failed_body 500), second)
                    end
                | Malformed _ => (Returns (Jsonify failed_body 500), second)
                end
            end
        end
    end.
Proof.
  intros combined_text first second.
  unfold quiz_from_explanations. fold combined_text.
  unfold bind at 1, model_generate_content at 1. fold (called s (quiz_prompt combined_text)).
  fold first.
  destruct (generate_content_text w (length (model_calls s)) _ _) as [text|e];
    [|reflexivity].
  unfold try_catch_class, loads.
  unfold bind at 1, lift at 1.
  destruct (json_loads w (clean_json_text text)) as [quiz_data|msg].
  - unfold bind at 1, lift at 1.
    destruct (validate_quiz quiz_data) as [[]|e] eqn:Hcheck.
    + unfold bind at 1, lift at 1.
      destruct (save_quiz w local_quiz_path quiz_data) as [[]|e] eqn:Hsave.
      * destruct gcs_quiz_path as [path|].
        -- unfold bind at 1. by rewrite best_effort_lift.
        -- reflexivity.
      * assert (exn_cls e = OtherException) as ->.
        { unfold save_quiz in Hsave. destruct local_quiz_path as [path|]; [|done].
          destruct (write_text w path _); [done|]. by injection Hsave as <-. }
        by destruct (decide (OtherException = JSONDecodeError)).
    + rewrite (validate_quiz_raises _ _ Hcheck).
      by destruct (decide (ValueError = JSONDecodeError)).
  - cbn [exn_cls]. destruct (decide (JSONDecodeError = JSONDecodeError)); [|done].
    unfold bind at 1, try_catch at 1.
    unfold bind at 1, model_generate_content at 1.
    fold (called first (simple_prompt combined_text)). fold second.
    destruct (generate_content_text w (length (model_calls first)) _ _)
      as [simple_text|e']; [|reflexivity].
    unfold bind at 1, lift at 1.
    destruct (json_loads w (clean_json_text simple_text)) as [simple_data|msg'];
      [|reflexivity].
    unfold bind at 1, lift at 1.
    destruct (save_quiz w local_quiz_path simple_data) as [[]|e']; [|reflexivity].
    destruct gcs_quiz_path as [path|]; [|reflexivity].
    unfold bind at 1. unfold bind at 1. unfold lift at 1.
    by destruct (upload_file_returns (store w) (Text (json_dumps w simple_data)) path
                   (DEFAULT_BUCKET_NAME (store w)) (Some (u "application/json")))
      as [v ->].
Qed.

End Quiz.

Section QuizRoute.
Context (w : world).

(** A run of [generate_quiz] either answers before any quiz is asked of
    the model (a failure, or the quiz stored earlier in the remote or
    in the local tier), or comes to [answer_quiz] with explanations in
    hand. *)
Lemma generate_quiz_cases pdf_name s :
  (exists r s',
      generate_quiz w pdf_name s = (Returns r, s')
      /\ (is_failure r
          \/ (exists data quiz_data,
                 download_as_string (store w)
                   (GCS_QUIZ_PREFIX ++ pdf_name ++ u "/quiz.json")
                   (DEFAULT_BUCKET_NAME (store w)) = Returns (Some data)
                 /\ json_loads_bytes w data = Parsed quiz_data
                 /\ r = Jsonify quiz_data 200)
          \/ (exists quiz_data,
                 load_json_file w
                   (os_path_join
                      (os_path_join (os_path_join UPLOAD_FOLDER pdf_name)
                         (u "quiz_data"))
                      (pdf_name ++ u "_quiz.json")) = Parsed quiz_data
                 /\ r = Jsonify quiz_data 200)))
  \/ (exists gcs_quiz_path all_explanations s1,
         all_explanations <> []
         /\ generate_quiz w pdf_name s
            = answer_quiz w gcs_quiz_path (kept_at w pdf_name) all_explanations s1).
Proof.
  unfold generate_quiz, is_failure, kept_at.
  unfold try_catch, bind, ret, raise, lift.
  repeat match goal with
         | |- context [best_effort ?m ?s0] =>
             let s1 := fresh "s" in
             destruct (best_effort m s0) as [[[]|?] s1]
         | |- context [remote_explanations w ?n ?s0] =>
             let s1 := fresh "s" in
             destruct (remote_explanations w n s0) as [[[|? ?]|?] s1]
         | |- context [local_explanations w ?n ?s0] =>
             let s1 := fresh "s" in
             destruct (local_explanations w n s0) as [[[|? ?]|?] s1]
         | |- context [image_summaries w ?a ?b ?c ?d ?s0] =>
             let s1 := fresh "s" in
             destruct (image_summaries w a b c d s0) as [[[|? ?]|?] s1]
         | |- context [quiz_from_explanations w ?a ?b ?c ?s0] =>
             change (quiz_from_explanations w a b c s0)
               with (id (quiz_from_explanations w a b c) s0)
         | |- context [bool_decide ?P] => destruct (bool_decide P)
         | |- context [check_if_file_exists ?a ?b ?c] =>
             destruct (check_if_file_exists a b c) as [[]|]
         | |- context [download_as_string ?a ?b ?c] =>
             let H := fresh "Hstored" in
             destruct (download_as_string a b c) as [[[|? ?]|]|] eqn:H
         | |- context [json_loads_bytes w ?d] =>
             let H := fresh "Hload" in
             destruct (json_loads_bytes w d) eqn:H
         | |- context [load_json_file w ?d] =>
             let H := fresh "Hload" in
             destruct (load_json_file w d) eqn:H
         | |- context [os_makedirs w ?p] => destruct (os_makedirs w p) as [[]|]
         | |- context [os_path_exists w ?p] => destruct (os_path_exists w p)
         | _ => progress (cbn beta iota delta [negb andb orb app])
         end;
    first
      [ right; do 3 eexists; split;
        [|unfold answer_quiz, try_catch, ret, id; reflexivity]; discriminate
      | left; do 2 eexists; split; [reflexivity|]; left;
        do 2 eexists; split; [reflexivity|]; solve [auto]
      | left; do 2 eexists; split; [reflexivity|]; right; left; solve [eauto]
      | left; do 2 eexists; split; [reflexivity|]; right; right; solve [eauto] ].
Qed.

End QuizRoute.

(** C2, as the design document has it, fails on a PDF with one
    explanation page when the model answers with one question that has
    a single option and the letter E: the answer passes the check and is
    returned with status 200. *)
Lemma quiz_of_one_odd_question :
  fst (local_explanations (demo (fun _ => Returns one_odd_question_text))
         (u "uploads/notes_1/text_files") fresh)
  = Returns [u "Photosynthesis turns light into sugar."]
  /\ fst (generate_quiz (demo (fun _ => Returns one_odd_question_text))
            (u "notes_1") fresh)
     = Returns (Jsonify one_odd_question 200)
  /\ ~ five_questions_or_failure (Jsonify one_odd_question 200).
Proof.
  split; [vm_compute; reflexivity|]. split; [vm_compute; reflexivity|].
  intros [(items & Heq & Hlen & _)|(msg & code & Heq & _)].
  - injection Heq as <-. discriminate Hlen.
  - discriminate Heq.
Qed.

(** C2, amended: [generate_quiz] always answers, and its answer for
    [pdf_name] is one of these: a failure (an error body with status
    404 or 500); the quiz stored earlier under the key of the PDF in
    the remote tier or in its local file, as it parses; the value the
    model's answer to the quiz request parses to, when that is a list
    whose every item is an object with the keys [question], [options]
    and [correctAnswer] (however many items, whatever the options and
    the letter) and it could be kept in the local tier, where the PDF
    has a folder; or the value the model's answer to the second,
    simpler request parses to, kept likewise, which is not checked.
    The requests are the last calls in the log of the calls to the
    model. *)
Theorem generate_quiz_answers w pdf_name s :
  exists r s',
    generate_quiz w pdf_name s = (Returns r, s') /\ quiz_answer w pdf_name s' r.
Proof.
  destruct (generate_quiz_cases w pdf_name s)
    as [(r & s' & Hrun & [(msg & code & -> & Hcode)
                         |[(data & quiz_data & Hstored & Hload & ->)
                          |(quiz_data & Hload & ->)]])
       |(gcs_quiz_path & all_explanations & s1 & Hsome & Hrun)].
  - exists (Jsonify (error_body msg) code), s'. split; [done|]. by constructor.
  - exists (Jsonify quiz_data 200), s'. split; [done|].
    by apply answer_stored_remote with data.
  - exists (Jsonify quiz_data 200), s'. split; [done|].
    by apply answer_stored_local.
  - rewrite Hrun. unfold answer_quiz, try_catch.
    rewrite quiz_from_explanations_run.
    set (combined_text := join [newline; newline] all_explanations).
    destruct (generate_content_text w (length (model_calls s1)) _ _)
      as [text|e] eqn:Hfirst.
    + destruct (json_loads w (clean_json_text text)) as [quiz_data|msg] eqn:Hparse.
      * destruct (validate_quiz quiz_data) as [v|e] eqn:Hcheck.
        -- apply validate_quiz_returns in Hcheck as (items & -> & Hitems).
           destruct (save_quiz w (kept_at w pdf_name) (JList items))
             as [[]|e] eqn:Hsave.
           ++ do 2 eexists. split; [reflexivity|].
              by apply answer_checked
                   with (model_calls s1) all_explanations text.
           ++ do 2 eexists. split; [reflexivity|]. constructor. by right.
        -- do 2 eexists. split; [reflexivity|]. constructor. by right.
      * destruct (generate_content_text w _ (simple_prompt combined_text) None)
          as [simple_text|e] eqn:Hsecond.
        -- destruct (json_loads w (clean_json_text simple_text))
             as [simple_data|msg'] eqn:Hparse'.
           ++ destruct (save_quiz w (kept_at w pdf_name) simple_data)
                as [[]|e] eqn:Hsave.
              ** do 2 eexists. split; [reflexivity|].
                 apply answer_unchecked
                   with text msg simple_text (model_calls s1) all_explanations;
                   try done.
                 --- unfold called. cbn [model_calls]. by rewrite <- app_assoc.
                 --- revert Hsecond. unfold called. cbn [model_calls].
                     rewrite length_app. cbn [length].
                     by rewrite Nat.add_1_r.
              ** do 2 eexists. split; [reflexivity|]. constructor. by right.
           ++ do 2 eexists. split; [reflexivity|]. constructor. by right.
        -- do 2 eexists. split; [reflexivity|]. constructor. by right.
    + do 2 eexists. split; [reflexivity|]. constructor. by right.
Qed.





(** * Further properties of the code *)

Import Further.

(** ** The content hash *)

Lemma read_chunks_all fuel rest fed :
  (length rest < fuel)%nat -> read_chunks fuel rest fed = fed ++ rest.
Proof.
  revert rest fed. induction fuel as [|fuel IH]; intros rest fed Hfuel; [lia|].
  cbn [read_chunks].
  assert (0 < chunk_size)%nat as Hsize by (unfold chunk_size; lia).
  destruct rest as [|b rest]; [by rewrite take_nil, app_nil_r|].
  destruct chunk_size as [|n] eqn:Hn; [lia|].
  cbn [take]. rewrite IH.
  - cbn [drop]. rewrite <- app_assoc. cbn [app]. by rewrite take_drop.
  - cbn [drop length] in *. rewrite length_drop. lia.
Qed.

(** Reading the file in chunks changes nothing: the content hash is the
    digest of the bytes of the file, whatever their number. *)
Theorem calculate_file_hash_whole_file (w : world) (file : bytes) :
  calculate_file_hash w file = sha256_hexdigest w file.
Proof.
  unfold calculate_file_hash. rewrite read_chunks_all by lia. done.
Qed.

(** ** The text sent to the speech service *)

Lemma closing_at s n :
  closing s = Some n -> s !! n = Some star /\ s !! S n = Some star.
Proof.
  revert n. induction s as [|a s IH]; intros n; [done|].
  cbn [closing]. destruct s as [|b s]; [done|].
  destruct ((a =? star) && (b =? star))%N eqn:Hab.
  - intros [= <-]. apply andb_prop in Hab as [Ha Hb].
    apply N.eqb_eq in Ha, Hb. by subst.
  - destruct (a =? newline)%N; [done|].
    destruct (closing (b :: s)) as [m|] eqn:Hm; [|done].
    intros [= <-]. by apply IH.
Qed.

Lemma remove_star_sub_bold opening keep shut s :
  stars_at 0 opening s ->
  stars_at (opening + keep) shut s ->
  remove_char star (sub_bold opening keep shut s) = remove_char star s.
Proof.
  unfold remove_char.
  revert opening keep shut.
  induction s as [|c s IH]; intros opening keep shut Hopen Hshut; [done|].
  cbn [sub_bold]. destruct opening as [|opening].
  - destruct keep as [|keep].
    + destruct shut as [|shut].
      * destruct s as [|b rest]; [done|].
        destruct ((c =? star) && (b =? star))%N eqn:Hcb.
        -- apply andb_prop in Hcb as [Hc Hb]. apply N.eqb_eq in Hc, Hb. subst c b.
           destruct (closing rest) as [n|] eqn:Hn.
           ++ rewrite (filter_cons_False _ star) by (intros H; by apply H).
              apply closing_at in Hn as [H1 H2].
              apply IH.
              ** intros j c Hj Hc. assert (j = 0%nat) as -> by lia.
                 by injection Hc as <-.
              ** intros j c Hj Hc.
                 assert (j = S n \/ j = S (S n)) as [->| ->] by lia.
                 --- assert (Some c = Some star) as [= ->]
                       by (rewrite <- H1; symmetry; exact Hc).
                     done.
                 --- assert (Some c = Some star) as [= ->]
                       by (rewrite <- H2; symmetry; exact Hc).
                     done.
           ++ rewrite !(filter_cons_False _ star) by (intros H; by apply H).
              rewrite IH; [|intros j c Hj; lia|intros j c Hj; lia].
              by rewrite (filter_cons_False _ star) by (intros H; by apply H).
        -- destruct (decide (c = star)) as [->|Hc].
           ++ rewrite !(filter_cons_False _ star) by (intros H; by apply H).
              apply IH; intros j c Hj; lia.
           ++ rewrite !(filter_cons_True _ c) by done. f_equal.
              apply IH; intros j d Hj; lia.
      * assert (c = star) as -> by (apply (Hshut 0%nat); [lia|done]).
        rewrite (filter_cons_False _ star) by (intros H; by apply H).
        apply IH; [intros j c Hj; lia|].
        intros j c Hj Hc. apply (Hshut (S j)); [lia|done].
    + destruct (decide (c = star)) as [->|Hc].
      * rewrite !(filter_cons_False _ star) by (intros H; by apply H).
        apply IH; [intros j c Hj; lia|].
        intros j c Hj Hc. apply (Hshut (S j)); [lia|done].
      * rewrite !(filter_cons_True _ c) by done. f_equal.
        apply IH; [intros j d Hj; lia|].
        intros j d Hj Hd. apply (Hshut (S j)); [lia|done].
  - assert (c = star) as -> by (apply (Hopen 0%nat); [lia|done]).
    rewrite (filter_cons_False _ star) by (intros H; by apply H).
    apply IH.
    + intros j c Hj Hc. apply (Hopen (S j)); [lia|done].
    + intros j c Hj Hc. apply (Hshut (S j)); [lia|done].
Qed.

(** [speech_text_of] without its first substitution. *)
Lemma speech_text_of_plain (page_number : Z) (explanation : str) :
  speech_text_of page_number explanation
  = let plain := remove_char star explanation in
    let text :=
      if bool_decide (strip plain = [])
      then u "Page " ++ str_of_Z page_number ++
           u " content could not be processed properly."
      else plain in
    if bool_decide (5000 < Z.of_nat (length text))
    then take (Z.to_nat 5000) text ++
         u "... The rest of the content has been truncated for processing."
    else text.
Proof.
  unfold speech_text_of.
  rewrite remove_star_sub_bold; [done | |]; intros j c Hj; lia.
Qed.

(** The first substitution changes nothing in the end: what is sent is
    the explanation without its asterisks, the sentence that stands in
    for a blank text, or the first 5000 characters with a notice. *)
Theorem speech_text_without_stars (page_number : Z) (explanation : str) :
  speech_text_of page_number explanation
  = let plain := remove_char star explanation in
    let text :=
      if bool_decide (strip plain = [])
      then u "Page " ++ str_of_Z page_number ++
           u " content could not be processed properly."
      else plain in
    if bool_decide (5000 < Z.of_nat (length text))
    then take (Z.to_nat 5000) text ++
         u "... The rest of the content has been truncated for processing."
    else text.
Proof. apply speech_text_of_plain. Qed.

Lemma elem_of_dropwhile f c s :
  c ∈ s -> f c = false -> c ∈ dropwhile f s.
Proof.
  intros Hc Hf. induction s as [|d s IH]; [done|].
  cbn [dropwhile]. destruct (f d) eqn:Hd; [|done].
  apply elem_of_cons in Hc as [->|Hc]; [congruence | by apply IH].
Qed.

Lemma elem_of_rev (c : N) (s : str) : c ∈ rev s <-> c ∈ s.
Proof. rewrite !list_elem_of_In. symmetry. apply in_rev. Qed.

Lemma elem_of_strip c s : c ∈ s -> isspace c = false -> c ∈ strip s.
Proof.
  intros Hc Hspace. unfold strip, lstrip.
  apply elem_of_rev, elem_of_dropwhile; [|done].
  apply elem_of_rev. by apply elem_of_dropwhile.
Qed.

Lemma pretty_N_go_digits (x : N) (s : string) :
  Forall (fun c => (48 <= c <= 57)%N \/ c = 45%N) (u s) ->
  Forall (fun c => (48 <= c <= 57)%N \/ c = 45%N) (u (pretty_N_go x s)).
Proof.
  revert s. induction (N.lt_wf_0 x) as [x _ IH]; intros s Hs.
  assert (x = 0 \/ 0 < x)%N as [->|Hx] by lia.
  - by rewrite pretty_N_go_0.
  - rewrite pretty_N_go_step by done. apply IH.
    { by apply N.div_lt. }
    change (u (String ?a ?t)) with (N_of_ascii a :: u t).
    constructor; [|done]. left.
    unfold pretty_N_char. repeat case_match; vm_compute; split; discriminate.
Qed.

(** [str(n)] is made of digits, after a dash when [n] is negative. *)
Lemma str_of_Z_digits (z : Z) :
  Forall (fun c => (48 <= c <= 57)%N \/ c = 45%N) (str_of_Z z).
Proof.
  assert (forall p : positive,
             Forall (fun c => (48 <= c <= 57)%N \/ c = 45%N)
               (u (pretty (Npos p)))) as Hpos.
  { intros p. unfold pretty, pretty_N.
    destruct (decide (N.pos p = 0%N)); [done|].
    apply pretty_N_go_digits. constructor. }
  unfold str_of_Z. destruct z as [|p|p].
  - change (u (pretty 0)) with [48%N]. constructor; [left; lia | constructor].
  - apply Hpos.
  - change (pretty (Z.neg p)) with (String.append "-" (pretty (N.pos p))).
    change (u (String.append "-" ?t)) with (45%N :: u t).
    constructor; [by right | apply Hpos].
Qed.

(** What is sent to the speech service is never blank, never longer
    than 5062 characters, and holds no asterisk. *)
Theorem speech_text_fit_for_speech (page_number : Z) (explanation : str) :
  strip (speech_text_of page_number explanation) <> []
  /\ Z.of_nat (length (speech_text_of page_number explanation)) <= 5062
  /\ star ∉ speech_text_of page_number explanation.
Proof.
  rewrite speech_text_of_plain. cbv zeta.
  set (plain := remove_char star explanation).
  set (sentence := u "Page " ++ str_of_Z page_number ++
                   u " content could not be processed properly.").
  set (notice := u "... The rest of the content has been truncated for processing.").
  assert (star ∉ plain) as Hplain.
  { unfold plain, remove_char. intros H. apply list_elem_of_filter in H as [H _].
    by apply H. }
  assert (star ∉ sentence) as Hsentence.
  { unfold sentence. rewrite !elem_of_app. intros [H|[H|H]].
    - revert H. apply (bool_decide_unpack _). vm_compute. exact I.
    - pose proof (str_of_Z_digits page_number) as Hd.
      rewrite Forall_forall in Hd. destruct (Hd star H) as [[H1 _]|H1];
        [by compute in H1 | discriminate H1].
    - revert H. apply (bool_decide_unpack _). vm_compute. exact I. }
  assert (46%N ∈ sentence) as Hdot.
  { unfold sentence. rewrite !elem_of_app. right. right.
    apply (bool_decide_unpack _). vm_compute. exact I. }
  set (text := if bool_decide (strip plain = []) then sentence else plain).
  assert (star ∉ text) as Htext by (unfold text; by case_bool_decide).
  assert (strip text <> []) as Hblank.
  { unfold text. case_bool_decide; [|done].
    intros Hnil. apply (elem_of_strip 46%N) in Hdot; [|done].
    rewrite Hnil in Hdot. by apply elem_of_nil in Hdot. }
  case_bool_decide as Hlong.
  - split_and!.
    + intros Hnil.
      assert (46%N ∈ take (Z.to_nat 5000) text ++ notice) as Hin.
      { apply elem_of_app. right. apply (bool_decide_unpack _). vm_compute. exact I. }
      apply (elem_of_strip 46%N) in Hin; [|done].
      rewrite Hnil in Hin. by apply elem_of_nil in Hin.
    + rewrite length_app, length_take.
      change (length notice) with 62%nat. lia.
    + rewrite elem_of_app. intros [H|H].
      * apply Htext. by apply (subseteq_take (Z.to_nat 5000) text).
      * revert H. apply (bool_decide_unpack _). vm_compute. exact I.
  - split_and!; [done | lia | done].
Qed.

(** ** More on the ingestion stream *)

(** The progress announced with a page lies between 30 and 94 and does
    not go down from one page to the next. *)
Theorem progress_between_30_and_95 w pdf name pdf_id hash difficulty_level
    size user images s :
  convert_from_path w pdf = Returns images ->
  let stream :=
    emitted s (snd (generate w pdf name pdf_id hash difficulty_level size user s)) in
  (forall progress page total,
      (progress, page, total) ∈ omap progress_of stream ->
      30 <= progress <= 94)
  /\ (forall progress1 page1 progress2 page2 total,
      (progress1, page1, total) ∈ omap progress_of stream ->
      (progress2, page2, total) ∈ omap progress_of stream ->
      page1 <= page2 -> progress1 <= progress2).
Proof.
  intros Himages stream.
  destruct (progress_of_generate w pdf name pdf_id hash difficulty_level size user
              images s Himages) as (pages & Hpages & Hstream & _).
  fold stream in Hstream. rewrite Hstream. clear Hstream.
  set (n := Z.of_nat (length images)) in *.
  split.
  - intros progress page total Hin.
    apply list_elem_of_fmap in Hin as (k & [= -> -> ->] & Hk).
    apply elem_of_seqZ in Hk.
    assert (0 <= (k - 1) * 65 / n) by (apply Z.div_pos; lia).
    assert ((k - 1) * 65 / n < 65) by (apply Z.div_lt_upper_bound; nia).
    lia.
  - intros progress1 page1 progress2 page2 total Hin1 Hin2 Hle.
    apply list_elem_of_fmap in Hin1 as (k1 & [= -> -> ->] & Hk1).
    apply list_elem_of_fmap in Hin2 as (k2 & [= -> ->] & Hk2).
    apply elem_of_seqZ in Hk1, Hk2.
    apply Z.add_le_mono_l, Z.div_le_mono; lia.
Qed.

Lemma progress_between_30_and_95_notes :
  (forall progress page total,
      (progress, page, total)
      ∈ omap progress_of
          (emitted fresh
             (snd (generate (demo explains) [37%N; 80%N; 68%N; 70%N] (u "notes")
                     (u "notes_1700000000") (u "aa") (u "detailed") 4 7 fresh))) ->
      30 <= progress <= 94)
  /\ (forall progress1 page1 progress2 page2 total,
      (progress1, page1, total)
      ∈ omap progress_of
          (emitted fresh
             (snd (generate (demo explains) [37%N; 80%N; 68%N; 70%N] (u "notes")
                     (u "notes_1700000000") (u "aa") (u "detailed") 4 7 fresh))) ->
      (progress2, page2, total)
      ∈ omap progress_of
          (emitted fresh
             (snd (generate (demo explains) [37%N; 80%N; 68%N; 70%N] (u "notes")
                     (u "notes_1700000000") (u "aa") (u "detailed") 4 7 fresh))) ->
      page1 <= page2 -> progress1 <= progress2).
Proof.
  exact (progress_between_30_and_95 (demo explains) [37%N; 80%N; 68%N; 70%N]
           (u "notes") (u "notes_1700000000") (u "aa") (u "detailed")
           4 7 [[1%N]; [2%N]; [3%N]] fresh eq_refl).
Defined.

(** Ingesting a PDF whose hash the catalog does not know, and which the
    rasteriser turns into [N] pages, leaves in the catalog one more row,
    with the key, the size and the page count [N] of the upload, and a
    link from the user to it, wherever the run ends.  The model and the
    speech service are asked at most [N] times each; when the stream
    comes to its completion they have been asked exactly [N] times
    each, whatever they answered. *)
Theorem generate_records_the_pdf w pdf name pdf_id hash difficulty_level
    size user images s :
  convert_from_path w pdf = Returns images ->
  get_pdf_by_hash hash (db s) = None ->
  let after := snd (generate w pdf name pdf_id hash difficulty_level size user s) in
  (length (model_calls s) <= length (model_calls after)
   <= length (model_calls s) + length images)%nat
  /\ (length (tts_calls s) <= length (tts_calls after)
      <= length (tts_calls s) + length images)%nat
  /\ (Complete pdf_id ∈ emitted s after ->
      length (model_calls after) = (length (model_calls s) + length images)%nat
      /\ length (tts_calls after) = (length (tts_calls s) + length images)%nat)
  /\ (exists row,
        pdfs (db after) = pdfs (db s) ++ [row]
        /\ get_pdf_by_hash hash (db after) = Some row
        /\ title row = name /\ file_path row = pdf_id
        /\ file_size row = size
        /\ page_count row = Z.of_nat (length images)
        /\ exists link,
             link ∈ user_pdfs (db after)
             /\ user_id link = user
             /\ link_pdf_id link = Database.pdf_id row).
Proof.
  intros Himages Hnew after.
  assert (Complete pdf_id ∈ emitted s after ->
          length (model_calls after) = (length (model_calls s) + length images)%nat
          /\ length (tts_calls after) = (length (tts_calls s) + length images)%nat)
    as Hdone.
  { intros Hdone. subst after.
    pose proof (generate_complete w pdf name pdf_id hash difficulty_level size user
                  images s Himages Hdone) as Hgoes.
    destruct (generate_run w pdf name pdf_id hash difficulty_level size user
                images s Himages Hgoes) as (s' & Hrun & _ & Hm & Ht & _).
    rewrite Hrun. cbn [snd]. done. }
  revert Hdone. subst after.
  destruct (generate_returns w pdf name pdf_id hash difficulty_level size user
              images s Himages)
    as (s' & lines & pdf_db_id & d1 & link_id & Hrun & _ & Hm & Ht & Hadd & Hlink).
  rewrite Hrun. cbn [snd]. intros Hdone.
  split; [done|]. split; [done|]. split; [done|].
  destruct (add_pdf_cases (store w) (CURRENT_TIMESTAMP w) name pdf_id hash size
              (Z.of_nat (length images)) (db s))
    as [(row & Hsome & _)|(_ & d1' & Hadd' & Hpdfs & Hlinks & _)].
  { unfold get_pdf_by_hash in Hnew. congruence. }
  rewrite Hadd' in Hadd. injection Hadd as <- <-.
  eexists.
  destruct (associate_links (store w) (CURRENT_TIMESTAMP w) user
              (pdfs_seq (db s) + 1) d1')
    as (link_id' & d2 & Hlink' & Hsame & _ & Hlinked).
  rewrite Hlink' in Hlink. injection Hlink as _ <-.
  rewrite Hsame, Hpdfs. split; [reflexivity|].
  split.
  { unfold get_pdf_by_hash, select_pdf_by_hash in *.
    rewrite Hsame, Hpdfs, (find_app_none _ _ _ Hnew). simpl.
    by rewrite bool_decide_eq_true_2. }
  cbn [title file_path file_size page_count Database.pdf_id]. done.
Qed.

Lemma generate_records_the_pdf_notes :
  length (model_calls
            (snd (generate (demo explains) [37%N; 80%N; 68%N; 70%N] (u "notes")
                    (u "notes_1700000000") (u "aa") (u "detailed") 4 7 fresh)))
  = 3%nat.
Proof.
  refine (proj1 (proj1 (proj2 (proj2
            (generate_records_the_pdf (demo explains) [37%N; 80%N; 68%N; 70%N]
               (u "notes") (u "notes_1700000000") (u "aa") (u "detailed")
               4 7 [[1%N]; [2%N]; [3%N]] fresh eq_refl eq_refl))) _)).
  vm_compute. repeat first [apply list_elem_of_here | apply list_elem_of_further].
Defined.

(** The generator on a PDF the rasteriser cannot read. *)
Lemma generate_on_unreadable_pdf w pdf name pdf_id hash difficulty_level
    size user e s :
  convert_from_path w pdf = Raises e ->
  generate w pdf name pdf_id hash difficulty_level size user s
  = (Returns tt,
     {| db := db s; model_calls := model_calls s; tts_calls := tts_calls s;
        yielded := yielded s ++ [Error (exn_msg e)] |}).
Proof.
  intros Hraise. unfold generate, try_catch, bind, lift. by rewrite Hraise.
Qed.

(** ** The route [/process-pdf] as a whole *)

(** An accepted upload with a hash the catalog does not know: once
    the upload is kept in the local tier, the answer is the stream of
    the generator; and an exception of one of the local steps leaves
    the route, with the state as it was. *)
Lemma process_pdf_on_new_hash w req file s :
  files_file req = Some file ->
  accepted req = true ->
  get_pdf_by_hash (calculate_file_hash w (stream file)) (db s) = None ->
  process_pdf w req s
  = match kept_for_ingestion w file (key_of w file) with
    | Returns size =>
        let run :=
          generate w (stream file)
            (splitext_root (os_path_basename (filename file))) (key_of w file)
            (calculate_file_hash w (stream file))
            (default (u "detailed") (form_difficulty_level req))
            size (request_user_id req) s in
        (Returns (StreamingResponse (emitted s (snd run))), snd run)
    | Raises e => (Raises e, s)
    end.
Proof.
  intros Hfile Hok Hnew. unfold accepted in Hok. rewrite Hfile in Hok.
  apply andb_prop in Hok as [Hname Hpdf].
  unfold process_pdf, kept_for_ingestion. rewrite Hfile.
  destruct (bool_decide (filename file = [])); [done|]. rewrite Hpdf. cbn [negb].
  unfold bind at 1, lift at 1.
  destruct (NamedTemporaryFile w) as [temp|e]; [|done].
  unfold bind at 1, lift at 1.
  destruct (file_save w temp (stream file)) as [[]|e]; [|done].
  unfold bind at 1, gets at 1. rewrite Hnew.
  unfold bind at 1, lift at 1. fold (key_of w file).
  destruct (os_makedirs w (os_path_join UPLOAD_FOLDER (key_of w file)))
    as [[]|e]; [|done].
  unfold bind at 1. rewrite best_effort_lift.
  unfold bind at 1. rewrite best_effort_lift.
  unfold bind at 1, lift at 1.
  destruct (getsize w temp) as [size|e]; [|done].
  unfold bind at 1, gets at 1. unfold bind at 1.
  match goal with |- context [generate w ?a ?b ?c ?d ?l ?f ?g s] =>
    destruct (convert_from_path w a) as [images|e] eqn:Hconvert;
    [ destruct (generate_returns w a b c d l f g images s Hconvert)
        as (s1 & lines & key & d1 & link & Hgen & _)
    | destruct (generate_run_error w a b c d l f g e s Hconvert) as (s1 & Hgen & _) ]
  end; rewrite Hgen; reflexivity.
Qed.

(** When the local steps return, they return the size. *)
Lemma kept_for_ingestion_returns w file temp size :
  NamedTemporaryFile w = Returns temp ->
  file_save w temp (stream file) = Returns tt ->
  os_makedirs w (os_path_join UPLOAD_FOLDER (key_of w file)) = Returns tt ->
  getsize w temp = Returns size ->
  kept_for_ingestion w file (key_of w file) = Returns size.
Proof. unfold kept_for_ingestion. by intros -> -> -> ->. Qed.

(** When the local steps raise, one of them has. *)
Lemma kept_for_ingestion_raises w file e :
  kept_for_ingestion w file (key_of w file) = Raises e -> local_step_raises w file e.
Proof.
  unfold kept_for_ingestion, local_step_raises.
  destruct (NamedTemporaryFile w) as [temp|e0]; [|intros [= ->]; by left].
  intros Hraise. right. exists temp. split; [done|].
  destruct (file_save w temp (stream file)) as [[]|e1]; [|left; congruence].
  destruct (os_makedirs w _) as [[]|e2]; [|right; right; left; congruence].
  by do 3 right.
Qed.

(** An accepted upload whose content the catalog does not know and the
    rasteriser cannot read leaves the catalog as it was, so that the
    same file is not known at its next upload, and neither the model
    nor the speech service is asked anything; the only response the
    route returns to it is a stream of one event, the error with the
    message of the exception, and it does return it once the upload is
    kept in the local tier: the temporary file made, the upload saved,
    the folder of the PDF made and the size of the file read. *)
Theorem process_pdf_unreadable w req file e s :
  files_file req = Some file ->
  accepted req = true ->
  get_pdf_by_hash (calculate_file_hash w (stream file)) (db s) = None ->
  convert_from_path w (stream file) = Raises e ->
  let answer := fst (process_pdf w req s) in
  let s' := snd (process_pdf w req s) in
  db s' = db s
  /\ model_calls s' = model_calls s
  /\ tts_calls s' = tts_calls s
  /\ (forall r, answer = Returns r -> r = StreamingResponse [Error (exn_msg e)])
  /\ (forall temp size,
        NamedTemporaryFile w = Returns temp ->
        file_save w temp (stream file) = Returns tt ->
        os_makedirs w (os_path_join UPLOAD_FOLDER (key_of w file)) = Returns tt ->
        getsize w temp = Returns size ->
        answer = Returns (StreamingResponse [Error (exn_msg e)])).
Proof.
  intros Hfile Hok Hnew Hraise. cbv zeta.
  rewrite (process_pdf_on_new_hash w req file s Hfile Hok Hnew).
  destruct (kept_for_ingestion w file (key_of w file)) as [size|e0] eqn:Hkept.
  - cbv zeta. rewrite (generate_on_unreadable_pdf _ _ _ _ _ _ _ _ e s Hraise).
    cbn [fst snd db model_calls tts_calls]. unfold emitted. cbn [yielded].
    rewrite drop_app_length. split_and!; try done. by intros r [= <-].
  - cbn [fst snd]. split_and!; try done.
    intros temp size Htemp Hsave Hfolder Hsize.
    rewrite (kept_for_ingestion_returns w file temp size Htemp Hsave Hfolder Hsize)
      in Hkept.
    done.
Qed.

(** [add_pdf] keeps the catalog sound, and the key it returns is the
    key of a row of [pdfs]. *)
Lemma add_pdf_keeps_sound w now title path hash size pages d :
  sound d ->
  exists key d',
    add_pdf w now title path hash size pages d = (Returns key, d')
    /\ sound d'
    /\ exists row, row ∈ pdfs d' /\ pdf_id row = key /\ pdf_hash row = hash.
Proof.
  intros [Hhashes Hlinks Hkeys Hcounter Hforeign].
  pose proof (add_pdf_keeps_unique_hashes w now title path hash size pages d Hhashes)
    as Hhashes'.
  destruct (add_pdf_cases w now title path hash size pages d)
    as [(row & Hfind & Hadd)|(Hfind & d' & Hadd & Hpdfs & Hlinks' & Hseq)];
    rewrite Hadd in *; cbn [snd] in Hhashes'.
  - exists (pdf_id row), d. split; [done|]. split; [done|].
    apply find_some in Hfind as [Hin Hhash].
    apply bool_decide_eq_true_1 in Hhash. rewrite <- list_elem_of_In in Hin.
    by exists row.
  - assert (pdfs_seq d' = pdfs_seq d + 1) as Hcount.
    { unfold add_pdf, add_pdf_after_select, bind, gets, ret in Hadd.
      rewrite Hfind in Hadd. unfold insert_into_pdfs in Hadd.
      unfold select_pdf_by_hash in Hfind.
      rewrite (existsb_find_none _ _ Hfind) in Hadd.
      unfold lift in Hadd.
      destruct (sync_db_to_cloud_returns w) as [b Hsync]. rewrite Hsync in Hadd.
      by injection Hadd as <-. }
    exists (pdfs_seq d + 1), d'. split; [done|]. split.
    + split.
      * done.
      * unfold unique_links. by rewrite Hlinks'.
      * rewrite Hpdfs, map_app. apply NoDup_app. split; [done|].
        split; [|apply NoDup_singleton].
        cbn [map pdf_id]. intros key Hin Hkey.
        apply list_elem_of_singleton in Hkey as ->.
        apply list_elem_of_fmap in Hin as (r & Heq & Hin).
        apply Hcounter in Hin. lia.
      * intros r. rewrite Hpdfs, Hcount.
        intros [Hin| ->%list_elem_of_singleton]%elem_of_app.
        -- apply Hcounter in Hin. lia.
        -- cbn [pdf_id]. lia.
      * intros l. rewrite Hlinks'. intros (r & Hin & Hr)%Hforeign.
        exists r. split; [|done]. rewrite Hpdfs. apply elem_of_app. by left.
    + eexists. rewrite Hpdfs.
      split; [apply elem_of_app; right; apply list_elem_of_here|]. done.
Qed.

(** [associate_pdf_with_user] with the key of a row of [pdfs] keeps
    the catalog sound, and leaves [pdfs] as it was. *)
Lemma associate_keeps_sound w now user pdf d :
  sound d ->
  (exists row, row ∈ pdfs d /\ pdf_id row = pdf) ->
  exists link d',
    associate_pdf_with_user w now user pdf d = (Returns link, d')
    /\ sound d' /\ pdfs d' = pdfs d.
Proof.
  intros [Hhashes Hlinks Hkeys Hcounter Hforeign] (row & Hrow & Hpdf).
  pose proof (associate_keeps_unique_links w now user pdf d Hlinks) as Hlinks'.
  destruct (associate_cases w now user pdf d)
    as [(link & _ & Hrun)|(_ & d' & Hrun & Hnew & Hpdfs & Hseq)];
    rewrite Hrun in *; cbn [snd] in Hlinks'.
  - by exists (id link), d.
  - exists (user_pdfs_seq d + 1), d'. split; [done|]. split; [|done].
    split; unfold unique_hashes; rewrite ?Hpdfs, ?Hseq; try done.
    intros l. rewrite Hnew.
    intros [Hin| ->%list_elem_of_singleton]%elem_of_app; [by apply Hforeign|].
    by exists row.
Qed.

(** Whatever the request, the world's answers and the state,
    [process_pdf] hands on a sound catalog when it is given one,
    whether it returns or raises: still no hash, no key and no link
    twice, and every link, the new one too, to a row that is there.
    And it raises only what one of its local steps without a [try]
    raises, on an accepted upload: making the temporary file, saving
    the upload to it, removing it, making the folder of the PDF, or
    reading the size of the file. *)
Theorem process_pdf_keeps_sound w req s :
  sound (db s) ->
  sound (db (snd (process_pdf w req s)))
  /\ (forall e,
        fst (process_pdf w req s) = Raises e ->
        exists file,
          files_file req = Some file /\ accepted req = true
          /\ local_step_raises w file e).
Proof.
  intros Hsound.
  destruct (accepted req) eqn:Hok.
  2: { unfold accepted in Hok. unfold process_pdf.
       destruct (files_file req) as [file|]; [|by split].
       destruct (bool_decide (filename file = [])); [by split|].
       cbn [negb andb] in Hok. rewrite Hok. by split. }
  pose proof Hok as Hchecks. unfold accepted in Hchecks.
  destruct (files_file req) as [file|] eqn:Hfile; [|done].
  apply andb_prop in Hchecks as [Hname%negb_true_iff%bool_decide_eq_false_1 Hpdf].
  destruct (get_pdf_by_hash (calculate_file_hash w (stream file)) (db s))
    as [row|] eqn:Hknown.
  - rewrite (process_pdf_on_known_hash w req file row s Hfile Hname Hpdf Hknown).
    apply find_some in Hknown as [Hin _]. rewrite <- list_elem_of_In in Hin.
    destruct (associate_keeps_sound (store w) (CURRENT_TIMESTAMP w)
                (request_user_id req) (pdf_id row) (db s) Hsound)
      as (link & d' & Hrun & Hsound' & _); [by exists row|].
    unfold bind, lift, on_db, ret, local_step_raises.
    destruct (NamedTemporaryFile w) as [temp|e0] eqn:Htemp.
    2: { split; [done|]. intros e [= ->]. exists file. split_and!; try done. by left. }
    destruct (file_save w temp (stream file)) as [[]|e0] eqn:Hsave.
    2: { split; [done|]. intros e [= ->]. exists file. split_and!; try done.
         right. exists temp. split; [done|]. by left. }
    rewrite Hrun.
    destruct (os_remove w temp) as [[]|e0] eqn:Hremove; cbn [fst snd db with_db].
    + by split.
    + split; [done|]. intros e [= ->]. exists file. split_and!; try done.
      right. exists temp. split; [done|]. right. by left.
  - rewrite (process_pdf_on_new_hash w req file s Hfile Hok Hknown).
    destruct (kept_for_ingestion w file (key_of w file)) as [size|e0] eqn:Hkept.
    2: { cbn [fst snd]. split; [done|]. intros e [= ->]. exists file.
         split_and!; try done. by apply kept_for_ingestion_raises. }
    cbv zeta. cbn [fst snd]. split; [|done].
    match goal with |- context [generate w ?a ?b ?c ?d ?l ?f ?g s] =>
      destruct (convert_from_path w a) as [images|e] eqn:Hconvert;
      [ destruct (generate_returns w a b c d l f g images s Hconvert)
          as (s1 & lines & key & d1 & link & -> & _ & _ & _ & Hadd & Hlink)
      | destruct (generate_run_error w a b c d l f g e s Hconvert)
          as (s1 & -> & _ & Hdb); cbn [snd]; by rewrite Hdb ]
    end.
    cbn [snd].
    match type of Hadd with add_pdf ?a ?b ?c ?d ?e ?f ?g ?h = _ =>
      destruct (add_pdf_keeps_sound a b c d e f g h Hsound)
        as (key' & d1' & Hadd' & Hsound1 & (row & Hrow & Hkey & _)) end.
    rewrite Hadd' in Hadd. injection Hadd as <- <-.
    destruct (associate_keeps_sound (store w) (CURRENT_TIMESTAMP w)
                (request_user_id req) key' d1' Hsound1)
      as (link' & d2 & Hrun & Hsound2 & _); [by exists row|].
    rewrite Hrun in Hlink. by injection Hlink as _ <-.
Qed.

Lemma process_pdf_keeps_sound_notes :
  sound (db (snd (process_pdf (demo explains) upload_of_notes fresh))).
Proof.
  apply (process_pdf_keeps_sound (demo explains) upload_of_notes fresh).
  split; simpl; try apply NoDup_nil_2; intros ? []%elem_of_nil.
Defined.

(** The three checks at the head of [process_pdf] are the only source
    of a 400: an upload that fails one is answered 400 with the state
    as it was, an upload that passes them is never answered 400. *)
Theorem process_pdf_rejects_exactly w req s :
  if accepted req
  then forall body, fst (process_pdf w req s) <> Returns (Jsonify body 400)
  else exists msg, process_pdf w req s = (Returns (Jsonify (error_body msg) 400), s).
Proof.
  destruct (accepted req) eqn:Hok.
  - pose proof Hok as Hchecks. unfold accepted in Hchecks.
    destruct (files_file req) as [file|] eqn:Hfile; [|done].
    apply andb_prop in Hchecks as [Hname%negb_true_iff%bool_decide_eq_false_1 Hpdf].
    intros body.
    destruct (get_pdf_by_hash (calculate_file_hash w (stream file)) (db s))
      as [row|] eqn:Hknown.
    + rewrite (process_pdf_on_known_hash w req file row s Hfile Hname Hpdf Hknown).
      unfold bind, lift, on_db, ret.
      destruct (NamedTemporaryFile w) as [temp|e0]; [|done].
      destruct (file_save w temp (stream file)) as [[]|e0]; [|done].
      destruct (associate_links (store w) (CURRENT_TIMESTAMP w)
                  (request_user_id req) (pdf_id row) (db s))
        as (link & d' & -> & _).
      destruct (os_remove w temp) as [[]|e0]; cbn [fst]; congruence.
    + rewrite (process_pdf_on_new_hash w req file s Hfile Hok Hknown).
      destruct (kept_for_ingestion w file (key_of w file)); cbn [fst]; congruence.
  - unfold accepted in Hok. unfold process_pdf.
    destruct (files_file req) as [file|]; [|by eexists].
    destruct (bool_decide (filename file = [])); [by eexists|].
    cbn [negb andb] in Hok. rewrite Hok. by eexists.
Qed.

(** ** The catalog and the remote tier *)

(** What a catalog operation returns and the catalog it leaves do not
    depend on the remote tier: the copy made after a write may fail in
    any way without the operation noticing. *)
Theorem catalog_whatever_the_store (w w' : gcs) now d :
  (forall title path hash size pages,
      add_pdf w now title path hash size pages d
      = add_pdf w' now title path hash size pages d)
  /\ (forall user pdf,
      associate_pdf_with_user w now user pdf d
      = associate_pdf_with_user w' now user pdf d).
Proof.
  split.
  - intros title path hash size pages.
    unfold add_pdf, add_pdf_after_select, bind, gets, ret, lift.
    destruct (select_pdf_by_hash hash d); [done|].
    destruct (insert_into_pdfs now title path hash size pages d) as [[key|e] d1];
      [|done].
    destruct (sync_db_to_cloud_returns w) as [b ->].
    by destruct (sync_db_to_cloud_returns w') as [b' ->].
  - intros user pdf. unfold associate_pdf_with_user, bind, gets, ret, lift.
    match goal with |- context [find ?f ?l] => destruct (find f l) end; [done|].
    destruct (insert_into_user_pdfs now user pdf d) as [[key|e] d1]; [|done].
    destruct (sync_db_to_cloud_returns w) as [b ->].
    by destruct (sync_db_to_cloud_returns w') as [b' ->].
Qed.

(** [sync_db_to_cloud] answers [True] exactly when there is a client
    and the upload of the database file went through; in every other
    case it answers [False], and it never raises. *)
Theorem sync_db_to_cloud_true_iff (w : gcs) :
  (sync_db_to_cloud w = Returns true \/ sync_db_to_cloud w = Returns false)
  /\ (sync_db_to_cloud w = Returns true <->
      is_Some (get_storage_client w)
      /\ blob_upload_from_filename w (DEFAULT_BUCKET_NAME w) GCS_DB_PATH LOCAL_DB_PATH
         = Returns tt).
Proof.
  unfold sync_db_to_cloud, upload_from_filename, try_except.
  destruct (get_storage_client w) as [[]|].
  - destruct (blob_upload_from_filename w _ _ _) as [[]|e]; cbn.
    + split; [by left|]. split; [by eauto|done].
    + split; [by right|]. split; [done|]. by intros [_ ?].
  - split; [by right|]. split; [done|]. by intros [[? ?] _].
Qed.

(** ** Versions of a PDF *)

(** The pattern of [get_pdf_versions_by_name], for a base name without
    [%]: it matches the texts that have one character more, at least,
    than the base name and agree with it place by place, where an
    underscore of the base name agrees with any character and letters
    agree without regard to case. *)
Lemma like_version base text :
  percent ∉ base ->
  like (base ++ u "_%") text = true <-> version_of base text.
Proof.
  unfold version_of. revert text.
  induction base as [|p base IH]; intros text Hbase.
  - change ([] ++ u "_%") with (underscore :: [percent]).
    destruct text as [|c text].
    + split; [done|]. intros (head & c & tail & Heq & _). by destruct head.
    + cbn [like]. change (underscore =? percent)%N with false. cbv iota.
      rewrite N.eqb_refl, like_percent. split; [|done].
      intros _. exists [], c, text. split; [done|constructor].
  - apply not_elem_of_cons in Hbase as [Hp Hbase].
    rewrite <- app_comm_cons. cbn [like].
    assert ((p =? percent)%N = false) as -> by (apply N.eqb_neq; congruence).
    destruct text as [|c text].
    + split; [done|]. intros (head & c & tail & Heq & Hall).
      inversion Hall; subst. done.
    + rewrite andb_true_iff, orb_true_iff, !N.eqb_eq, (IH text Hbase).
      split.
      * intros [Hchar (head & c' & tail & -> & Hall)].
        exists (c :: head), c', tail. split; [done|]. by constructor.
      * intros (head & c' & tail & Heq & Hall).
        inversion Hall as [|? c0 ? head' Hchar Hall']; subst.
        injection Heq as -> ->. split; [done|]. by exists head', c', tail.
Qed.

(** [get_pdf_versions_by_name], for a base name without [%], returns
    the keys of the catalog that are the base name or a version of it
    as [LIKE] reads the pattern, and no other. *)
Theorem get_pdf_versions_by_name_exactly base d path :
  percent ∉ base ->
  path ∈ get_pdf_versions_by_name base d <->
  (exists row, row ∈ pdfs d /\ file_path row = path)
  /\ (path = base \/ version_of base path).
Proof.
  intros Hbase. rewrite elem_of_get_pdf_versions_by_name.
  split.
  - intros (row & Hrow & Hpath & [->|Hlike]).
    + split; [by exists row|by left].
    + split; [by exists row|]. right. by apply like_version.
  - intros [(row & Hrow & Hpath) [->|Hversion]]; exists row.
    + split_and!; [done|done|by left].
    + split_and!; [done|done|]. right. by apply like_version.
Qed.

Lemma get_pdf_versions_by_name_exactly_two_uploads :
  u "notesx_1700000001" ∈ get_pdf_versions_by_name (u "notes") two_uploads <->
  (exists row, row ∈ pdfs two_uploads /\ file_path row = u "notesx_1700000001")
  /\ (u "notesx_1700000001" = u "notes"
      \/ version_of (u "notes") (u "notesx_1700000001")).
Proof.
  apply (get_pdf_versions_by_name_exactly (u "notes") two_uploads).
  apply (bool_decide_eq_false_1 (percent ∈ u "notes")). reflexivity.
Defined.

(** No version is missed: the key of a row that is the base name, or
    the base name followed by an underscore and anything, is among the
    keys [get_pdf_versions_by_name] returns, whatever the base name. *)
Theorem get_pdf_versions_by_name_complete base d row :
  row ∈ pdfs d ->
  file_path row = base \/ (exists suffix, file_path row = base ++ u "_" ++ suffix) ->
  file_path row ∈ get_pdf_versions_by_name base d.
Proof.
  intros Hrow Hkey. apply elem_of_get_pdf_versions_by_name.
  exists row. split; [done|]. split; [done|].
  destruct Hkey as [->|(suffix & ->)]; [by left|].
  right. apply like_underscore_suffix.
Qed.

Lemma get_pdf_versions_by_name_complete_two_uploads :
  u "notes_1700000000" ∈ get_pdf_versions_by_name (u "notes") two_uploads.
Proof.
  apply (get_pdf_versions_by_name_complete (u "notes") two_uploads
           {| pdf_id := 1; title := u "notes"; file_path := u "notes_1700000000";
              pdf_hash := u "aa"; file_size := 10; page_count := 3;
              created_at := timestamp |}).
  - apply list_elem_of_here.
  - right. exists (u "1700000000"). reflexivity.
Defined.

(** ** The quiz of a PDF kept in the remote tier *)

Lemma gather_keeps_state {A B} (body : A -> prog state (list B)) (l : list A) s :
  (forall x s0, snd (body x s0) = s0) -> snd (gather body l s) = s.
Proof.
  intros Hbody. revert s. induction l as [|x l IH]; intros s; [done|].
  cbn [gather]. unfold bind at 1.
  pose proof (Hbody x s) as Hx. destruct (body x s) as [[found|e] s1];
    cbn [snd] in Hx; subst s1; [|done].
  unfold bind at 1. pose proof (IH s) as Hrest.
  destruct (gather body l s) as [[more|e] s1]; cbn [snd] in Hrest; by subst s1.
Qed.

(** Reading the stored explanations changes nothing in the state. *)
Lemma remote_explanations_keeps_state w pdf_name s :
  snd (remote_explanations w pdf_name s) = s.
Proof.
  unfold remote_explanations. unfold bind at 1, lift at 1.
  destruct (list_files_with_prefix _ _ _) as [[|f files]|e]; [done| |done].
  unfold bind at 1, lift at 1.
  destruct (sort_by_key _ _) as [sorted|e]; [|done].
  apply gather_keeps_state. intros text_file s0.
  unfold try_catch, bind, lift, ret.
  destruct (download_as_string _ _ _) as [[[|c data]|]|e]; try done.
  by destruct (decode_utf8 w _).
Qed.

(** A PDF whose original is in the remote tier, with no quiz stored
    yet, cannot get one when its folder is missing from the local tier
    or when explanations of it are found in the remote tier: the route
    then reaches the test of [text_folder] without having assigned it
    (if it has not failed before, making the folder of the quiz), and
    answers 500 without a word to the model. *)
Theorem generate_quiz_unbound_text_folder w pdf_name s :
  let bucket := DEFAULT_BUCKET_NAME (store w) in
  let pdf_folder := os_path_join UPLOAD_FOLDER pdf_name in
  is_Some (get_storage_client (store w)) ->
  check_if_file_exists (store w) (GCS_PDF_PREFIX ++ pdf_name ++ u "/original.pdf")
    bucket = Returns true ->
  check_if_file_exists (store w) (GCS_QUIZ_PREFIX ++ pdf_name ++ u "/quiz.json")
    bucket = Returns false ->
  os_path_exists w (os_path_join (os_path_join pdf_folder (u "quiz_data"))
                      (pdf_name ++ u "_quiz.json")) = false ->
  os_path_exists w pdf_folder = false
  \/ (exists found, fst (remote_explanations w pdf_name s) = Returns found
                    /\ found <> []) ->
  exists msg,
    generate_quiz w pdf_name s = (Returns (Jsonify (error_body msg) 500), s).
Proof.
  intros bucket pdf_folder Hclient Hpdf Hquiz Hlocal Hcase.
  unfold generate_quiz, try_catch. fold bucket.
  rewrite (bool_decide_eq_true_2 _ Hclient).
  unfold bind at 1, lift at 1. rewrite Hpdf.
  unfold bind at 1. unfold bind at 1, lift at 1. rewrite Hquiz.
  unfold ret at 1. fold pdf_folder.
  replace (negb (os_path_exists w pdf_folder) && negb true) with false
    by (by rewrite andb_false_r).
  unfold bind at 1.
  match goal with |- context [if ?b then lift ?m else ret tt] =>
    destruct b;
    [unfold lift at 1; destruct m as [[]|e0]; [|by eexists] | unfold ret at 1]
  end; rewrite Hlocal; unfold bind at 1.
  all: pose proof (remote_explanations_keeps_state w pdf_name s) as Hstate.
  all: destruct (remote_explanations w pdf_name s) as [[found|e] s1];
    cbn [snd fst] in *; subst s1; [|by eexists].
  all: assert ((bool_decide (found = []) && os_path_exists w pdf_folder) = false)
    as ->
    by (destruct Hcase as [->|(found' & [= <-] & Hfound)];
        [apply andb_false_r | by rewrite (bool_decide_eq_false_2 _ Hfound)]).
  all: unfold bind, raise, ret; by eexists.
Qed.

Lemma process_pdf_unreadable_notes :
  fst (process_pdf unreadable upload_of_notes fresh)
  = Returns (StreamingResponse [Error (u "Unable to get page count.")])
  /\ db (snd (process_pdf unreadable upload_of_notes fresh)) = db fresh.
Proof.
  pose proof (process_pdf_unreadable unreadable upload_of_notes
                {| filename := u "notes.pdf"; stream := [37%N; 80%N; 68%N; 70%N] |}
                corrupt_pdf fresh eq_refl eq_refl eq_refl eq_refl) as H.
  cbv zeta in H. destruct H as (Hdb & _ & _ & _ & Hanswer).
  split; [|exact Hdb].
  exact (Hanswer (u "/tmp/tmpab12cd34.pdf") 4 eq_refl eq_refl eq_refl eq_refl).
Defined.

Lemma generate_quiz_unbound_text_folder_redeployed :
  exists msg,
    generate_quiz redeployed (u "notes_1") fresh
    = (Returns (Jsonify (error_body msg) 500), fresh).
Proof.
  apply (generate_quiz_unbound_text_folder redeployed (u "notes_1") fresh).
  - by eexists.
  - reflexivity.
  - reflexivity.
  - reflexivity.
  - left. reflexivity.
Defined.

(** ** Accounts and sessions *)

Import Auth.

Section Accounts.
Context (w : world) (encode : str -> outcome bytes).

Lemma existsb_bool_decide {A} (P : A -> Prop) `{forall x, Decision (P x)} (l : list A) :
  existsb (fun x => bool_decide (P x)) l = true <-> exists x, x ∈ l /\ P x.
Proof.
  rewrite existsb_exists. split; intros (x & Hin & HP); exists x.
  - rewrite list_elem_of_In. split; [done|]. by apply bool_decide_eq_true_1 in HP.
  - rewrite <- list_elem_of_In. split; [done|]. by apply bool_decide_eq_true_2.
Qed.

(** [add_user] by cases: the name or the address is taken and nothing
    changes, or the row is added under the next key. *)
Lemma add_user_cases m username email password_hash a :
  (taken username email a
   /\ add_user w m username email password_hash a = (Returns None, a))
  \/ (~ taken username email a
      /\ add_user w m username email password_hash a
         = (Returns (Some (users_seq a + 1)),
            {| users := users a ++
                 [ {| users_user_id := users_seq a + 1; username := username;
                      email := email; password_hash := password_hash;
                      users_created_at := current_timestamp m |} ];
               users_seq := users_seq a + 1;
               sessions := sessions a;
               sessions_seq := sessions_seq a |})).
Proof.
  unfold add_user, try_catch_class, bind, insert_into_users, taken.
  destruct (existsb _ (users a)) eqn:Hname.
  { left. apply existsb_bool_decide in Hname as (r & Hr & Hname).
    split; [exists r; by auto|]. cbn. by destruct (decide _). }
  destruct (existsb (fun r => bool_decide (Auth.email r = email)) (users a)) eqn:Hmail.
  { left. apply existsb_bool_decide in Hmail as (r & Hr & Hmail).
    split; [exists r; by auto|]. cbn. by destruct (decide _). }
  right. split.
  - intros (r & Hr & [Hu|He]).
    + assert (existsb (fun r => bool_decide (Auth.username r = username)) (users a)
              = true) as Htrue by (apply existsb_bool_decide; by exists r).
      congruence.
    + assert (existsb (fun r => bool_decide (Auth.email r = email)) (users a)
              = true) as Htrue by (apply existsb_bool_decide; by exists r).
      congruence.
  - unfold lift, ret.
    by destruct (sync_db_to_cloud_returns (store w)) as [b ->].
Qed.

(** [create_session] by cases: the token is one of [sessions] and
    nothing changes, or the session is added. *)
Lemma create_session_cases m user_id username a :
  (uuid4 m ∈ map token (sessions a)
   /\ create_session w m user_id username a = (Returns None, a))
  \/ ((uuid4 m ∉ map token (sessions a))
      /\ create_session w m user_id username a
         = (Returns (Some {| sd_session_token := uuid4 m; sd_user_id := user_id;
                             sd_username := username;
                             sd_expires_at := now_plus_7_days_isoformat m |}),
            {| users := users a;
               users_seq := users_seq a;
               sessions := sessions a ++
                 [ {| session_id := sessions_seq a + 1; session_user_id := user_id;
                      token := uuid4 m;
                      session_created_at := current_timestamp m;
                      expires_at := now_plus_7_days m |} ];
               sessions_seq := sessions_seq a + 1 |})).
Proof.
  unfold create_session, try_catch, bind, insert_into_sessions.
  destruct (existsb _ (sessions a)) eqn:Htoken.
  - left. apply existsb_bool_decide in Htoken as (r & Hr & Htoken).
    split; [|done]. apply list_elem_of_fmap. by exists r.
  - right. split.
    + intros (r & Heq & Hr)%list_elem_of_fmap.
      assert (existsb (fun r => bool_decide (token r = uuid4 m)) (sessions a) = true)
        as Htrue by (apply existsb_bool_decide; by exists r).
      congruence.
    + unfold lift, ret.
      by destruct (sync_db_to_cloud_returns (store w)) as [b ->].
Qed.

End Accounts.

(** [register_user], when the password can be hashed: a name or an
    address that is taken is refused and nothing is written; otherwise
    the user is added under the next key, with the hash and not the
    password, and that key is returned. *)
Theorem register_user_exactly w encode m username email password hash a :
  hash_password w encode password = Returns hash ->
  0 <= users_seq a ->
  (taken username email a ->
   register_user w encode m username email password a
   = (Returns (NotRegistered (u "Username or email already exists")), a))
  /\ (~ taken username email a ->
      register_user w encode m username email password a
      = (Returns (Registered (users_seq a + 1)),
         {| users := users a ++
              [ {| users_user_id := users_seq a + 1; username := username;
                   email := email; password_hash := hash;
                   users_created_at := current_timestamp m |} ];
            users_seq := users_seq a + 1;
            sessions := sessions a;
            sessions_seq := sessions_seq a |})).
Proof.
  intros Hhash Hseq. unfold register_user, bind, lift. rewrite Hhash.
  destruct (add_user_cases w m username email hash a) as [[Htaken ->]|[Hfree ->]].
  - split; [done|]. by intros [].
  - split; [by intros ?|]. intros _.
    rewrite bool_decide_eq_true_2 by lia. done.
Qed.

Lemma register_user_exactly_ada :
  register_user (demo explains) ascii_encode tuesday (u "ada") (u "x@example.org")
    (u "secret") ada_logged_in
  = (Returns (NotRegistered (u "Username or email already exists")), ada_logged_in).
Proof.
  apply (register_user_exactly (demo explains) ascii_encode tuesday (u "ada")
           (u "x@example.org") (u "secret") (u "aa") ada_logged_in eq_refl).
  - simpl. lia.
  - eexists. split; [apply list_elem_of_here|]. left. reflexivity.
Defined.

(** [login_user] answers with a session only for a stored user whose
    stored hash is the hash of the password given; the session is one
    new row of [sessions], for that user, under the fresh token, and
    nothing else changes.  Every refusal leaves the accounts as they
    were, and an unknown name and a wrong password get the same
    words. *)
Theorem login_user_cases w encode m username password a r a' :
  login_user w encode m username password a = (Returns r, a') ->
  match r with
  | LoggedIn user_id name session_token =>
      (exists row,
          row ∈ users a /\ Auth.username row = username
          /\ hash_password w encode password = Returns (Auth.password_hash row)
          /\ users_user_id row = user_id /\ name = username)
      /\ session_token = uuid4 m
      /\ users a' = users a
      /\ sessions a'
         = sessions a ++
           [ {| session_id := sessions_seq a + 1; session_user_id := user_id;
                token := uuid4 m; session_created_at := current_timestamp m;
                expires_at := now_plus_7_days m |} ]
  | NotLoggedIn error =>
      a' = a
      /\ (error = u "Invalid username or password"
          \/ (error = u "Failed to create session"
              /\ uuid4 m ∈ map token (sessions a)))
  end.
Proof.
  unfold login_user. unfold bind at 1, lift at 1.
  destruct (hash_password w encode password) as [hash|e] eqn:Hhash; [|done].
  unfold bind at 1, gets at 1.
  destruct (get_user_by_username username a) as [row|] eqn:Hrow.
  2: { intros [= <- <-]. by auto. }
  destruct (bool_decide (Auth.password_hash row = hash)) eqn:Hpass; cbn [negb].
  2: { intros [= <- <-]. by auto. }
  apply bool_decide_eq_true_1 in Hpass.
  apply find_some in Hrow as [Hin Hname].
  apply bool_decide_eq_true_1 in Hname. rewrite <- list_elem_of_In in Hin.
  unfold bind.
  destruct (create_session_cases w m (users_user_id row) (Auth.username row) a)
    as [[Hdup ->]|[Hfresh ->]]; intros [= <- <-].
  - by auto.
  - cbn. split; [|done]. exists row. by rewrite Hpass.
Qed.

Lemma login_user_cases_ada :
  sessions (snd (login_user (demo explains) ascii_encode tuesday (u "ada")
                   (u "secret") ada_logged_in))
  = sessions ada_logged_in ++
    [ {| session_id := 2; session_user_id := 1; token := uuid4 tuesday;
         session_created_at := current_timestamp tuesday;
         expires_at := now_plus_7_days tuesday |} ].
Proof.
  exact (proj2 (proj2 (proj2
           (login_user_cases (demo explains) ascii_encode tuesday (u "ada")
              (u "secret") ada_logged_in
              (LoggedIn 1 (u "ada") (uuid4 tuesday)) _ eq_refl)))).
Defined.

Section Sessions.
Context (w : world).

Lemma filter_none {A} (P : A -> Prop) `{forall x, Decision (P x)} (l : list A) :
  (forall x, x ∈ l -> ~ P x) -> filter P l = [].
Proof.
  induction l as [|x l IH]; intros Hl; [done|].
  rewrite filter_cons_False by (apply Hl; left).
  apply IH. intros y Hy. apply Hl. by right.
Qed.

(** The one row with a key that no row shares. *)
Lemma filter_unique {A K} (key : A -> K) (P : A -> Prop)
    `{forall x, Decision (P x)} (l : list A) (x : A) :
  NoDup (map key l) -> x ∈ l -> P x -> (forall y, P y -> key y = key x) ->
  filter P l = [x].
Proof.
  intros Hnodup Hx HP Hkey.
  induction l as [|y l IH]; [by apply elem_of_nil in Hx|].
  cbn [map] in Hnodup. apply NoDup_cons in Hnodup as [Hy Hnodup].
  apply elem_of_cons in Hx as [<-|Hx].
  - rewrite filter_cons_True by done. f_equal.
    apply filter_none. intros z Hz HPz. apply Hy.
    rewrite <- (Hkey z HPz). by apply list_elem_of_fmap_2.
  - rewrite filter_cons_False; [by apply IH|].
    intros HPy. apply Hy. rewrite (Hkey y HPy). by apply list_elem_of_fmap_2.
Qed.

(** What the [SELECT] of [get_current_user] finds is the user of a
    session with the token that has not expired. *)
Lemma select_session_some m session_token a user :
  select_session m session_token a = Some user ->
  exists s row,
    s ∈ sessions a /\ live_session m session_token s
    /\ row ∈ users a /\ users_user_id row = session_user_id s
    /\ cu_user_id user = session_user_id s
    /\ cu_username user = Auth.username row.
Proof.
  unfold select_session. intros Hhead%head_Some_elem_of.
  rewrite list_elem_of_In in Hhead.
  apply in_flat_map in Hhead as (s & Hs & Hrow).
  rewrite <- list_elem_of_In in Hs. rewrite <- list_elem_of_In in Hrow.
  apply list_elem_of_filter in Hs as [Hlive Hs].
  apply andb_prop in Hlive as [Htoken%bool_decide_eq_true_1 Hlive].
  apply list_elem_of_fmap in Hrow as (row & -> & Hrow).
  apply list_elem_of_filter in Hrow as [Hid Hrow].
  by exists s, row.
Qed.

(** With sound accounts it finds the user of every such session. *)
Lemma select_session_live m session_token a s row :
  accounts_sound a ->
  s ∈ sessions a -> live_session m session_token s ->
  row ∈ users a -> users_user_id row = session_user_id s ->
  select_session m session_token a
  = Some {| cu_user_id := session_user_id s; cu_username := Auth.username row |}.
Proof.
  intros [_ _ Hids _ _ Htokens] Hs [Htoken Hlive] Hrow Hid.
  unfold select_session.
  rewrite (filter_unique token _ (sessions a) s Htokens Hs).
  - cbn [flat_map]. rewrite app_nil_r.
    rewrite (filter_unique users_user_id _ (users a) row Hids Hrow);
      [done | done | congruence].
  - rewrite Hlive, andb_true_r. by apply bool_decide_eq_true_2.
  - intros s' [Heq%bool_decide_eq_true_1 _]%andb_prop. congruence.
Qed.

(** [get_current_user] by cases. *)
Lemma get_current_user_cases m session_token a :
  (session_token = [] /\ get_current_user w m session_token a = (Returns None, a))
  \/ (session_token <> []
      /\ exists user,
           select_session m session_token a = Some user
           /\ get_current_user w m session_token a = (Returns (Some user), a))
  \/ (session_token <> []
      /\ select_session m session_token a = None
      /\ get_current_user w m session_token a
         = (Returns None,
            {| users := users a; users_seq := users_seq a;
               sessions :=
                 filter (fun s => text_lt (datetime_now m) (expires_at s) = true)
                   (sessions a);
               sessions_seq := sessions_seq a |})).
Proof.
  unfold get_current_user.
  destruct (decide (session_token = [])) as [->|Hsome]; [by left|].
  right. rewrite (bool_decide_eq_false_2 _ Hsome).
  unfold try_catch, bind, gets.
  destruct (select_session m session_token a) as [user|] eqn:Hselect.
  - left. split; [done|]. by exists user.
  - right. split; [done|]. split; [done|].
    unfold delete_expired_sessions, modify, lift, ret.
    by destruct (sync_db_to_cloud_returns (store w)) as [b ->].
Qed.

End Sessions.

(** [get_current_user] names a user only on a token that is not empty,
    for a session of [sessions] with that token that has not expired
    at the moment of the call, and the user is the one of that session;
    it then changes nothing.  When it names none, the users are as
    they were and, unless the token was empty, the sessions left are
    those that have not expired. *)
Theorem get_current_user_sound w m session_token a r a' :
  get_current_user w m session_token a = (Returns r, a') ->
  match r with
  | Some user =>
      a' = a /\ session_token <> []
      /\ exists s row,
           s ∈ sessions a /\ live_session m session_token s
           /\ row ∈ users a /\ users_user_id row = session_user_id s
           /\ cu_user_id user = session_user_id s
           /\ cu_username user = Auth.username row
  | None =>
      users a' = users a
      /\ (session_token = [] /\ a' = a
          \/ forall s, s ∈ sessions a' <->
                       s ∈ sessions a
                       /\ text_lt (datetime_now m) (expires_at s) = true)
  end.
Proof.
  destruct (get_current_user_cases w m session_token a)
    as [[-> ->]|[(Hsome & user & Hselect & ->)|(Hsome & Hselect & ->)]];
    intros [= <- <-].
  - by auto.
  - split; [done|]. split; [done|]. by apply select_session_some.
  - split; [done|]. right. intros s. cbn [sessions].
    rewrite list_elem_of_filter. tauto.
Qed.

Lemma get_current_user_sound_ada :
  exists s row,
    s ∈ sessions ada_logged_in
    /\ live_session tuesday (u "0f8fad5b-d9cb-469f-a165-70867728950e") s
    /\ row ∈ users ada_logged_in /\ users_user_id row = session_user_id s
    /\ 1 = session_user_id s
    /\ u "ada" = Auth.username row.
Proof.
  exact (proj2 (proj2
           (get_current_user_sound (demo explains) tuesday
              (u "0f8fad5b-d9cb-469f-a165-70867728950e") ada_logged_in
              (Some {| cu_user_id := 1; cu_username := u "ada" |}) _ eq_refl))).
Defined.

(** After [logout_user] the token opens nothing: [get_current_user]
    names no user for it at any later moment.  The call reports
    success exactly when a session had the token; the users and the
    sessions of other tokens are left as they were. *)
Theorem logout_user_ends_the_session w session_token a :
  exists r a',
    logout_user w session_token a = (Returns r, a')
    /\ (r = LoggedOut <-> session_token ∈ map token (sessions a))
    /\ users a' = users a
    /\ (forall s, s ∈ sessions a' <-> s ∈ sessions a /\ token s <> session_token)
    /\ forall m, fst (get_current_user w m session_token a') = Returns None.
Proof.
  unfold logout_user, try_catch, bind, delete_sessions_by_token, lift.
  destruct (sync_db_to_cloud_returns (store w)) as [b ->].
  set (a' := {| users := users a; users_seq := users_seq a;
                sessions := filter (fun r => token r <> session_token) (sessions a);
                sessions_seq := sessions_seq a |}).
  set (hits := filter (fun r => token r = session_token) (sessions a)).
  assert (forall m, fst (get_current_user w m session_token a') = Returns None)
    as Hclosed.
  { intros m.
    destruct (get_current_user_cases w m session_token a')
      as [[_ ->]|[(_ & user & Hselect & _)|(_ & _ & ->)]]; [done| |done].
    apply select_session_some in Hselect as (s & _ & Hs & [Htoken _] & _).
    apply list_elem_of_filter in Hs as [Hother _]. done. }
  assert (forall s, s ∈ sessions a' <-> s ∈ sessions a /\ token s <> session_token)
    as Hkept.
  { intros s. cbn [a' sessions]. rewrite list_elem_of_filter. tauto. }
  destruct hits as [|hit hits'] eqn:Hhits; cbn [length].
  - change (0 <? Z.of_nat 0) with false. cbv iota. unfold ret.
    do 2 eexists. split; [reflexivity|]. split_and!; try done.
    split; [done|]. intros (s & Htoken & Hs)%list_elem_of_fmap.
    exfalso. apply (filter_nil_not_elem_of _ _ s Hhits); done.
  - assert ((0 <? Z.of_nat (S (length hits'))) = true) as -> by (apply Z.ltb_lt; lia).
    unfold ret. do 2 eexists. split; [reflexivity|]. split_and!; try done.
    split; [|done]. intros _.
    assert (hit ∈ hits) as Hhit by (rewrite Hhits; left).
    apply list_elem_of_filter in Hhit as [Htoken Hhit].
    apply list_elem_of_fmap. by exists hit.
Qed.

Section SoundAccounts.
Context (w : world).

Lemma NoDup_fmap_filter {A K} (key : A -> K) (P : A -> Prop)
    `{forall x, Decision (P x)} (l : list A) :
  NoDup (map key l) -> NoDup (map key (filter P l)).
Proof.
  induction l as [|x l IH]; [done|].
  cbn [map]. intros [Hx Hl]%NoDup_cons.
  destruct (decide (P x)) as [HP|HP].
  - rewrite filter_cons_True by done. cbn [map]. apply NoDup_cons.
    split; [|by apply IH].
    intros (y & Hkey & Hy)%list_elem_of_fmap. apply Hx.
    apply list_elem_of_filter in Hy as [_ Hy].
    rewrite Hkey. by apply list_elem_of_fmap_2.
  - rewrite filter_cons_False by done. by apply IH.
Qed.

Lemma NoDup_fmap_snoc {A K} (key : A -> K) (l : list A) (x : A) :
  NoDup (map key l) -> (forall y, y ∈ l -> key y <> key x) ->
  NoDup (map key (l ++ [x])).
Proof.
  intros Hl Hx. rewrite map_app. apply NoDup_app. split; [done|].
  split; [|apply NoDup_singleton].
  intros k (y & -> & Hy)%list_elem_of_fmap Hk.
  cbn [map] in Hk. apply list_elem_of_singleton in Hk. by apply (Hx y).
Qed.

Lemma add_user_keeps_sound m username email password_hash a :
  accounts_sound a ->
  accounts_sound (snd (add_user w m username email password_hash a)).
Proof.
  intros Hsound.
  destruct (add_user_cases w m username email password_hash a)
    as [[_ ->]|[Hfree ->]]; [done|].
  destruct Hsound as [Hnames Hmails Hids Hseq Hcounter Htokens].
  cbn [snd]. split; cbn [users users_seq sessions]; try done.
  - apply NoDup_fmap_snoc; [done|]. intros r Hr Heq. apply Hfree.
    exists r. by auto.
  - apply NoDup_fmap_snoc; [done|]. intros r Hr Heq. apply Hfree.
    exists r. by auto.
  - apply NoDup_fmap_snoc; [done|]. intros r Hr Heq.
    apply Hcounter in Hr. cbn [users_user_id] in Heq. lia.
  - lia.
  - intros r [Hr| ->%list_elem_of_singleton]%elem_of_app.
    + apply Hcounter in Hr. lia.
    + cbn [users_user_id]. lia.
Qed.

Lemma create_session_keeps_sound m user_id username a :
  accounts_sound a ->
  accounts_sound (snd (create_session w m user_id username a)).
Proof.
  intros Hsound.
  destruct (create_session_cases w m user_id username a)
    as [[_ ->]|[Hfresh ->]]; [done|].
  destruct Hsound as [Hnames Hmails Hids Hseq Hcounter Htokens].
  cbn [snd]. split; cbn [users users_seq sessions]; try done.
  apply NoDup_fmap_snoc; [done|]. intros s Hs Heq. apply Hfresh.
  cbn [token] in Heq. rewrite <- Heq. by apply list_elem_of_fmap_2.
Qed.

End SoundAccounts.

(** Each operation of auth.py hands on sound accounts when it is given
    them: no user name, e-mail address, key or token twice, whatever
    is registered, whoever logs in or out, and whatever sessions
    [get_current_user] clears away. *)
Theorem accounts_stay_sound w encode m username email password session_token a :
  accounts_sound a ->
  accounts_sound (snd (register_user w encode m username email password a))
  /\ accounts_sound (snd (login_user w encode m username password a))
  /\ accounts_sound (snd (logout_user w session_token a))
  /\ accounts_sound (snd (get_current_user w m session_token a)).
Proof.
  intros Hsound. split_and!.
  - unfold register_user, bind, lift.
    destruct (hash_password w encode password) as [hash|e]; [|done].
    pose proof (add_user_keeps_sound w m username email hash a Hsound) as Hadd.
    destruct (add_user w m username email hash a) as [[[user_id|]|e] a1];
      cbn [snd] in *; try done.
    by destruct (bool_decide (user_id <> 0)).
  - unfold login_user, bind, lift, gets.
    destruct (hash_password w encode password) as [hash|e]; [|done].
    destruct (get_user_by_username username a) as [row|]; [|done].
    destruct (negb _); [done|].
    pose proof (create_session_keeps_sound w m (users_user_id row)
                  (Auth.username row) a Hsound) as Hcreate.
    by destruct (create_session w m (users_user_id row) (Auth.username row) a)
      as [[[session|]|e] a1].
  - destruct Hsound as [Hnames Hmails Hids Hseq Hcounter Htokens].
    unfold logout_user, try_catch, bind, delete_sessions_by_token, lift.
    destruct (sync_db_to_cloud_returns (store w)) as [b ->].
    assert (accounts_sound
              {| users := users a; users_seq := users_seq a;
                 sessions := filter (fun r => token r <> session_token) (sessions a);
                 sessions_seq := sessions_seq a |}) as Hsound'.
    { split; cbn [users users_seq sessions]; try done.
      by apply NoDup_fmap_filter. }
    by destruct (0 <? _).
  - destruct (get_current_user_cases w m session_token a)
      as [[_ ->]|[(_ & user & _ & ->)|(_ & _ & ->)]]; try done.
    destruct Hsound as [Hnames Hmails Hids Hseq Hcounter Htokens].
    split; cbn [snd users users_seq sessions]; try done.
    by apply NoDup_fmap_filter.
Qed.

Lemma accounts_stay_sound_ada :
  accounts_sound
    (snd (login_user (demo explains) ascii_encode tuesday (u "ada") (u "secret")
            ada_logged_in)).
Proof.
  apply (accounts_stay_sound (demo explains) ascii_encode tuesday (u "ada")
           (u "ada@example.org") (u "secret") [] ada_logged_in).
  split; simpl.
  - apply NoDup_singleton.
  - apply NoDup_singleton.
  - apply NoDup_singleton.
  - lia.
  - intros r ->%list_elem_of_singleton. simpl. lia.
  - apply NoDup_singleton.
Defined.

(** From registration to an open session: a user who has registered
    can log in next with the same name and password; the login gives
    the key the registration gave and the fresh token, and at any
    moment before the session expires [get_current_user] names that
    user for the token and changes nothing. *)
Theorem register_login_round_trip w encode m1 m2 m3 username email password
    user_id a a1 :
  accounts_sound a ->
  register_user w encode m1 username email password a
  = (Returns (Registered user_id), a1) ->
  uuid4 m2 <> [] ->
  uuid4 m2 ∉ map token (sessions a1) ->
  text_lt (datetime_now m3) (now_plus_7_days m2) = true ->
  exists a2,
    login_user w encode m2 username password a1
    = (Returns (LoggedIn user_id username (uuid4 m2)), a2)
    /\ get_current_user w m3 (uuid4 m2) a2
       = (Returns (Some {| cu_user_id := user_id; cu_username := username |}), a2).
Proof.
  intros Hsound Hregister Htoken Hfresh Hlive.
  unfold register_user, bind, lift in Hregister.
  destruct (hash_password w encode password) as [hash|e] eqn:Hhash; [|done].
  pose proof (add_user_keeps_sound w m1 username email hash a Hsound) as Hsound1.
  destruct (add_user_cases w m1 username email hash a) as [[_ Hadd]|[_ Hadd]];
    rewrite Hadd in Hregister, Hsound1; [done|].
  destruct (bool_decide (users_seq a + 1 <> 0)); [|done].
  injection Hregister as <- <-. cbn [snd] in Hsound1.
  set (row := {| users_user_id := users_seq a + 1; username := username;
                 email := email; password_hash := hash;
                 users_created_at := current_timestamp m1 |}) in *.
  set (a1 := {| users := users a ++ [row]; users_seq := users_seq a + 1;
                sessions := sessions a; sessions_seq := sessions_seq a |}) in *.
  assert (row ∈ users a1) as Hrow
    by (apply elem_of_app; right; apply list_elem_of_here).
  unfold login_user, bind, lift, gets. rewrite Hhash.
  unfold get_user_by_username.
  rewrite (find_by_key Auth.username (users a1) row (sound_usernames a1 Hsound1) Hrow).
  cbn [Auth.password_hash row]. rewrite bool_decide_eq_true_2 by done. cbn [negb].
  pose proof (create_session_keeps_sound w m2 (users_user_id row)
                (Auth.username row) a1 Hsound1) as Hsound2.
  destruct (create_session_cases w m2 (users_user_id row) (Auth.username row) a1)
    as [[Hdup _]|[_ Hcreate]]; [done|].
  rewrite Hcreate in *. cbn [snd] in Hsound2.
  eexists. split; [reflexivity|].
  match goal with |- get_current_user w m3 _ ?a2 = _ =>
    destruct (get_current_user_cases w m3 (uuid4 m2) a2)
      as [[Hempty _]|[(_ & user & Hselect & ->)|(_ & Hselect & _)]];
    [ done | |
      exfalso;
      rewrite (select_session_live m3 (uuid4 m2) a2
                 {| session_id := sessions_seq a1 + 1;
                    session_user_id := users_user_id row;
                    token := uuid4 m2;
                    session_created_at := current_timestamp m2;
                    expires_at := now_plus_7_days m2 |} row Hsound2) in Hselect;
      [ done
      | cbn [sessions]; apply elem_of_app; right; apply list_elem_of_here
      | by split
      | done
      | done ] ];
    rewrite (select_session_live m3 (uuid4 m2) a2
               {| session_id := sessions_seq a1 + 1;
                  session_user_id := users_user_id row;
                  token := uuid4 m2;
                  session_created_at := current_timestamp m2;
                  expires_at := now_plus_7_days m2 |} row Hsound2) in Hselect;
    [ by injection Hselect as <-
    | cbn [sessions]; apply elem_of_app; right; apply list_elem_of_here
    | by split
    | done
    | done ]
  end.
Qed.

Lemma register_login_round_trip_ada :
  exists a2,
    login_user (demo explains) ascii_encode monday (u "ada") (u "secret")
      (snd (register_user (demo explains) ascii_encode monday (u "ada")
              (u "ada@example.org") (u "secret") no_accounts))
    = (Returns (LoggedIn 1 (u "ada") (uuid4 monday)), a2)
    /\ get_current_user (demo explains) tuesday (uuid4 monday) a2
       = (Returns (Some {| cu_user_id := 1; cu_username := u "ada" |}), a2).
Proof.
  apply (register_login_round_trip (demo explains) ascii_encode monday monday
           tuesday (u "ada") (u "ada@example.org") (u "secret") 1 no_accounts).
  - split; simpl; try apply NoDup_nil_2; try lia. intros r []%elem_of_nil.
  - reflexivity.
  - discriminate.
  - simpl. apply not_elem_of_nil.
  - reflexivity.
Defined.

(** ** Routes behind [login_required] *)

Lemma split_from_without (c : N) (piece s : str) :
  c ∉ s -> split_from [c] 0 piece s = [rev piece ++ s].
Proof.
  revert piece. induction s as [|x s IH]; intros piece Hc.
  - cbn [split_from]. by rewrite app_nil_r.
  - apply not_elem_of_cons in Hc as [Hx Hc]. cbn [split_from].
    unfold startswith. cbn [length take].
    rewrite bool_decide_eq_false_2 by congruence.
    rewrite (IH (x :: piece) Hc). cbn [rev]. by rewrite <- app_assoc.
Qed.

(** The token [login_required] reads from the header [Bearer <token>]. *)
Lemma split_bearer (session_token : str) :
  32%N ∉ session_token ->
  item 1 (split (u " ") (u "Bearer " ++ session_token)) = session_token.
Proof.
  intros Hspace. unfold split.
  change (u "Bearer " ++ session_token)
    with (66 :: 101 :: 97 :: 114 :: 101 :: 114 :: 32 :: session_token)%N.
  change (u " ") with [32%N].
  do 6 (cbn [split_from]; unfold startswith at 1; cbn [length take];
        rewrite bool_decide_eq_false_2 by discriminate).
  cbn [split_from]. unfold startswith at 1. cbn [length take].
  rewrite bool_decide_eq_true_2 by done.
  cbn [length Nat.sub]. by rewrite (split_from_without 32 [] session_token Hspace).
Qed.

(** [login_required] lets the decorated function run only for the user
    of a session that has the token of the header and has not expired,
    and then in the state as it was; in every other case the answer is
    401, the function has not run, and of the accounts only expired
    sessions may have gone: the accounts are as they were, or as they
    were less the sessions that have expired, all of them, so that
    every session that has not expired is still there. *)
Theorem login_required_guards {S} w m
    (f : current_user -> prog (accounts * S) response) authorization
    (s : accounts * S) :
  (exists header session row,
      authorization = Some header
      /\ startswith header (u "Bearer ") = true
      /\ session ∈ sessions (fst s)
      /\ live_session m (item 1 (split (u " ") header)) session
      /\ row ∈ users (fst s) /\ users_user_id row = session_user_id session
      /\ login_required w m f authorization s
         = f {| cu_user_id := session_user_id session;
                cu_username := Auth.username row |} s)
  \/ (exists msg a',
         login_required w m f authorization s
         = (Returns (Jsonify (error_body msg) 401), (a', snd s))
         /\ (a' = fst s
             \/ a' = {| users := users (fst s); users_seq := users_seq (fst s);
                        sessions :=
                          filter (fun x => text_lt (datetime_now m) (expires_at x)
                                           = true)
                            (sessions (fst s));
                        sessions_seq := sessions_seq (fst s) |})
         /\ users a' = users (fst s)
         /\ (forall x, x ∈ sessions a' -> x ∈ sessions (fst s))
         /\ (forall x,
               x ∈ sessions (fst s) ->
               text_lt (datetime_now m) (expires_at x) = true ->
               x ∈ sessions a')).
Proof.
  destruct s as [a rest]. unfold login_required. cbn [fst snd].
  assert (forall msg,
            exists msg' a',
              (Returns (Jsonify (error_body msg) 401), (a, rest))
              = (Returns (Jsonify (error_body msg') 401), (a', rest))
              /\ (a' = a
                  \/ a' = {| users := users a; users_seq := users_seq a;
                             sessions :=
                               filter (fun x => text_lt (datetime_now m)
                                                  (expires_at x) = true)
                                 (sessions a);
                             sessions_seq := sessions_seq a |})
              /\ users a' = users a
              /\ (forall x, x ∈ sessions a' -> x ∈ sessions a)
              /\ (forall x,
                    x ∈ sessions a ->
                    text_lt (datetime_now m) (expires_at x) = true ->
                    x ∈ sessions a')) as Hsame.
  { intros msg. exists msg, a. split_and!; try done. by left. }
  destruct authorization as [[|c header]|];
    [right; unfold ret; apply Hsame| |right; unfold ret; apply Hsame].
  destruct (startswith (c :: header) (u "Bearer ")) eqn:Hbearer; cbn [negb];
    [|right; unfold ret; apply Hsame].
  unfold bind, on_accounts. cbn [fst snd].
  destruct (get_current_user_cases w m (item 1 (split (u " ") (c :: header))) a)
    as [[_ ->]|[(_ & user & Hselect & ->)|(_ & _ & ->)]].
  - right. unfold ret. apply Hsame.
  - left. apply select_session_some in Hselect
      as (session & row & Hsession & Hlive & Hrow & Hid & Huser & Hname).
    exists (c :: header), session, row. split_and!; try done.
    destruct user as [user_id name]. cbn in Huser, Hname. by subst.
  - right. do 2 eexists. split; [reflexivity|]. split; [by right|].
    split; [done|]. cbn [sessions]. split.
    + intros x. by intros [_ ?]%list_elem_of_filter.
    + intros x Hin Hlive. by apply list_elem_of_filter.
Qed.

(** An upload that carries the token of a session that has not expired
    is processed as the upload of that session's user: the answer and
    the new state are those of [process_pdf] with [request.user] set to
    that user, and the accounts are as they were. *)
Theorem process_pdf_route_for_the_session_user w m session row file
    difficulty_level a (s : state) :
  accounts_sound a ->
  session ∈ sessions a ->
  token session <> [] ->
  32%N ∉ token session ->
  text_lt (datetime_now m) (expires_at session) = true ->
  row ∈ users a ->
  users_user_id row = session_user_id session ->
  process_pdf_route w m (Some (u "Bearer " ++ token session)) file
    difficulty_level (a, s)
  = let run := process_pdf w {| files_file := file;
                                form_difficulty_level := difficulty_level;
                                request_user_id := session_user_id session |} s in
    (fst run, (a, snd run)).
Proof.
  intros Hsound Hsession Htoken Hspace Hlive Hrow Hid.
  unfold process_pdf_route, login_required.
  pose proof (split_bearer _ Hspace) as Hread.
  assert (startswith (u "Bearer " ++ token session) (u "Bearer ") = true)
    as Hbearer.
  { unfold startswith. apply bool_decide_eq_true_2.
    by rewrite take_app_length. }
  remember (u "Bearer " ++ token session) as header eqn:Hheader.
  destruct header as [|c header]; [done|].
  rewrite Hbearer, Hread. cbn [negb].
  unfold bind, on_accounts. cbn [fst snd].
  destruct (get_current_user_cases w m (token session) a)
    as [[Hempty _]|[(_ & user & Hselect & ->)|(_ & Hselect & _)]]; [done| |].
  - rewrite (select_session_live m (token session) a session row Hsound Hsession)
      in Hselect; [|by split|done|done].
    injection Hselect as <-. cbn [cu_user_id]. unfold on_state. cbn [fst snd].
    by destruct (process_pdf w _ s).
  - rewrite (select_session_live m (token session) a session row Hsound Hsession)
      in Hselect; [done|by split|done|done].
Qed.

Lemma process_pdf_route_for_the_session_user_ada :
  process_pdf_route (demo explains) tuesday
    (Some (u "Bearer " ++ u "0f8fad5b-d9cb-469f-a165-70867728950e"))
    (files_file upload_of_notes) None (ada_logged_in, fresh)
  = let run := process_pdf (demo explains)
                 {| files_file := files_file upload_of_notes;
                    form_difficulty_level := None;
                    request_user_id := 1 |} fresh in
    (fst run, (ada_logged_in, snd run)).
Proof.
  apply (process_pdf_route_for_the_session_user (demo explains) tuesday
           {| session_id := 1; session_user_id := 1;
              token := u "0f8fad5b-d9cb-469f-a165-70867728950e";
              session_created_at := u "2025-01-06 09:00:00";
              expires_at := u "2025-01-13 09:00:00.000001" |}
           {| users_user_id := 1; username := u "ada"; email := u "ada@example.org";
              password_hash := u "aa";
              users_created_at := u "2025-01-06 09:00:00" |}
           (files_file upload_of_notes) None ada_logged_in fresh).
  - split; simpl; try apply NoDup_singleton; try lia.
    intros r ->%list_elem_of_singleton. simpl. lia.
  - apply list_elem_of_here.
  - discriminate.
  - apply (bool_decide_eq_false_1
             (32%N ∈ u "0f8fad5b-d9cb-469f-a165-70867728950e")). reflexivity.
  - reflexivity.
  - apply list_elem_of_here.
  - reflexivity.
Defined.

(** ** Serving the stored images and audio *)

Import Retrieval.

Section Serving.
Context (w : world).

Lemma generate_signed_url_returns path bucket minutes :
  returned (generate_signed_url (store w) path bucket minutes).
Proof.
  unfold generate_signed_url, returned, try_except.
  destruct (get_storage_client (store w)); [|by eauto].
  destruct (blob_exists _ _ _) as [[]|]; [|by eauto..].
  destruct (blob_generate_signed_url _ _ _ _); by eauto.
Qed.

(** What [redirect_to] accepts. *)
Lemma redirect_to_some signed_url answer :
  redirect_to signed_url = Some answer ->
  exists url, signed_url = Some url /\ url <> [] /\ answer = Redirect url.
Proof.
  destruct signed_url as [[|c url]|]; try done.
  intros [= <-]. by exists (c :: url).
Qed.

(** The upload of a local file that was not in the remote tier, and the
    redirection that may follow it. *)
Lemma upload_then_redirect local gcs_path content_type gcs_exists (s : state) :
  exists uploaded,
    (if gcs_available w && negb gcs_exists then
       try_catch
         (let! result :=
            lift (upload_from_filename (store w) local gcs_path
                    (DEFAULT_BUCKET_NAME (store w)) content_type) in
          match result with
          | Some (_ :: _) =>
              let! signed_url :=
                lift (generate_signed_url (store w) gcs_path
                        (DEFAULT_BUCKET_NAME (store w)) 30) in
              ret (redirect_to signed_url)
          | _ => ret None
          end)
         (fun _ => ret None)
     else ret None) s = (Returns uploaded, s)
    /\ forall answer, uploaded = Some answer ->
       exists url, url <> [] /\ answer = Redirect url
                   /\ generate_signed_url (store w) gcs_path
                        (DEFAULT_BUCKET_NAME (store w)) 30 = Returns (Some url).
Proof.
  destruct (gcs_available w && negb gcs_exists); [|by exists None].
  unfold try_catch, bind, lift, ret.
  destruct (upload_from_filename_returns (store w) local gcs_path
              (DEFAULT_BUCKET_NAME (store w)) content_type) as [[[|c name]|] ->];
    try by exists None.
  destruct (generate_signed_url_returns gcs_path (DEFAULT_BUCKET_NAME (store w)) 30)
    as [signed_url Hurl]. rewrite Hurl.
  exists (redirect_to signed_url). split; [done|].
  intros answer (url & -> & Hsome & ->)%redirect_to_some. by exists url.
Qed.

Lemma image_from_local_run gcs_path gcs_exists possible_paths s :
  exists local,
    image_from_local w gcs_path gcs_exists possible_paths s = (Returns local, s)
    /\ match local with
       | None => forall path, path ∈ possible_paths -> os_path_exists w path = false
       | Some answer =>
           exists before path after,
             possible_paths = before ++ path :: after
             /\ (forall p, p ∈ before -> os_path_exists w p = false)
             /\ os_path_exists w path = true
             /\ (answer = SendFile path (u "image/jpeg")
                 \/ exists url,
                      url <> [] /\ answer = Redirect url
                      /\ generate_signed_url (store w) gcs_path
                           (DEFAULT_BUCKET_NAME (store w)) 30 = Returns (Some url))
       end.
Proof.
  induction possible_paths as [|image_path rest IH].
  - exists None. split; [done|]. by intros path []%elem_of_nil.
  - cbn [image_from_local].
    destruct (os_path_exists w image_path) eqn:Hexists.
    + unfold bind at 1.
      destruct (upload_then_redirect image_path gcs_path (Some (u "image/jpeg"))
                  gcs_exists s) as (uploaded & -> & Huploaded).
      destruct uploaded as [answer|].
      * exists (Some answer). split; [done|].
        exists [], image_path, rest. split_and!; try done.
        { by intros p []%elem_of_nil. }
        right. by apply Huploaded.
      * exists (Some (SendFile image_path (u "image/jpeg"))). split; [done|].
        exists [], image_path, rest. split_and!; try done; [|by left].
        by intros p []%elem_of_nil.
    + destruct IH as (local & -> & Hlocal). exists local. split; [done|].
      destruct local as [answer|].
      * destruct Hlocal as (before & path & after & -> & Hbefore & Hpath & Hanswer).
        exists (image_path :: before), path, after. split_and!; try done.
        intros p [->|Hp]%elem_of_cons; [done|by apply Hbefore].
      * intros path [->|Hpath]%elem_of_cons; [done|by apply Hlocal].
Qed.

End Serving.

(** [get_pdf_image] never raises, never answers 500 and leaves the
    state as it was.  It redirects only to a signed URL, not empty, of
    the page's own key in the remote tier; it sends only a local file
    of the page that exists, the one named with the PDF before the one
    named [page_N.jpg]; and it answers 404 only when neither local
    file exists. *)
Theorem get_pdf_image_answers w pdf_name page_num s :
  let gcs_path :=
    GCS_IMAGE_PREFIX ++ pdf_name ++ u "/page_" ++ str_of_Z page_num ++ u ".jpg" in
  let image_files :=
    os_path_join (os_path_join UPLOAD_FOLDER pdf_name) (u "image_files") in
  let standard :=
    os_path_join image_files (pdf_name ++ u "_page_" ++ str_of_Z page_num ++ u ".jpg") in
  let alternate :=
    os_path_join image_files (u "page_" ++ str_of_Z page_num ++ u ".jpg") in
  exists answer,
    get_pdf_image w pdf_name page_num s = (Returns answer, s)
    /\ ((exists url,
            answer = Redirect url /\ url <> []
            /\ generate_signed_url (store w) gcs_path
                 (DEFAULT_BUCKET_NAME (store w)) 30 = Returns (Some url))
        \/ (answer = SendFile standard (u "image/jpeg")
            /\ os_path_exists w standard = true)
        \/ (answer = SendFile alternate (u "image/jpeg")
            /\ os_path_exists w standard = false
            /\ os_path_exists w alternate = true)
        \/ (answer = Answer (error_body (u "Image file not found")) 404
            /\ os_path_exists w standard = false
            /\ os_path_exists w alternate = false)).
Proof.
  intros gcs_path image_files standard alternate.
  unfold get_pdf_image. unfold try_catch at 1.
  fold gcs_path image_files standard alternate.
  unfold bind at 1.
  assert (exists gcs_exists,
            (if gcs_available w
             then lift (check_if_file_exists (store w) gcs_path
                          (DEFAULT_BUCKET_NAME (store w)))
             else ret false) s = (Returns gcs_exists, s)) as (gcs_exists & ->).
  { destruct (gcs_available w); [|by eexists].
    unfold lift.
    destruct (check_if_file_exists_returns (store w) gcs_path
                (DEFAULT_BUCKET_NAME (store w))) as [b ->]. by eexists. }
  cbv beta iota. unfold bind at 1.
  assert (exists remote,
            (if gcs_available w && gcs_exists
             then try_catch
                    (let! signed_url :=
                       lift (generate_signed_url (store w) gcs_path
                               (DEFAULT_BUCKET_NAME (store w)) 30) in
                     ret (redirect_to signed_url))
                    (fun _ => ret None)
             else ret None) s = (Returns remote, s)
            /\ forall answer, remote = Some answer ->
               exists url, answer = Redirect url /\ url <> []
                 /\ generate_signed_url (store w) gcs_path
                      (DEFAULT_BUCKET_NAME (store w)) 30 = Returns (Some url))
    as (remote & -> & Hremote).
  { destruct (gcs_available w && gcs_exists); [|by exists None].
    unfold try_catch, bind, lift, ret.
    destruct (generate_signed_url_returns w gcs_path (DEFAULT_BUCKET_NAME (store w)) 30)
      as [signed_url Hurl]. rewrite Hurl.
    exists (redirect_to signed_url). split; [done|].
    intros answer (url & -> & Hsome & ->)%redirect_to_some. by exists url. }
  cbv beta iota. destruct remote as [answer|].
  { exists answer. split; [done|]. left. by apply Hremote. }
  unfold bind at 1.
  destruct (image_from_local_run w gcs_path gcs_exists [standard; alternate] s)
    as (local & -> & Hlocal).
  cbv beta iota. destruct local as [answer|].
  - exists answer. split; [done|].
    destruct Hlocal as (before & path & after & Hsplit & Hbefore & Hpath & Hanswer).
    destruct Hanswer as [->|(url & Hurl & -> & Hsigned)]; [|left; by exists url].
    right. destruct before as [|p0 before]; injection Hsplit as <- Hrest.
    + by left.
    + right. left.
      assert (os_path_exists w standard = false) as Hstandard
        by (apply Hbefore; left).
      destruct before as [|p1 before]; injection Hrest as <- Hrest; [done|].
      by destruct before.
  - assert (os_path_exists w standard = false) as Hstandard
      by (apply Hlocal; left).
    assert (os_path_exists w alternate = false) as Halternate
      by (apply Hlocal; right; left).
    exists (Answer (error_body (u "Image file not found")) 404).
    split; [|by right; right; right].
    unfold bind at 1.
    destruct (gcs_available w); [|done].
    unfold bind at 1, lift at 1.
    destruct (check_if_file_exists_returns (store w) gcs_path
                (DEFAULT_BUCKET_NAME (store w))) as [b ->].
    rewrite (bool_decide_eq_true_2 (gcs_path = gcs_path)) by done.
    cbn [negb]. by rewrite andb_false_r.
Qed.

Section ServingAudio.
Context (w : world) (os_path_getsize : str -> Z).

(** A statement under [try] whose exception is only printed leaves the
    state its body leaves. *)
Lemma best_effort_state {A} (m : prog state A) (s : state) :
  best_effort m s = (Returns tt, snd (m s)).
Proof.
  unfold best_effort, try_catch, bind, ret. by destruct (m s) as [[a|e] s1].
Qed.

(** The speech step asks the service once, whatever comes of it. *)
Lemma synthesize_state pdf_id page_number explanation s :
  snd (synthesize w pdf_id page_number explanation s)
  = {| db := db s; model_calls := model_calls s;
       tts_calls := tts_calls s ++ [speech_text_of page_number explanation];
       yielded := yielded s |}.
Proof.
  pose proof (synthesize_run w pdf_id page_number explanation s) as Hrun.
  unfold try_catch, ret in Hrun.
  destruct (synthesize w pdf_id page_number explanation s) as [[audio|e] s1];
    by injection Hrun as _ ->.
Qed.

Lemma audio_from_local_run gcs_path gcs_exists possible_paths s :
  exists local,
    audio_from_local w os_path_getsize gcs_path gcs_exists possible_paths s
    = (Returns local, s)
    /\ match local with
       | None =>
           forall path, path ∈ possible_paths ->
             os_path_exists w path = false \/ os_path_getsize path = 0
       | Some answer =>
           exists path,
             path ∈ possible_paths
             /\ os_path_exists w path = true /\ os_path_getsize path <> 0
             /\ (answer = SendFile path (u "audio/mpeg")
                 \/ exists url,
                      url <> [] /\ answer = Redirect url
                      /\ generate_signed_url (store w) gcs_path
                           (DEFAULT_BUCKET_NAME (store w)) 30 = Returns (Some url))
       end.
Proof.
  induction possible_paths as [|audio_path rest IH].
  - exists None. split; [done|]. by intros path []%elem_of_nil.
  - cbn [audio_from_local].
    destruct IH as (rest_local & Hrest & Hrest_local).
    assert (exists local,
              (Returns rest_local, s) = (Returns local, s)
              /\ match local with
                 | None =>
                     forall path, path ∈ rest ->
                       os_path_exists w path = false \/ os_path_getsize path = 0
                 | Some answer =>
                     exists path,
                       path ∈ audio_path :: rest
                       /\ os_path_exists w path = true /\ os_path_getsize path <> 0
                       /\ (answer = SendFile path (u "audio/mpeg")
                           \/ exists url,
                                url <> [] /\ answer = Redirect url
                                /\ generate_signed_url (store w) gcs_path
                                     (DEFAULT_BUCKET_NAME (store w)) 30
                                   = Returns (Some url))
                 end) as Hskip.
    { exists rest_local. split; [done|]. destruct rest_local as [answer|]; [|done].
      destruct Hrest_local as (path & Hin & Hpath). exists path.
      split; [by right|done]. }
    destruct (os_path_exists w audio_path) eqn:Hexists.
    + destruct (os_path_getsize audio_path =? 0) eqn:Hsize.
      * rewrite Hrest. destruct Hskip as (local & -> & Hlocal).
        exists local. split; [done|]. destruct local as [answer|]; [done|].
        intros path [->|Hpath]%elem_of_cons; [|by apply Hlocal].
        right. by apply Z.eqb_eq.
      * apply Z.eqb_neq in Hsize. unfold bind at 1.
        destruct (upload_then_redirect w audio_path gcs_path (Some (u "audio/mpeg"))
                    gcs_exists s) as (uploaded & -> & Huploaded).
        destruct uploaded as [answer|].
        -- exists (Some answer). split; [done|].
           exists audio_path. split_and!; try done; [by left|].
           right. by apply Huploaded.
        -- exists (Some (SendFile audio_path (u "audio/mpeg"))). split; [done|].
           exists audio_path. split_and!; try done; [by left|by left].
    + rewrite Hrest. destruct Hskip as (local & -> & Hlocal).
      exists local. split; [done|]. destruct local as [answer|]; [done|].
      intros path [->|Hpath]%elem_of_cons; [by left|by apply Hlocal].
Qed.

End ServingAudio.

(** [get_pdf_audio] never raises and never answers 500.  It redirects
    only to a signed URL of the page's own key, and sends only a local
    file of the page that exists and is not empty; in both cases the
    state is as it was.  When no such file is at hand the answer is
    404, also when the audio has just been made again: the speech
    service has then been asked once, with the text of the stored
    explanation, and nothing else of the state has changed. *)
Theorem get_pdf_audio_answers w os_path_getsize pdf_name page_num s :
  let gcs_path :=
    GCS_AUDIO_PREFIX ++ pdf_name ++ u "/page_" ++ str_of_Z page_num ++ u ".mp3" in
  let audio_files :=
    os_path_join (os_path_join UPLOAD_FOLDER pdf_name) (u "audio_files") in
  let possible_paths :=
    [ os_path_join audio_files
        (pdf_name ++ u "_page_" ++ str_of_Z page_num ++ u ".mp3");
      os_path_join audio_files (u "page_" ++ str_of_Z page_num ++ u ".mp3");
      os_path_join audio_files
        (item 0 (split (u "_") pdf_name) ++ u "_page_"
         ++ str_of_Z page_num ++ u ".mp3") ] in
  let text_path :=
    os_path_join
      (os_path_join (os_path_join UPLOAD_FOLDER pdf_name) (u "text_files"))
      (pdf_name ++ u "_page_" ++ str_of_Z page_num ++ u ".md") in
  exists answer s',
    get_pdf_audio w os_path_getsize pdf_name page_num s = (Returns answer, s')
    /\ ((s' = s
         /\ exists url,
              answer = Redirect url /\ url <> []
              /\ generate_signed_url (store w) gcs_path
                   (DEFAULT_BUCKET_NAME (store w)) 30 = Returns (Some url))
        \/ (s' = s
            /\ exists path,
                 answer = SendFile path (u "audio/mpeg")
                 /\ path ∈ possible_paths
                 /\ os_path_exists w path = true /\ os_path_getsize path <> 0)
        \/ (answer = Answer
                       (error_body
                          (u "Audio file not found and could not be generated")) 404
            /\ (forall path, path ∈ possible_paths ->
                  os_path_exists w path = false \/ os_path_getsize path = 0)
            /\ db s' = db s /\ model_calls s' = model_calls s
            /\ yielded s' = yielded s
            /\ (tts_calls s' = tts_calls s
                \/ exists explanation,
                     os_path_exists w text_path = true
                     /\ read_text w text_path = Returns explanation
                     /\ tts_calls s'
                        = tts_calls s ++ [speech_text_of page_num explanation]))).
Proof.
  intros gcs_path audio_files possible_paths text_path.
  unfold get_pdf_audio. unfold try_catch at 1.
  fold gcs_path audio_files. fold possible_paths. fold text_path.
  unfold bind at 1.
  assert (exists gcs_exists,
            (if gcs_available w
             then lift (check_if_file_exists (store w) gcs_path
                          (DEFAULT_BUCKET_NAME (store w)))
             else ret false) s = (Returns gcs_exists, s)) as (gcs_exists & ->).
  { destruct (gcs_available w); [|by eexists].
    unfold lift.
    destruct (check_if_file_exists_returns (store w) gcs_path
                (DEFAULT_BUCKET_NAME (store w))) as [b ->]. by eexists. }
  cbv beta iota. unfold bind at 1.
  assert (exists remote,
            (if gcs_available w && gcs_exists
             then let! signed_url :=
                    lift (generate_signed_url (store w) gcs_path
                            (DEFAULT_BUCKET_NAME (store w)) 30) in
                  ret (redirect_to signed_url)
             else ret None) s = (Returns remote, s)
            /\ forall answer, remote = Some answer ->
               exists url, answer = Redirect url /\ url <> []
                 /\ generate_signed_url (store w) gcs_path
                      (DEFAULT_BUCKET_NAME (store w)) 30 = Returns (Some url))
    as (remote & -> & Hremote).
  { destruct (gcs_available w && gcs_exists); [|by exists None].
    unfold bind, lift, ret.
    destruct (generate_signed_url_returns w gcs_path (DEFAULT_BUCKET_NAME (store w)) 30)
      as [signed_url Hurl]. rewrite Hurl.
    exists (redirect_to signed_url). split; [done|].
    intros answer (url & -> & Hsome & ->)%redirect_to_some. by exists url. }
  cbv beta iota. destruct remote as [answer|].
  { exists answer, s. split; [done|]. left. split; [done|]. by apply Hremote. }
  unfold bind at 1.
  destruct (audio_from_local_run w os_path_getsize gcs_path gcs_exists
              possible_paths s) as (local & -> & Hlocal).
  cbv beta iota. destruct local as [answer|].
  - exists answer, s. split; [done|].
    destruct Hlocal as (path & Hin & Hpath & Hsize & [->|(url & Hurl & -> & Hsigned)]).
    + right. left. split; [done|]. by exists path.
    + left. split; [done|]. by exists url.
  - unfold bind at 1.
    destruct (os_path_exists w text_path) eqn:Htext.
    + rewrite best_effort_state. cbv beta iota. unfold ret at 1.
      do 2 eexists. split; [reflexivity|]. right. right.
      split; [done|]. split; [done|].
      unfold bind, lift.
      destruct (read_text w text_path) as [explanation|e] eqn:Hread;
        cbn [snd]; [|by auto].
      rewrite synthesize_state. cbn [db model_calls yielded tts_calls].
      split_and!; try done. right. by exists explanation.
    + unfold ret. do 2 eexists. split; [reflexivity|]. right. right.
      split_and!; try done. by left.
Qed.

(** ** Replaying a stored PDF *)

Section Reading.

Lemma reads_ret {A} (a : A) : reads (ret a).
Proof. by intros s. Qed.

Lemma reads_raise {A} (e : exn) : reads (raise (A := A) e).
Proof. by intros s. Qed.

Lemma reads_lift {A} (o : outcome A) : reads (lift o).
Proof. intros s. unfold lift. by destruct o. Qed.

Lemma reads_gets {A} (f : state -> A) : reads (gets f).
Proof. by intros s. Qed.

Lemma reads_bind {A B} (m : prog state A) (k : A -> prog state B) :
  reads m -> (forall a, reads (k a)) -> reads (bind m k).
Proof.
  intros Hm Hk s. unfold bind. pose proof (Hm s) as Hs.
  destruct (m s) as [[a|e] s1]; cbn [snd] in *; subst s1; [apply Hk|done].
Qed.

Lemma reads_try_catch {A} (m : prog state A) (h : exn -> prog state A) :
  reads m -> (forall e, reads (h e)) -> reads (try_catch m h).
Proof.
  intros Hm Hh s. unfold try_catch. pose proof (Hm s) as Hs.
  destruct (m s) as [[a|e] s1]; cbn [snd] in *; subst s1; [done|apply Hh].
Qed.

Lemma reads_best_effort {A} (m : prog state A) : reads m -> reads (best_effort m).
Proof.
  intros Hm. unfold best_effort. apply reads_try_catch; [|intros; apply reads_ret].
  apply reads_bind; [done|intros; apply reads_ret].
Qed.

Lemma reads_gather {A B} (body : A -> prog state (list B)) (l : list A) :
  (forall x, reads (body x)) -> reads (gather body l).
Proof.
  intros Hbody. induction l as [|x l IH]; cbn [gather]; [apply reads_ret|].
  apply reads_bind; [done|]. intros found.
  apply reads_bind; [done|]. intros more. apply reads_ret.
Qed.

End Reading.

Ltac reading :=
  repeat first
    [ apply reads_ret
    | apply reads_raise
    | apply reads_lift
    | apply reads_gets
    | apply reads_best_effort
    | apply reads_bind; [|intros ?]
    | apply reads_try_catch; [|intros ?]
    | match goal with
      | |- reads (if ?b then _ else _) => destruct b
      | |- reads (match ?x with _ => _ end) => destruct x
      | |- reads (let _ := _ in _) => cbv zeta
      end ].

Section Replay.
Context (w : world) (float_is_zero : str -> bool).

Lemma reads_load_metadata pdf_name :
  reads (load_metadata w float_is_zero pdf_name).
Proof. unfold load_metadata. reading. Qed.

Lemma reads_count_pages pdf_name : reads (count_pages w pdf_name).
Proof. unfold count_pages. reading. Qed.

Lemma reads_stored_explanation pdf_name page_num :
  reads (stored_explanation w pdf_name page_num).
Proof. unfold stored_explanation. reading. Qed.

Lemma reads_stored_base64 gcs_path local_path content_type :
  reads (stored_base64 w gcs_path local_path content_type).
Proof. unfold stored_base64. reading. Qed.

Lemma reads_load_page pdf_name page_num : reads (load_page w pdf_name page_num).
Proof.
  unfold load_page.
  apply reads_bind; [apply reads_stored_explanation|intros explanation].
  cbv zeta.
  apply reads_bind;
    [destruct (page_num =? 1); [apply reads_stored_base64|apply reads_ret]|].
  intros image_data.
  apply reads_bind;
    [destruct (page_num =? 1); [apply reads_stored_base64|apply reads_ret]|].
  intros audio_data. apply reads_ret.
Qed.

Lemma reads_use_existing_pdf pdf_name :
  reads (use_existing_pdf w float_is_zero pdf_name).
Proof.
  unfold use_existing_pdf.
  apply reads_try_catch; [|intros; apply reads_ret].
  apply reads_bind; [apply reads_load_metadata|intros _].
  apply reads_bind; [apply reads_count_pages|intros total_pages].
  destruct (total_pages =? 0); [apply reads_ret|].
  apply reads_bind; [|intros; apply reads_ret].
  apply reads_gather. intros page_num. apply reads_load_page.
Qed.

(** The page count of the catalog, when it has one, is the one that
    counts. *)
Lemma count_pages_from_catalog pdf_name row s :
  get_pdf_by_path pdf_name (db s) = Some row ->
  page_count row <> 0 ->
  count_pages w pdf_name s = (Returns (page_count row), s).
Proof.
  intros Hrow Hcount. unfold count_pages, bind, gets. rewrite Hrow.
  apply Z.eqb_neq in Hcount. rewrite Hcount. cbn [andb]. unfold ret.
  by rewrite Hcount.
Qed.

Lemma load_page_returns pdf_name page_num found s s' :
  load_page w pdf_name page_num s = (Returns found, s') ->
  exists page, found = [page] /\ replayed_page pdf_name page_num page.
Proof.
  unfold load_page, bind.
  destruct (stored_explanation w pdf_name page_num s) as [[explanation|e] s1];
    [|done].
  destruct (page_num =? 1) eqn:Hfirst.
  - destruct (stored_base64 w _ _ _ s1) as [[image_data|e] s2]; [|done].
    destruct (stored_base64 w _ _ _ s2) as [[audio_data|e] s3]; [|done].
    intros [= <- <-]. eexists. split; [done|].
    exists image_data, explanation, audio_data. split; [done|].
    apply Z.eqb_eq in Hfirst. done.
  - intros [= <- <-]. eexists. split; [done|].
    exists [], explanation, []. by split.
Qed.

Lemma gather_load_page pdf_name page_numbers pages s s' :
  gather (load_page w pdf_name) page_numbers s = (Returns pages, s') ->
  Forall2 (replayed_page pdf_name) page_numbers pages.
Proof.
  revert pages s s'. induction page_numbers as [|i l IH]; intros pages s s'.
  - intros [= <- <-]. constructor.
  - cbn [gather]. unfold bind at 1.
    destruct (load_page w pdf_name i s) as [[found|e] s1] eqn:Hpage; [|done].
    apply load_page_returns in Hpage as (page & -> & Hpage).
    unfold bind at 1.
    destruct (gather (load_page w pdf_name) l s1) as [[more|e] s2] eqn:Hmore; [|done].
    intros [= <- <-]. constructor; [done|]. by apply (IH more s1 s2).
Qed.

End Replay.

(** [use_existing_pdf] never raises and changes nothing in the state.
    When it answers 200, [pages] holds one entry for each of the page
    numbers 1, ..., [total_pages], in that order, each with the two
    URLs of its page, and only the entry of page 1 carries an image
    and audio; [total_pages] is not 0, and it is the page count of the
    catalog whenever the catalog has a row for the key with a count
    other than 0.  It answers 404 only when the catalog has no such
    count; every other answer is a 500 with the message of the
    exception. *)
Theorem use_existing_pdf_answers w float_is_zero pdf_name s :
  exists r,
    use_existing_pdf w float_is_zero pdf_name s = (Returns r, s)
    /\ ((exists total_pages pages,
            r = Jsonify (JDict [ (u "total_pages", JInt total_pages);
                                 (u "pdf_name", JStr pdf_name);
                                 (u "pages", JList pages) ]) 200
            /\ total_pages <> 0
            /\ Forall2 (replayed_page pdf_name) (seqZ 1 total_pages) pages
            /\ forall row,
                 get_pdf_by_path pdf_name (db s) = Some row ->
                 page_count row <> 0 -> total_pages = page_count row)
        \/ (r = Jsonify (error_body (u "Could not determine page count for PDF")) 404
            /\ forall row,
                 get_pdf_by_path pdf_name (db s) = Some row -> page_count row = 0)
        \/ (exists msg, r = Jsonify (error_body msg) 500)).
Proof.
  pose proof (reads_use_existing_pdf w float_is_zero pdf_name s) as Hstate.
  unfold use_existing_pdf, try_catch in *. unfold bind at 1 in Hstate. unfold bind at 1.
  pose proof (reads_load_metadata w float_is_zero pdf_name s) as Hmeta.
  destruct (load_metadata w float_is_zero pdf_name s) as [[metadata|e] s1];
    cbn [snd] in Hmeta; subst s1.
  2: { unfold ret in *. eexists. split; [reflexivity|]. right. right. by eexists. }
  unfold bind at 1 in Hstate. unfold bind at 1.
  pose proof (reads_count_pages w pdf_name s) as Hcount.
  destruct (count_pages w pdf_name s) as [[total_pages|e] s1] eqn:Htotal;
    cbn [snd] in Hcount; subst s1.
  2: { unfold ret in *. eexists. split; [reflexivity|]. right. right. by eexists. }
  assert (forall row, get_pdf_by_path pdf_name (db s) = Some row ->
                      page_count row <> 0 -> total_pages = page_count row) as Hcatalog.
  { intros row Hrow Hpages.
    rewrite (count_pages_from_catalog w pdf_name row s Hrow Hpages) in Htotal.
    by injection Htotal as <-. }
  destruct (total_pages =? 0) eqn:Hzero.
  - unfold ret. eexists. split; [reflexivity|]. right. left. split; [done|].
    intros row Hrow. apply Z.eqb_eq in Hzero.
    destruct (decide (page_count row = 0)) as [|Hpages]; [done|].
    specialize (Hcatalog row Hrow Hpages). congruence.
  - apply Z.eqb_neq in Hzero. unfold bind in *.
    destruct (gather (load_page w pdf_name) (seqZ 1 total_pages) s)
      as [[pages|e] s1] eqn:Hpages; unfold ret in *; cbn [snd] in Hstate; subst s1.
    + eexists. split; [reflexivity|]. left. exists total_pages, pages.
      split_and!; try done. by apply (gather_load_page w pdf_name _ pages s s).
    + eexists. split; [reflexivity|]. right. right. by eexists.
Qed.
